(** * The CollectWise negotiation decision engine

    A shallow embedding of the rule layer of [src/lib/assistantLogic.ts]
    (minimum-payment policy, the three decision entry points, the shared
    counter-offer builder and the implicit-offer extractor), followed by the
    properties stated about it.

    Conventions of the embedding.

    - A JavaScript [number] that the engine stores (amounts, term lengths,
      totals, the stage counter) is a whole number, modelled by [Z].  Every
      fractional intermediate value of the source ([debt * 0.08],
      [debt / amount], ...) is fed at once to [Math.ceil] or [Math.floor];
      those expressions are written in [Q] and rounded back to [Z] as the
      source does.  On whole numbers far below 2^53 the exact product is
      what IEEE doubles compute, once rounded up, for the literals 0.08,
      0.04, 0.02, 1.2, 1.25 and 1.5, and the exact quotient of two whole
      numbers is what the double quotient gives once rounded up or down.
      Where doubles differ from exact arithmetic the value goes through
      [double], the rounding of a rational to the nearest double: the
      product with the hardship multiplier 1.1, and the quotient by an
      amount the extractor parsed, which may carry cents.  A division whose
      divisor is zero ([Infinity] or [NaN] in JavaScript) is outside the
      model, and statements that depend on the value of a quotient say that
      the divisor is positive.  The amount parsed by the extractor is kept
      as the decimal number it was written as, a [Q].
    - A JavaScript string is a [string]; each character stands for one code
      unit below 256.
    - The object literal [minRates] has three keys of its own and, like
      every object literal, the members it inherits from
      [Object.prototype].  [getMinimumPayment] and [finalizePlan] are the
      two functions on the frequency strings that name no inherited member
      (every string the two negotiating entry points let through is one of
      the three keys); [WithPrototype.getMinimumPayment] and
      [WithPrototype.finalizePlan] are the same two functions on every
      string, with the [NaN] that an inherited member produces.
    - The module-level variables [currentDebtAmount] and [negotiationStage]
      form an explicit [State] threaded through a small state monad.
    - The [id] field of a chat message is a fresh random UUID; it carries no
      information and is left out of [ChatMessage]. *)

From Stdlib Require Import ZArith QArith Qround Qabs Qpower Bool List Lia Lqa.
From Stdlib Require Import Ascii String DecimalString DecimalPos DecimalZ.
From Stdlib Require Floats Uint63.
Import ListNotations.

Open Scope bool_scope.
Open Scope string_scope.
Open Scope Z_scope.

(** ** JavaScript primitives used by the engine *)

Module JS.

(** A stored whole number read as a real. *)
Definition num (z : Z) : Q := inject_Z z.

Definition Math_ceil (q : Q) : Z := Qceiling q.
Definition Math_floor (q : Q) : Z := Qfloor q.

(** Template-literal conversion of a whole number. *)
Definition Number_toString (z : Z) : string :=
  NilZero.string_of_int (Z.to_int z).

(** [z.toFixed(2)] of a whole number. *)
Definition toFixed2 (z : Z) : string := Number_toString z ++ ".00".

(** Truthiness of a string: only the empty string is falsy. *)
Definition truthy (s : string) : bool :=
  match s with EmptyString => false | String _ _ => true end.

(** [a || b] on strings. *)
Definition or_else (a b : string) : string := if truthy a then a else b.

Definition is_upper (c : ascii) : bool :=
  let n := nat_of_ascii c in
  ((65 <=? n) && (n <=? 90))%nat
  || ((192 <=? n) && (n <=? 222) && negb (n =? 215))%nat.

Definition lower_char (c : ascii) : ascii :=
  if is_upper c then ascii_of_nat (nat_of_ascii c + 32) else c.

Fixpoint toLowerCase (s : string) : string :=
  match s with
  | EmptyString => EmptyString
  | String c s' => String (lower_char c) (toLowerCase s')
  end.

(** [s.includes(sub)]. *)
Fixpoint includes (s sub : string) : bool :=
  prefix sub s
  || match s with
     | EmptyString => false
     | String _ s' => includes s' sub
     end.

(** Property lookup in an object literal used as a table. *)
Fixpoint lookup {A : Type} (o : list (string * A)) (k : string) : option A :=
  match o with
  | [] => None
  | (k', v) :: o' => if String.eqb k k' then Some v else lookup o' k
  end.

(** [r || d] on a possibly-undefined number: zero and undefined are falsy. *)
Definition num_or (r : option Q) (d : Q) : Q :=
  match r with
  | Some q => if Qeq_bool q 0 then d else q
  | None => d
  end.

(** [a.includes(x)] on an array of strings. *)
Definition array_includes (a : list string) (x : string) : bool :=
  existsb (String.eqb x) a.

(** *** Doubles

    A JavaScript number is an IEEE 754 double: a whole number [m] below
    2^53 times a power of two.  [double q] is the double nearest to the
    rational [q], the nearer of the two neighbours and the one with the even
    [m] when [q] lies half way; this is the value of a decimal literal or of
    a string given to [parseFloat], and the result of one multiplication or
    division whose exact value is [q].  The exponent is not bounded: the
    values of the engine stay far from the largest and the smallest
    double. *)

(** Round to the nearest whole number, a tie to the even one. *)
Definition round_half_even (x : Q) : Z :=
  let k := Qfloor x in
  match (x - inject_Z k ?= 1 # 2)%Q with
  | Lt => k
  | Gt => k + 1
  | Eq => if Z.even k then k else k + 1
  end.

(** The exponent [e] of a positive [q] with [2^52 <= q / 2^e < 2^53]. *)
Definition binade (q : Q) : Z :=
  let e0 := Z.log2 (Qnum q) - Z.log2 (Zpos (Qden q)) - 52 in
  if Qle_bool (2 ^ 52) (q / 2 ^ e0) then e0 else e0 - 1.

Definition double_pos (q : Q) : Q :=
  let e := binade q in
  (inject_Z (round_half_even (q / 2 ^ e)) * 2 ^ e)%Q.

Definition double (q : Q) : Q :=
  let r := Qred q in
  match Qnum r with
  | Z0 => 0%Q
  | Zpos _ => double_pos r
  | Zneg _ => (- double_pos (- r))%Q
  end.

End JS.
Import JS.

(** ** Data model *)

Inductive DisplayType := text | paymentPlans | finalPlan.

Record PaymentPlan := mkPaymentPlan {
  frequency : string;
  amount : Z;
  termLength : Z;
  totalAmount : Z
}.

Record FinalPaymentPlan := mkFinalPaymentPlan {
  final_frequency : string;
  final_amount : Z;
  final_termLength : Z;
  final_totalAmount : Z;
  paymentLink : option string
}.

Inductive DisplayData :=
| Plans (plans : list PaymentPlan)
| Final (plan : FinalPaymentPlan)
| NoData.

Record ChatMessage := mkChatMessage {
  message : string;
  isBot : bool;
  displayType : DisplayType;
  displayData : DisplayData
}.

(** The user proposal handed to [evaluateAndNegotiate] and [suggestPlan]. *)
Record Proposal := mkProposal {
  proposal_amount : Z;
  proposal_frequency : string;
  proposal_termLength : Z
}.

(** The [response] argument of [evaluateAndNegotiate]. *)
Record Response := mkResponse {
  response_message : string;
  isReasonable : bool;
  counterProposal : option PaymentPlan
}.

(** ** Conversation state and its monad *)

Record State := mkState {
  currentDebtAmount : Z;
  negotiationStage : Z
}.

(** [let currentDebtAmount = 2400; let negotiationStage = 0]. *)
Definition initial_state : State :=
  {| currentDebtAmount := 2400; negotiationStage := 0 |}.

Definition M (A : Type) : Type := State -> A * State.

Definition ret {A : Type} (a : A) : M A := fun st => (a, st).

Definition bind {A B : Type} (m : M A) (k : A -> M B) : M B :=
  fun st => let (a, st') := m st in k a st'.

Notation "x <- m ;; k" := (bind m (fun x => k))
  (at level 61, m at next level, right associativity).
Notation "m ;; k" := (bind m (fun _ => k))
  (at level 61, right associativity).

(** [negotiationStage++]. *)
Definition incrStage : M unit :=
  fun st => (tt, {| currentDebtAmount := currentDebtAmount st;
                    negotiationStage := negotiationStage st + 1 |}).

(** [negotiationStage = 0]. *)
Definition resetStage : M unit :=
  fun st => (tt, {| currentDebtAmount := currentDebtAmount st;
                    negotiationStage := 0 |}).

Definition getStage : M Z := fun st => (negotiationStage st, st).

(** ** Minimum-payment policy *)

(** The keys of the literal [minRates]. *)
Definition minRates : list (string * Q) :=
  [("monthly", 0.08%Q); ("biweekly", 0.04%Q); ("weekly", 0.02%Q)].

(** [getMinimumPayment] on a frequency that names no inherited member: the
    lookup finds one of the three keys or nothing.  The function on every
    string is [WithPrototype.getMinimumPayment] below. *)
Definition getMinimumPayment (frequency : string) (debtAmount : Z) : Z :=
  Math_ceil (num debtAmount * num_or (lookup minRates frequency) 0.08).

(** ** The shared counter-offer builder *)

Definition createCounterProposal
    (systemMessage frequency : string) (termLength totalAmount : Z)
    (userMessage : string) : M ChatMessage :=
  let regularAmount := Math_floor (num totalAmount / num termLength) in
  let finalPayment := totalAmount - regularAmount * (termLength - 1) in
  let isEqualPayments := regularAmount =? finalPayment in
  let displayAmount := regularAmount in
  let counter :=
    {| frequency := frequency;
       amount := displayAmount;
       termLength := termLength;
       totalAmount := totalAmount |} in
  let finalMessage := or_else userMessage systemMessage in
  let finalMessage :=
    if negb isEqualPayments && negb (truthy userMessage)
    then finalMessage ++ " Note: The final payment will be $"
         ++ toFixed2 finalPayment
         ++ " to ensure the total exactly matches your debt amount."
    else finalMessage in
  incrStage ;;
  ret {| message := finalMessage;
         isBot := true;
         displayType := paymentPlans;
         displayData := Plans [counter] |}.

(** ** The three decision entry points *)

Definition allowedFrequencies : list string := ["weekly"; "biweekly"; "monthly"].

Definition evaluateAndNegotiate
    (userProposal : Proposal) (debtAmount : Z) (userSituation : string)
    (response : Response) : M ChatMessage :=
  let amount := proposal_amount userProposal in
  let frequency := proposal_frequency userProposal in
  let termLength := proposal_termLength userProposal in
  if negb (array_includes allowedFrequencies frequency) then
    createCounterProposal
      "Invalid payment frequency. Only weekly, biweekly, or monthly are allowed."
      "monthly" 6 debtAmount ""
  else
  let absoluteMinPayment := getMinimumPayment frequency debtAmount in
  let totalProposed := amount * termLength in
  if totalProposed <? debtAmount then
    if amount <? absoluteMinPayment then
      let suggestedAmount := Math_ceil (num absoluteMinPayment * 1.25) in
      let suggestedTerm := Math_ceil (num debtAmount / num suggestedAmount) in
      createCounterProposal
        "I appreciate your situation, but we need a plan that covers the full debt amount in a reasonable time. Here's a suggested plan that works better."
        frequency suggestedTerm debtAmount ""
    else
      let adjustedTerm := Math_ceil (num debtAmount / num amount) in
      createCounterProposal
        "Your payment amount looks good, but we need to adjust the term to cover the full debt."
        frequency adjustedTerm debtAmount ""
  else
  if amount <? absoluteMinPayment then
    let hasHardship :=
      includes (toLowerCase userSituation) "hardship"
      || includes (toLowerCase userSituation) "laid off"
      || includes (toLowerCase userSituation) "medical"
      || includes (toLowerCase userSituation) "difficult" in
    (* [Math.ceil(absoluteMinPayment * multiplier)] for the multiplier 1.1
       or 1.25: the double product with 1.25 is the exact one, the product
       with 1.1 is rounded. *)
    let counterAmount :=
      if hasHardship
      then Math_ceil (double (num absoluteMinPayment * double 1.1))
      else Math_ceil (num absoluteMinPayment * 1.25) in
    let counterTerm := Math_ceil (num debtAmount / num counterAmount) in
    createCounterProposal
      (if hasHardship
       then "I understand your situation, but we need something a bit higher to make this work."
       else "We need to increase the payment amount to make this a viable arrangement.")
      frequency counterTerm debtAmount ""
  else
  if negb (amount * termLength =? debtAmount) then
    let adjustedTerm := Math_ceil (num debtAmount / num amount) in
    createCounterProposal
      "Let me adjust the payment term slightly to make sure it covers the full debt."
      frequency adjustedTerm debtAmount ""
  else
  incrStage ;;
  ret {| message := or_else (response_message response)
                            "This is a reasonable payment plan.";
         isBot := true;
         displayType := paymentPlans;
         displayData :=
           Plans [ {| frequency := frequency;
                      amount := amount;
                      termLength := termLength;
                      totalAmount := debtAmount |} ] |}.

Definition suggestPlan
    (proposedPlan : Proposal) (debtAmount : Z) (userSituation : string)
    (message : string) : M ChatMessage :=
  let amount := proposal_amount proposedPlan in
  let frequency := proposal_frequency proposedPlan in
  let termLength := proposal_termLength proposedPlan in
  if negb (array_includes allowedFrequencies frequency) then
    createCounterProposal
      "Our system only supports weekly, biweekly, or monthly payment frequencies."
      "monthly" 6 debtAmount message
  else
  let absoluteMinPayment := getMinimumPayment frequency debtAmount in
  let calculatedTotal := amount * termLength in
  if negb (calculatedTotal =? debtAmount) then
    let adjustedTerm := Math_ceil (num debtAmount / num amount) in
    createCounterProposal
      "Let me adjust this plan to ensure it covers your total debt exactly."
      frequency adjustedTerm debtAmount message
  else
  stage <- getStage ;;
  if (amount <? absoluteMinPayment) && (stage <? 2) then
    let suggestedAmount := Math_ceil (num absoluteMinPayment * 1.5) in
    let suggestedTerm := Math_ceil (num debtAmount / num suggestedAmount) in
    createCounterProposal
      "I need to suggest a more effective payment plan."
      frequency suggestedTerm debtAmount message
  else
  let hasHardship :=
    includes (toLowerCase userSituation) "hardship"
    || includes (toLowerCase userSituation) "laid off"
    || includes (toLowerCase userSituation) "medical" in
  if hasHardship && (stage <? 2) then
    let suggestedAmount := Math_ceil (num absoluteMinPayment * 1.2) in
    let suggestedTerm := Math_ceil (num debtAmount / num suggestedAmount) in
    createCounterProposal
      "Here's a plan that might work better for you, based on your situation."
      frequency suggestedTerm debtAmount message
  else
  incrStage ;;
  let validPlan :=
    {| frequency := frequency;
       amount := amount;
       termLength := termLength;
       totalAmount := debtAmount |} in
  ret {| message := message;
         isBot := true;
         displayType := paymentPlans;
         displayData := Plans [validPlan] |}.

(** [finalizePlan] on a plan whose frequency names no inherited member,
    so that the minimum is a number.  The function on every plan is
    [WithPrototype.finalizePlan] below. *)
Definition finalizePlan
    (plan : PaymentPlan) (userDetails : string) (message : string)
    : M ChatMessage :=
  let absoluteMinPayment :=
    getMinimumPayment (frequency plan) (totalAmount plan) in
  if amount plan <? absoluteMinPayment then
    let minTerm :=
      Math_ceil (num (totalAmount plan) / num absoluteMinPayment) in
    let betterPlan :=
      {| frequency := frequency plan;
         amount := absoluteMinPayment;
         termLength := minTerm;
         totalAmount := totalAmount plan |} in
    ret {| message :=
             "I can't finalize this plan as it doesn't meet our minimum payment requirements. For a $"
             ++ Number_toString (totalAmount plan) ++ " debt, the minimum "
             ++ frequency plan ++ " payment is $"
             ++ Number_toString absoluteMinPayment
             ++ ". Here's a better plan that meets our requirements.";
           isBot := true;
           displayType := paymentPlans;
           displayData := Plans [betterPlan] |}
  else
  let paymentLink :=
    "collectwise.com/payments?termLength="
    ++ Number_toString (termLength plan)
    ++ "&totalDebtAmount=" ++ Number_toString (totalAmount plan)
    ++ "&termPaymentAmount=" ++ Number_toString (amount plan) in
  let finalPlan_ :=
    {| final_frequency := frequency plan;
       final_amount := amount plan;
       final_termLength := termLength plan;
       final_totalAmount := totalAmount plan;
       paymentLink := Some paymentLink |} in
  resetStage ;;
  ret {| message := message;
         isBot := true;
         displayType := finalPlan;
         displayData := Final finalPlan_ |}.

(** ** The policy on every frequency string

    [minRates[frequency]] finds the three keys of the literal and, for any
    other string, what the literal inherits from [Object.prototype]: a
    function or an object for the twelve names below, [undefined] for every
    other string.  An inherited member is truthy, so [||] keeps it, and the
    product of a number with it is [NaN]; [Math.ceil] keeps [NaN], and every
    comparison with [NaN] is false. *)

Module WithPrototype.

(** The result of [Math.ceil]: a whole number or [NaN]. *)
Inductive Number := NaN | Whole (z : Z).

(** The members of [Object.prototype]. *)
Definition Object_prototype : list string :=
  ["constructor"; "__defineGetter__"; "__defineSetter__"; "hasOwnProperty";
   "__lookupGetter__"; "__lookupSetter__"; "isPrototypeOf";
   "propertyIsEnumerable"; "toString"; "valueOf"; "__proto__";
   "toLocaleString"].

(** What [o[k]] finds in an object literal [o] of numbers. *)
Inductive Member := Own (rate : Q) | Inherited | Undefined.

Definition get (o : list (string * Q)) (k : string) : Member :=
  match lookup o k with
  | Some rate => Own rate
  | None => if array_includes Object_prototype k then Inherited else Undefined
  end.

Definition getMinimumPayment (frequency : string) (debtAmount : Z) : Number :=
  match get minRates frequency with
  | Own rate => Whole (Math_ceil (num debtAmount * num_or (Some rate) 0.08))
  | Undefined => Whole (Math_ceil (num debtAmount * num_or None 0.08))
  | Inherited => NaN
  end.

(** [a < b] and [a <= b] on results of [Math.ceil]. *)
Definition lt (a b : Number) : bool :=
  match a, b with
  | Whole x, Whole y => x <? y
  | _, _ => false
  end.

Definition le (a b : Number) : bool :=
  match a, b with
  | Whole x, Whole y => x <=? y
  | _, _ => false
  end.

Definition finalizePlan
    (plan : PaymentPlan) (userDetails : string) (message : string)
    : M ChatMessage :=
  let absoluteMinPayment :=
    getMinimumPayment (frequency plan) (totalAmount plan) in
  let paymentLink :=
    "collectwise.com/payments?termLength="
    ++ Number_toString (termLength plan)
    ++ "&totalDebtAmount=" ++ Number_toString (totalAmount plan)
    ++ "&termPaymentAmount=" ++ Number_toString (amount plan) in
  let finalPlan_ :=
    {| final_frequency := frequency plan;
       final_amount := amount plan;
       final_termLength := termLength plan;
       final_totalAmount := totalAmount plan;
       paymentLink := Some paymentLink |} in
  let finalized :=
    resetStage ;;
    ret {| message := message;
           isBot := true;
           displayType := finalPlan;
           displayData := Final finalPlan_ |} in
  match absoluteMinPayment with
  | Whole minPayment =>
      if amount plan <? minPayment then
        let minTerm :=
          Math_ceil (num (totalAmount plan) / num minPayment) in
        let betterPlan :=
          {| frequency := frequency plan;
             amount := minPayment;
             termLength := minTerm;
             totalAmount := totalAmount plan |} in
        ret {| message :=
                 "I can't finalize this plan as it doesn't meet our minimum payment requirements. For a $"
                 ++ Number_toString (totalAmount plan) ++ " debt, the minimum "
                 ++ frequency plan ++ " payment is $"
                 ++ Number_toString minPayment
                 ++ ". Here's a better plan that meets our requirements.";
               isBot := true;
               displayType := paymentPlans;
               displayData := Plans [betterPlan] |}
      else finalized
  | NaN => finalized
  end.

End WithPrototype.

(** ** Machine doubles

    The doubles of the kernel, which are IEEE 754 binary64 numbers, used
    below to check [double] on sample products and quotients of the
    engine. *)

Module Binary64.

(** The double of a whole number below 2^53. *)
Definition of_Z (z : Z) : PrimFloat.float :=
  PrimFloat.of_uint63 (Uint63.of_Z z).

(** The rational a finite double stands for. *)
Definition value (f : PrimFloat.float) : option Q :=
  match FloatOps.Prim2SF f with
  | SpecFloat.S754_zero _ => Some 0%Q
  | SpecFloat.S754_finite s m e =>
      let v := (inject_Z (Zpos m) * 2 ^ e)%Q in
      Some (Qred (if s then (- v)%Q else v))
  | _ => None
  end.

(** The machine double of the decimal [n / scale], for a power of ten
    [scale]: the division of two whole numbers rounds once. *)
Definition decimal (n : Z) (scale : Z) : PrimFloat.float :=
  PrimFloat.div (of_Z n) (of_Z scale).

(** [f] stands for the rational [q]. *)
Definition same_value (f : PrimFloat.float) (q : Q) : bool :=
  match value f with
  | Some v => Qeq_bool v q
  | None => false
  end.

(** [Math.ceil] of a finite double. *)
Definition ceil (f : PrimFloat.float) : option Z :=
  option_map Qceiling (value f).

(** The whole numbers below [n]. *)
Definition sample (n : nat) : list Z := map Z.of_nat (seq 0 n).

End Binary64.

(** ** The implicit-offer extractor *)

Module Regex.

Definition is_digit (c : ascii) : bool :=
  let n := nat_of_ascii c in ((48 <=? n) && (n <=? 57))%nat.

(** [\w]: ASCII letters, digits and the underscore. *)
Definition is_word (c : ascii) : bool :=
  let n := nat_of_ascii c in
  (((65 <=? n) && (n <=? 90)) || ((97 <=? n) && (n <=? 122))
   || ((48 <=? n) && (n <=? 57)) || (n =? 95))%nat.

(** [\s] on code units below 256: TAB, LF, VT, FF, CR, space, NBSP. *)
Definition is_space (c : ascii) : bool :=
  let n := nat_of_ascii c in
  (((9 <=? n) && (n <=? 13)) || (n =? 32) || (n =? 160))%nat.

Definition is_ascii_upper (c : ascii) : bool :=
  let n := nat_of_ascii c in ((65 <=? n) && (n <=? 90))%nat.

Definition fold_char (c : ascii) : ascii :=
  if is_ascii_upper c then ascii_of_nat (nat_of_ascii c + 32) else c.

(** Equality of two characters under the [i] flag (the pattern characters
    are ASCII letters, which only match their two ASCII cases). *)
Definition eqb_ci (a b : ascii) : bool :=
  Ascii.eqb (fold_char a) (fold_char b).

(** Match the literal [w] at the head of [s], ignoring case; returns the
    matched text and what follows it. *)
Fixpoint literal_ci (w s : string) : option (string * string) :=
  match w with
  | EmptyString => Some (EmptyString, s)
  | String a w' =>
      match s with
      | EmptyString => None
      | String b s' =>
          if eqb_ci a b then
            match literal_ci w' s' with
            | Some (m, rest) => Some (String b m, rest)
            | None => None
            end
          else None
      end
  end.

(** Ordered alternation of literals. *)
Fixpoint alt_ci (ws : list string) (s : string) : option (string * string) :=
  match ws with
  | [] => None
  | w :: ws' =>
      match literal_ci w s with
      | Some r => Some r
      | None => alt_ci ws' s
      end
  end.

(** Greedy [p*]: the longest run of characters satisfying [p]. *)
Fixpoint span (p : ascii -> bool) (s : string) : string * string :=
  match s with
  | EmptyString => (EmptyString, EmptyString)
  | String c s' =>
      if p c then let (m, rest) := span p s' in (String c m, rest)
      else (EmptyString, s)
  end.

(** Greedy [p{0,n}]. *)
Fixpoint span_upto (n : nat) (p : ascii -> bool) (s : string)
  : string * string :=
  match n, s with
  | S k, String c s' =>
      if p c then let (m, rest) := span_upto k p s' in (String c m, rest)
      else (EmptyString, s)
  | _, _ => (EmptyString, s)
  end.

(** [p{n}]: exactly [n] characters satisfying [p]. *)
Fixpoint exactly (n : nat) (p : ascii -> bool) (s : string)
  : option (string * string) :=
  match n with
  | O => Some (EmptyString, s)
  | S k =>
      match s with
      | String c s' =>
          if p c then
            match exactly k p s' with
            | Some (m, rest) => Some (String c m, rest)
            | None => None
            end
          else None
      | EmptyString => None
      end
  end.

Definition head (s : string) : option ascii :=
  match s with EmptyString => None | String c _ => Some c end.

Definition word_at (c : option ascii) : bool :=
  match c with Some a => is_word a | None => false end.

(** [\b] between a previous and a next character. *)
Definition boundary (prev next : option ascii) : bool :=
  xorb (word_at prev) (word_at next).

(** The character before the position reached after reading [m], when
    [prev] is the character before [m]. *)
Fixpoint last_or (prev : option ascii) (m : string) : option ascii :=
  match m with
  | EmptyString => prev
  | String c m' => last_or (Some c) m'
  end.

(** [text.matchAll(p)] with the [g] flag for a pattern that never matches
    the empty string: [match_at prev s] tries the pattern at one position
    ([prev] is the character before it) and returns the length of the
    match and what is kept of it; the scan resumes after each match. *)
Section MatchAll.
Context {A : Type}.
Variable match_at : option ascii -> string -> option (nat * A).

Fixpoint matchAll_from (skip : nat) (prev : option ascii) (s : string)
  : list A :=
  match s with
  | EmptyString => []
  | String c s' =>
      match skip with
      | S k => matchAll_from k (Some c) s'
      | O =>
          match match_at prev s with
          | Some (n, a) => a :: matchAll_from (pred n) (Some c) s'
          | None => matchAll_from O (Some c) s'
          end
      end
  end.

Definition matchAll (s : string) : list A := matchAll_from 0 None s.
End MatchAll.

End Regex.
Import Regex.

Definition dollar_sign : ascii := "$"%char.
Definition comma : ascii := ","%char.
Definition dot : ascii := "."%char.

(** [(?:,\d{3})*], greedy. *)
Fixpoint comma_groups (fuel : nat) (s : string) : string * string :=
  match fuel with
  | O => (EmptyString, s)
  | S k =>
      match s with
      | String c s' =>
          if Ascii.eqb c comma then
            match exactly 3 is_digit s' with
            | Some (d, rest) =>
                let (m, rest') := comma_groups k rest in
                (String c (d ++ m), rest')
            | None => (EmptyString, s)
            end
          else (EmptyString, s)
      | EmptyString => (EmptyString, s)
      end
  end.

(** [(?:\.\d{2})?]. *)
Definition cents_opt (s : string) : string * string :=
  match s with
  | String c s' =>
      if Ascii.eqb c dot then
        match exactly 2 is_digit s' with
        | Some (d, rest) => (String c d, rest)
        | None => (EmptyString, s)
        end
      else (EmptyString, s)
  | EmptyString => (EmptyString, s)
  end.

(** The capture group of [dollarPattern]:
    [\d{1,3}(?:,\d{3})*(?:\.\d{2})?|\d+(?:\.\d{2})?].  Nothing follows the
    group, so the first alternative that matches is kept. *)
Definition dollar_group (s : string) : option string :=
  let first :=
    match span_upto 3 is_digit s with
    | (EmptyString, _) => None
    | (d, rest) =>
        let (g, rest') := comma_groups (length rest) rest in
        let (c, _) := cents_opt rest' in
        Some (d ++ g ++ c)
    end in
  match first with
  | Some m => Some m
  | None =>
      match span is_digit s with
      | (EmptyString, _) => None
      | (d, rest) => let (c, _) := cents_opt rest in Some (d ++ c)
      end
  end.

(** [dollarPattern = /\$(...)/g] at one position; keeps capture group 1. *)
Definition dollarPattern (prev : option ascii) (s : string)
  : option (nat * string) :=
  match s with
  | String c s' =>
      if Ascii.eqb c dollar_sign then
        match dollar_group s' with
        | Some g => Some (S (length g), g)
        | None => None
        end
      else None
  | EmptyString => None
  end.

(** An ordered alternation of literals followed by [\b]: the first
    alternative that matches and ends at a word boundary is kept. *)
Fixpoint alt_ci_boundary (ws : list string) (prev : option ascii) (s : string)
  : option (nat * string) :=
  match ws with
  | [] => None
  | w :: ws' =>
      match literal_ci w s with
      | Some (m, rest) =>
          if boundary (last_or prev m) (head rest)
          then Some (length m, m)
          else alt_ci_boundary ws' prev s
      | None => alt_ci_boundary ws' prev s
      end
  end.

(** [frequencyPattern = /\b(weekly|biweekly|monthly)\b/gi] at one position;
    keeps the whole match. *)
Definition frequencyPattern (prev : option ascii) (s : string)
  : option (nat * string) :=
  if boundary prev (head s)
  then alt_ci_boundary ["weekly"; "biweekly"; "monthly"] prev s
  else None.

(** [termPattern =
    /(?:for|over)\s+(\d+)\s+(week|month|payment|installment)/gi] at one
    position; keeps capture group 1. *)
Definition termPattern (prev : option ascii) (s : string)
  : option (nat * string) :=
  match alt_ci ["for"; "over"] s with
  | Some (kw, r1) =>
      match span is_space r1 with
      | (EmptyString, _) => None
      | (sp1, r2) =>
          match span is_digit r2 with
          | (EmptyString, _) => None
          | (digits, r3) =>
              match span is_space r3 with
              | (EmptyString, _) => None
              | (sp2, r4) =>
                  match alt_ci ["week"; "month"; "payment"; "installment"] r4 with
                  | Some (unit_, _) =>
                      Some (length kw + length sp1 + length digits
                            + length sp2 + length unit_, digits)%nat
                  | None => None
                  end
              end
          end
      end
  | None => None
  end.

Definition digit_value (c : ascii) : Z := Z.of_nat (nat_of_ascii c) - 48.

(** The value of a run of decimal digits. *)
Fixpoint digits_value (acc : Z) (s : string) : Z :=
  match s with
  | EmptyString => acc
  | String c s' => digits_value (10 * acc + digit_value c) s'
  end.

(** [parseInt] on a run of decimal digits. *)
Definition parseInt (s : string) : Z := digits_value 0 s.

(** [parseFloat] on digits with an optional fraction: the decimal number
    the string denotes.  The number JavaScript holds is [double] of it. *)
Definition parseFloat (s : string) : Q :=
  let (ip, rest) := span is_digit s in
  match rest with
  | String c fr =>
      if Ascii.eqb c dot then
        let (fp, _) := span is_digit fr in
        (inject_Z (digits_value 0 ip)
         + inject_Z (digits_value 0 fp) / inject_Z (10 ^ Z.of_nat (length fp)))%Q
      else inject_Z (digits_value 0 ip)
  | EmptyString => inject_Z (digits_value 0 ip)
  end.

(** [s.replace(/,/g, '')]. *)
Fixpoint remove_commas (s : string) : string :=
  match s with
  | EmptyString => EmptyString
  | String c s' =>
      if Ascii.eqb c comma then remove_commas s'
      else String c (remove_commas s')
  end.

Record ExtractedPlan := mkExtractedPlan {
  extracted_frequency : string;
  extracted_amount : Q;
  extracted_termLength : Z
}.

Record Extraction := mkExtraction {
  found : bool;
  plan : option ExtractedPlan
}.

Definition extractPaymentPlan (text : string) (debtAmount : Z) : Extraction :=
  let dollarMatches := matchAll dollarPattern text in
  let frequencyMatches := matchAll frequencyPattern text in
  let termMatches := matchAll termPattern text in
  match dollarMatches, frequencyMatches with
  | d0 :: _, f0 :: _ =>
      let amountStr := remove_commas d0 in
      let amount := parseFloat amountStr in
      let frequency := toLowerCase f0 in
      let termLength :=
        match termMatches with
        | t0 :: _ => parseInt t0
        | [] => Math_ceil (double (num debtAmount / double amount))
        end in
      {| found := true;
         plan := Some {| extracted_frequency := frequency;
                         extracted_amount := amount;
                         extracted_termLength := termLength |} |}
  | _, _ => {| found := false; plan := None |}
  end.

(** ** Branch conditions of the entry points *)

(** The guard under which [evaluateAndNegotiate] reaches its final [return]
    (the proposal is passed through): the frequency is allowed and none of
    the four counter-offer conditions holds. *)
Definition evaluate_accepts (p : Proposal) (debtAmount : Z) : bool :=
  let amount := proposal_amount p in
  let termLength := proposal_termLength p in
  let absoluteMinPayment :=
    getMinimumPayment (proposal_frequency p) debtAmount in
  array_includes allowedFrequencies (proposal_frequency p)
  && negb (amount * termLength <? debtAmount)
  && negb (amount <? absoluteMinPayment)
  && (amount * termLength =? debtAmount).

(** The hardship test of [suggestPlan]. *)
Definition suggest_hardship (userSituation : string) : bool :=
  includes (toLowerCase userSituation) "hardship"
  || includes (toLowerCase userSituation) "laid off"
  || includes (toLowerCase userSituation) "medical".

(** The guard under which [suggestPlan] reaches its final [return]. *)
Definition suggest_accepts
    (p : Proposal) (debtAmount : Z) (userSituation : string) (stage : Z)
  : bool :=
  let amount := proposal_amount p in
  let termLength := proposal_termLength p in
  let absoluteMinPayment :=
    getMinimumPayment (proposal_frequency p) debtAmount in
  array_includes allowedFrequencies (proposal_frequency p)
  && (amount * termLength =? debtAmount)
  && negb ((amount <? absoluteMinPayment) && (stage <? 2))
  && negb (suggest_hardship userSituation && (stage <? 2)).

(** One call of the engine by the orchestrator. *)
Inductive EngineCall :=
| CallEvaluate (p : Proposal) (debtAmount : Z) (userSituation : string)
               (response : Response)
| CallSuggest (p : Proposal) (debtAmount : Z) (userSituation : string)
              (message : string)
| CallFinalize (plan : PaymentPlan) (userDetails message : string).

Definition run_call (c : EngineCall) : M ChatMessage :=
  match c with
  | CallEvaluate p d s r => evaluateAndNegotiate p d s r
  | CallSuggest p d s m => suggestPlan p d s m
  | CallFinalize p u m => finalizePlan p u m
  end.

(** The states a conversation can be in: any number of engine calls after
    the initial state. *)
Inductive reachable : State -> Prop :=
| reachable_initial : reachable initial_state
| reachable_call st c : reachable st -> reachable (snd (run_call c st)).

(** ** What the extractor looks for, in words *)

(** ASCII case folding of a whole string. *)
Fixpoint fold_case (s : string) : string :=
  match s with
  | EmptyString => EmptyString
  | String c s' => String (fold_char c) (fold_case s')
  end.

Fixpoint all_chars (p : ascii -> bool) (s : string) : bool :=
  match s with
  | EmptyString => true
  | String c s' => p c && all_chars p s'
  end.

Definition last_char (s : string) : option ascii := last_or None s.

(** A dollar-amount token: a dollar sign directly followed by a digit (the
    digits, separators and cents that may follow only change the amount). *)
Definition has_dollar_token (text : string) : Prop :=
  exists pre d post,
    text = pre ++ String dollar_sign (String d post) /\ is_digit d = true.

(** A frequency keyword: one of the three words, in any letter case,
    standing as a word of its own. *)
Definition frequency_keyword (w : string) : Prop :=
  fold_case w = "weekly" \/ fold_case w = "biweekly"
  \/ fold_case w = "monthly".

Definition has_frequency_keyword (text : string) : Prop :=
  exists pre w post,
    text = pre ++ w ++ post
    /\ frequency_keyword w
    /\ word_at (last_char pre) = false
    /\ word_at (head post) = false.

(** A term-length phrase: "for" or "over", white space, a number, white
    space, then a word beginning with week, month, payment or installment. *)
Definition has_term_phrase (text : string) : Prop :=
  exists pre kw sp1 digits sp2 unit_ post,
    text = pre ++ kw ++ sp1 ++ digits ++ sp2 ++ unit_ ++ post
    /\ (fold_case kw = "for" \/ fold_case kw = "over")
    /\ sp1 <> "" /\ all_chars is_space sp1 = true
    /\ digits <> "" /\ all_chars is_digit digits = true
    /\ sp2 <> "" /\ all_chars is_space sp2 = true
    /\ (fold_case unit_ = "week" \/ fold_case unit_ = "month"
        \/ fold_case unit_ = "payment" \/ fold_case unit_ = "installment").

(** A greedy run of [p] ends at [r]: [r] is empty or starts with a
    character that fails [p]. *)
Definition stops (p : ascii -> bool) (r : string) : Prop :=
  match r with EmptyString => True | String c _ => p c = false end.

(** ** The interceptor of implicit offers *)

Record Interception := mkInterception {
  shouldIntercept : bool;
  interceptedResponse : option ChatMessage
}.

(** The whole number an extracted amount stands for, when it has no cents. *)
Definition whole (q : Q) : option Z :=
  let r := Qred q in
  if Zpos (Qden r) =? 1 then Some (Qnum r) else None.

(** [interceptImplicitPaymentOffers(message)].  The extracted plan goes to
    [suggestPlan] with the stored debt, an empty situation and the text
    itself as message.  An extracted amount with cents leaves the whole
    numbers of the engine model; the model then answers [None]. *)
Definition interceptImplicitPaymentOffers (message : string) (st : State)
  : option (Interception * State) :=
  let extracted := extractPaymentPlan message (currentDebtAmount st) in
  match found extracted, plan extracted with
  | true, Some p =>
      match whole (extracted_amount p) with
      | Some a =>
          let (r, st') :=
            suggestPlan
              (mkProposal a (extracted_frequency p) (extracted_termLength p))
              (currentDebtAmount st) "" message st in
          Some ({| shouldIntercept := true; interceptedResponse := Some r |},
                st')
      | None => None
      end
  | _, _ =>
      Some ({| shouldIntercept := false; interceptedResponse := None |}, st)
  end.

(** ** ChatBubble: the payment link

    [renderPaymentLink] of [ChatBubble] yields the anchor element for a
    terminal agreement with a non-empty link and [null] otherwise; the model
    keeps the [href] of the anchor. *)
Definition renderPaymentLink (m : ChatMessage) : option string :=
  match displayType m, displayData m with
  | finalPlan, Final fp =>
      match paymentLink fp with
      | Some l => if truthy l then Some ("https://" ++ l) else None
      | None => None
      end
  | _, _ => None
  end.

(** ** sendMessage: the tool-call loop

    The loop of [sendMessage] that serves one batch of tool calls.  The
    arguments of a call are taken as [JSON.parse] delivers them for a
    well-formed call (the two optional strings may be absent); the output of
    a call is kept as the result itself, before [JSON.stringify]. *)

Record ToolArguments := mkToolArguments {
  args_userProposal : Proposal;
  args_debtAmount : Z;
  args_userSituation : option string;
  args_response : Response;
  args_proposedPlan : Proposal;
  args_message : string;
  args_plan : PaymentPlan;
  args_userDetails : option string
}.

Record ToolCall := mkToolCall {
  toolCall_id : string;
  function_name : string;
  function_arguments : ToolArguments
}.

Record ToolOutput := mkToolOutput {
  tool_call_id : string;
  output : option ChatMessage
}.

(** [s || ""] on a string that may be undefined. *)
Definition or_empty (s : option string) : string :=
  match s with
  | Some x => or_else x ""
  | None => ""
  end.

(** The body of the loop for one tool call: the new [response] and the
    output pushed for the call. *)
Definition handleToolCall (toolCall : ToolCall) (response : ChatMessage)
  : M (ChatMessage * ToolOutput) :=
  let functionName := function_name toolCall in
  let args := function_arguments toolCall in
  if String.eqb functionName "evaluateAndNegotiate" then
    result <- evaluateAndNegotiate (args_userProposal args)
                (args_debtAmount args) (or_empty (args_userSituation args))
                (args_response args) ;;
    ret (result,
         {| tool_call_id := toolCall_id toolCall; output := Some result |})
  else if String.eqb functionName "suggestPlan" then
    result <- suggestPlan (args_proposedPlan args) (args_debtAmount args)
                (or_empty (args_userSituation args)) (args_message args) ;;
    ret (result,
         {| tool_call_id := toolCall_id toolCall; output := Some result |})
  else if String.eqb functionName "finalizePlan" then
    result <- finalizePlan (args_plan args)
                (or_empty (args_userDetails args)) (args_message args) ;;
    ret (result,
         {| tool_call_id := toolCall_id toolCall; output := Some result |})
  else
    ret (response,
         {| tool_call_id := toolCall_id toolCall; output := None |}).

(** [for (const toolCall of toolCalls) { ... toolOutputs.push(...) }]. *)
Fixpoint handleToolCalls (toolCalls : list ToolCall) (response : ChatMessage)
    (toolOutputs : list ToolOutput) : M (ChatMessage * list ToolOutput) :=
  match toolCalls with
  | [] => ret (response, toolOutputs)
  | toolCall :: rest =>
      step <- handleToolCall toolCall response ;;
      handleToolCalls rest (fst step) (toolOutputs ++ [snd step])
  end.

(** The response [sendMessage] starts a turn with. *)
Definition empty_response : ChatMessage :=
  {| message := ""; isBot := true; displayType := text;
     displayData := NoData |}.

(** ** Notions used to state further properties *)

(** The hardship test of [evaluateAndNegotiate]. *)
Definition evaluate_hardship (userSituation : string) : bool :=
  includes (toLowerCase userSituation) "hardship"
  || includes (toLowerCase userSituation) "laid off"
  || includes (toLowerCase userSituation) "medical"
  || includes (toLowerCase userSituation) "difficult".

(** The frequency a response shows for a requested one: the request when it
    is allowed, monthly otherwise. *)
Definition shown_frequency (freq : string) : string :=
  if array_includes allowedFrequencies freq then freq else "monthly".

(** The response of a negotiating entry point, whichever branch produced
    it: the shown plan and the facts every branch shares. *)
Definition negotiation_response
    (r : ChatMessage) (freq : string) (a t debt : Z) : Prop :=
  exists pl,
    displayData r = Plans [pl]
    /\ displayType r = paymentPlans
    /\ isBot r = true
    /\ totalAmount pl = debt
    /\ frequency pl = shown_frequency freq
    /\ (0 < debt -> 0 < a ->
        0 < termLength pl
        /\ 0 <= amount pl
        /\ amount pl * termLength pl <= debt
        /\ debt < (amount pl + 1) * termLength pl).

(** A function name that the loop does not serve. *)
Definition unknown_function (name : string) : Prop :=
  name <> "evaluateAndNegotiate" /\ name <> "suggestPlan"
  /\ name <> "finalizePlan".

(** A call of one of the two negotiating functions. *)
Definition negotiating_call (c : ToolCall) : Prop :=
  function_name c = "evaluateAndNegotiate" \/ function_name c = "suggestPlan".

(** * Properties *)

(** ** Rounding of quotients and scaled amounts *)

Lemma Math_floor_div (a b : Z) : Math_floor (num a / num b) = a / b.
Proof. unfold Math_floor, num. symmetry. apply Zdiv_Qdiv. Qed.

Lemma Math_ceil_div (a b : Z) : Math_ceil (num a / num b) = - ((- a) / b).
Proof.
  unfold Math_ceil, num, Qceiling. f_equal.
  rewrite Zdiv_Qdiv. apply Qfloor_comp.
  rewrite inject_Z_opp. unfold Qdiv. ring.
Qed.

Lemma Math_ceil_scale (a n : Z) (d : positive) :
  Math_ceil (num a * (n # d)) = - ((- (a * n)) / Zpos d).
Proof. reflexivity. Qed.

(** [c = ceil (a / b)] is the least whole number with [a <= c * b]. *)
Lemma cdiv_bounds (a b : Z) :
  0 < b -> (- ((- a) / b) - 1) * b < a <= - ((- a) / b) * b.
Proof.
  intros Hb.
  pose proof (Z.div_mod (- a) b ltac:(lia)) as Hdm.
  pose proof (Z.mod_pos_bound (- a) b Hb) as Hm.
  nia.
Qed.

Lemma cdiv_unique (a b c : Z) :
  0 < b -> (c - 1) * b < a <= c * b -> - ((- a) / b) = c.
Proof.
  intros Hb Hc. pose proof (cdiv_bounds a b Hb) as H. nia.
Qed.

Lemma cdiv_pos (a b : Z) : 0 < a -> 0 < b -> 0 < - ((- a) / b).
Proof.
  intros Ha Hb. pose proof (cdiv_bounds a b Hb) as H. nia.
Qed.

Lemma fdiv_bounds (a b : Z) : 0 < b -> a / b * b <= a < (a / b + 1) * b.
Proof.
  intros Hb.
  pose proof (Z.div_mod a b ltac:(lia)) as Hdm.
  pose proof (Z.mod_pos_bound a b Hb) as Hm.
  nia.
Qed.

(** ** Doubles

    [double q] is positive for a positive [q], lies within [q / 2^53] of
    it, keeps every whole number below 2^53, and sees its argument only up
    to equality of rationals.  Hence the quotient of two whole numbers
    below 2^53, once divided in doubles and rounded up, is the exact
    ceiling. *)

Lemma round_half_even_error (x : Q) :
  (Qabs (inject_Z (round_half_even x) - x) <= 1 # 2)%Q.
Proof.
  unfold round_half_even.
  pose proof (Qfloor_le x) as Hlo. pose proof (Qlt_floor x) as Hhi.
  rewrite inject_Z_plus in Hhi.
  set (k := Qfloor x) in *.
  assert (Hup : (inject_Z (k + 1) == inject_Z k + 1)%Q)
    by (rewrite inject_Z_plus; reflexivity).
  change (inject_Z 1) with 1%Q in Hhi.
  apply Qabs_Qle_condition.
  destruct (x - inject_Z k ?= 1 # 2)%Q eqn:E.
  - apply Qeq_alt in E. destruct (Z.even k); [|rewrite Hup]; lra.
  - apply Qlt_alt in E. lra.
  - apply Qgt_alt in E. rewrite Hup. lra.
Qed.


Lemma round_half_even_lower (x : Q) (z : Z) :
  (inject_Z z <= x)%Q -> z <= round_half_even x.
Proof.
  intros Hx. unfold round_half_even.
  assert (Hk : z <= Qfloor x).
  { rewrite <- (Qfloor_Z z). now apply Qfloor_resp_le. }
  destruct (x - inject_Z (Qfloor x) ?= 1 # 2)%Q; [destruct (Z.even _)| |]; lia.
Qed.

Lemma two_power_pos (e : Z) : (0 < 2 ^ e)%Q.
Proof. apply Qpower_0_lt. reflexivity. Qed.

Lemma two_power_pred (e : Z) : (2 ^ (e - 1) == 2 ^ e / 2)%Q.
Proof.
  unfold Z.sub. rewrite Qpower_plus by discriminate.
  change (2 ^ (-1))%Q with (/ 2)%Q. reflexivity.
Qed.

Lemma two_power_whole (z : Z) : 0 <= z -> (2 ^ z == inject_Z (2 ^ z))%Q.
Proof. intros Hz. symmetry. now apply (Zpower_Qpower 2 z). Qed.

(** Normalisation: the scaled value is at least [2^52]. *)
Lemma binade_lower (q : Q) :
  (0 < q)%Q -> (2 ^ 52 <= q / 2 ^ binade q)%Q.
Proof.
  intros Hq. unfold binade.
  set (n := Qnum q). set (d := Zpos (Qden q)).
  set (e0 := Z.log2 n - Z.log2 d - 52).
  destruct (Qle_bool (2 ^ 52) (q / 2 ^ e0)) eqn:E.
  - now apply Qle_bool_iff.
  - assert (Hn : 0 < n) by (destruct q as [qn qd]; unfold Qlt in Hq; simpl in *; lia).
    assert (Hd : 0 < d) by reflexivity.
    destruct (Z.log2_spec n Hn) as [Hn1 _].
    destruct (Z.log2_spec d Hd) as [_ Hd2].
    pose proof (Z.log2_nonneg n) as Hln. pose proof (Z.log2_nonneg d) as Hld.
    rewrite two_power_pred.
    replace e0 with (Z.log2 n + (- Z.log2 d + - 52)) by (unfold e0; lia).
    rewrite !Qpower_plus by discriminate.
    rewrite !Qpower_opp.
    rewrite (two_power_whole _ Hln), (two_power_whole _ Hld).
    assert (Hq' : (q == inject_Z n / inject_Z d)%Q).
    { destruct q as [qn qd]. unfold n, d. simpl. apply Qmake_Qdiv. }
    rewrite Hq'.
    set (A := 2 ^ Z.log2 n) in *. set (B := 2 ^ Z.log2 d) in *.
    assert (HA : 0 < A) by (apply Z.pow_pos_nonneg; lia).
    assert (HB : 0 < B) by (apply Z.pow_pos_nonneg; lia).
    assert (HdB : d < 2 * B).
    { unfold B. replace (Z.succ (Z.log2 d)) with (Z.log2 d + 1) in Hd2 by lia.
      rewrite Z.pow_add_r in Hd2 by lia. lia. }
    assert (HAD : A * d <= 2 * n * B) by nia.
    assert (HA' : (0 < inject_Z A)%Q) by (rewrite (Zlt_Qlt 0 A) in HA; exact HA).
    assert (HB' : (0 < inject_Z B)%Q) by (rewrite (Zlt_Qlt 0 B) in HB; exact HB).
    assert (Hd' : (0 < inject_Z d)%Q) by (rewrite (Zlt_Qlt 0 d) in Hd; exact Hd).
    assert (HAD' : (inject_Z A * inject_Z d <= 2 * inject_Z n * inject_Z B)%Q).
    { rewrite <- !inject_Z_mult. change 2%Q with (inject_Z 2).
      rewrite <- !inject_Z_mult. rewrite <- Zle_Qle. lia. }
    assert (E1 : (inject_Z n / inject_Z d
                  / (inject_Z A * (/ inject_Z B * / 2 ^ 52) / 2)
                  == 2 ^ 52 * (2 * inject_Z n * inject_Z B)
                     / (inject_Z A * inject_Z d))%Q).
    { field. repeat split; lra. }
    rewrite E1.
    apply Qle_shift_div_l; [nra|].
    assert (H52 : (0 < 2 ^ 52)%Q) by apply two_power_pos.
    nra.
Qed.

Lemma inject_Z_pos (z : Z) : 0 < z -> (0 < inject_Z z)%Q.
Proof. intros H. rewrite (Zlt_Qlt 0 z) in H. exact H. Qed.

Lemma inject_Z_minus (x y : Z) : inject_Z (x - y) = (inject_Z x - inject_Z y)%Q.
Proof. unfold Z.sub, Qminus. now rewrite inject_Z_plus, inject_Z_opp. Qed.

Lemma double_pos_spec (q : Q) :
  (0 < q)%Q ->
  (0 < double_pos q
   /\ (double_pos q - q) * 2 ^ 53 <= q
   /\ (q - double_pos q) * 2 ^ 53 <= q)%Q.
Proof.
  intros Hq. unfold double_pos.
  pose proof (binade_lower q Hq) as Hx.
  pose proof (two_power_pos (binade q)) as HP.
  set (P := (2 ^ binade q)%Q) in *.
  set (x := (q / P)%Q) in *.
  pose proof (round_half_even_error x) as Herr.
  apply Qabs_Qle_condition in Herr. destruct Herr as [Hlo Hhi].
  assert (Hm : 2 ^ 52 <= round_half_even x).
  { apply round_half_even_lower. now rewrite <- (two_power_whole 52). }
  set (m := round_half_even x) in *.
  assert (Hm' : (0 < inject_Z m)%Q) by (apply inject_Z_pos; lia).
  assert (Hq' : (q == x * P)%Q) by (unfold x; field; lra).
  change (2 ^ 53)%Q with (2 * 2 ^ 52)%Q.
  set (u := (2 ^ 52)%Q) in *.
  assert (Hu : (0 < u)%Q) by apply two_power_pos.
  split; [nra|].
  assert (H1 : ((inject_Z m - x) * (2 * u) <= x)%Q) by nra.
  assert (H2 : ((x - inject_Z m) * (2 * u) <= x)%Q) by nra.
  split.
  - setoid_replace ((inject_Z m * P - q) * (2 * u))%Q
      with ((inject_Z m - x) * (2 * u) * P)%Q by (rewrite Hq'; ring).
    rewrite Hq'. apply Qmult_le_compat_r; lra.
  - setoid_replace ((q - inject_Z m * P) * (2 * u))%Q
      with ((x - inject_Z m) * (2 * u) * P)%Q by (rewrite Hq'; ring).
    rewrite Hq'. apply Qmult_le_compat_r; lra.
Qed.

Lemma Qred_pos (q : Q) : (0 < q)%Q -> exists p, Qnum (Qred q) = Zpos p.
Proof.
  intros Hq. assert (H : (0 < Qred q)%Q) by now rewrite Qred_correct.
  destruct (Qred q) as [[|p|p] d]; unfold Qlt in H; simpl in H; try lia.
  now exists p.
Qed.

Lemma double_comp (q q' : Q) : (q == q')%Q -> double q = double q'.
Proof. intros H. unfold double. now rewrite (Qred_complete _ _ H). Qed.

Lemma double_spec (q : Q) :
  (0 < q)%Q ->
  (0 < double q
   /\ (double q - q) * 2 ^ 53 <= q
   /\ (q - double q) * 2 ^ 53 <= q)%Q.
Proof.
  intros Hq. unfold double.
  destruct (Qred_pos q Hq) as [p Hp]. rewrite Hp.
  assert (Hr : (0 < Qred q)%Q) by now rewrite Qred_correct.
  destruct (double_pos_spec _ Hr) as (H1 & H2 & H3).
  pose proof (Qred_correct q) as Hrq.
  set (y := double_pos (Qred q)) in *. set (r := Qred q) in *.
  rewrite Hrq in H2, H3. auto.
Qed.



Lemma Qceiling_unique (y : Q) (c : Z) :
  (inject_Z c - 1 < y)%Q -> (y <= inject_Z c)%Q -> Qceiling y = c.
Proof.
  intros Hlo Hhi.
  pose proof (Qle_ceiling y) as H1. pose proof (Qceiling_lt y) as H2.
  assert (Hc : Qceiling y <= c).
  { rewrite <- (Qceiling_Z c). now apply Qceiling_resp_le. }
  assert (Hc' : c - 1 < Qceiling y).
  { rewrite (Zlt_Qlt (c - 1)), inject_Z_minus.
    change (inject_Z 1) with 1%Q. lra. }
  lia.
Qed.


Lemma double_positive (q : Q) : (0 < q)%Q -> (0 < double q)%Q.
Proof. intros Hq. now destruct (double_spec q Hq). Qed.

Lemma Qceiling_pos (q : Q) : (0 < q)%Q -> 0 < Qceiling q.
Proof.
  intros Hq. pose proof (Qle_ceiling q) as H.
  rewrite Zlt_Qlt. change (inject_Z 0) with 0%Q. lra.
Qed.

(** ** The rate table *)

Lemma rate_cases (frequency : string) :
  num_or (lookup minRates frequency) 0.08 =
    if String.eqb frequency "monthly" then 0.08%Q
    else if String.eqb frequency "biweekly" then 0.04%Q
    else if String.eqb frequency "weekly" then 0.02%Q
    else 0.08%Q.
Proof.
  unfold minRates, lookup.
  destruct (String.eqb frequency "monthly"); [reflexivity|].
  destruct (String.eqb frequency "biweekly"); [reflexivity|].
  destruct (String.eqb frequency "weekly"); reflexivity.
Qed.

Lemma rate_nonneg (frequency : string) :
  (0 <= num_or (lookup minRates frequency) 0.08)%Q.
Proof.
  rewrite rate_cases.
  repeat match goal with |- context [if ?b then _ else _] => destruct b end;
    discriminate.
Qed.

Lemma getMinimumPayment_pos (frequency : string) (debtAmount : Z) :
  0 < debtAmount -> 0 < getMinimumPayment frequency debtAmount.
Proof.
  intros Hd. unfold getMinimumPayment. rewrite rate_cases.
  repeat match goal with |- context [if ?b then _ else _] => destruct b end;
    rewrite Math_ceil_scale; apply cdiv_pos; lia.
Qed.



Lemma getMinimumPayment_le (frequency : string) (debt1 debt2 : Z) :
  debt1 <= debt2 ->
  getMinimumPayment frequency debt1 <= getMinimumPayment frequency debt2.
Proof.
  intros Hle. unfold getMinimumPayment, Math_ceil, num.
  apply Qceiling_resp_le, Qmult_le_compat_r.
  - now rewrite <- Zle_Qle.
  - apply rate_nonneg.
Qed.

(** ** The rate table and the prototype chain *)

(** A string that names a member of [Object.prototype] is none of the
    three keys, and its minimum payment is [NaN]. *)
Lemma inherited_member_minimum (frequency : string) (debtAmount : Z) :
  array_includes WithPrototype.Object_prototype frequency = true ->
  WithPrototype.getMinimumPayment frequency debtAmount = WithPrototype.NaN.
Proof.
  unfold array_includes. intros H. apply existsb_exists in H.
  destruct H as (name & Hin & Heq). apply String.eqb_eq in Heq. subst name.
  unfold WithPrototype.Object_prototype in Hin. cbn [In] in Hin.
  repeat (destruct Hin as [<-|Hin]; [reflexivity|]).
  contradiction.
Qed.

(** On every other string the minimum payment is the whole number that
    [getMinimumPayment] gives. *)
Lemma own_member_minimum (frequency : string) (debtAmount : Z) :
  array_includes WithPrototype.Object_prototype frequency = false ->
  WithPrototype.getMinimumPayment frequency debtAmount
  = WithPrototype.Whole (getMinimumPayment frequency debtAmount).
Proof.
  intros H. unfold WithPrototype.getMinimumPayment, WithPrototype.get,
              getMinimumPayment.
  destruct (lookup minRates frequency) as [rate|]; [reflexivity|].
  now rewrite H.
Qed.

(** C7.  The fallback of [getMinimumPayment] misses the names that
    [minRates] inherits: for "constructor", "toString", "__proto__" and the
    other members of [Object.prototype] the lookup finds a function or an
    object, [||] keeps it, and the result is [NaN] for every debt, not the
    monthly value.  At a debt of 2400 the monthly value is 192. *)
Theorem getMinimumPayment_inherited_member (debtAmount : Z) :
  Forall
    (fun name =>
       WithPrototype.getMinimumPayment name debtAmount = WithPrototype.NaN)
    WithPrototype.Object_prototype
  /\ WithPrototype.getMinimumPayment "constructor" 2400 = WithPrototype.NaN
  /\ WithPrototype.getMinimumPayment "monthly" 2400 = WithPrototype.Whole 192
  /\ WithPrototype.getMinimumPayment "constructor" 2400
     <> WithPrototype.getMinimumPayment "monthly" 2400.
Proof.
  split; [|split; [reflexivity|split; [reflexivity|discriminate]]].
  apply Forall_forall. intros name Hin.
  apply inherited_member_minimum.
  unfold array_includes. apply existsb_exists. exists name.
  split; [exact Hin|apply String.eqb_refl].
Qed.

(** C8.  On a name that [minRates] inherits the minimum payment is [NaN]
    for every debt, and [NaN <= NaN] is false: for the frequency
    "constructor" the minimum payments of two debts are never in order, in
    particular not those of 1000 and 2400. *)
Theorem getMinimumPayment_inherited_not_monotone (debt1 debt2 : Z) :
  WithPrototype.le (WithPrototype.getMinimumPayment "constructor" debt1)
                   (WithPrototype.getMinimumPayment "constructor" debt2)
  = false
  /\ 1000 <= 2400
  /\ WithPrototype.le (WithPrototype.getMinimumPayment "constructor" 1000)
                      (WithPrototype.getMinimumPayment "constructor" 2400)
     = false.
Proof.
  split; [reflexivity|]. split; [lia|reflexivity].
Qed.

(** ** The counter-offer builder *)

Lemma createCounterProposal_data
    (systemMessage frequency : string) (termLength totalAmount : Z)
    (userMessage : string) (st : State) :
  displayData
    (fst (createCounterProposal systemMessage frequency termLength
            totalAmount userMessage st))
  = Plans [ {| frequency := frequency;
               amount := totalAmount / termLength;
               termLength := termLength;
               totalAmount := totalAmount |} ]
  /\ displayType
       (fst (createCounterProposal systemMessage frequency termLength
               totalAmount userMessage st))
     = paymentPlans.
Proof.
  unfold createCounterProposal, bind, ret, incrStage.
  cbn [fst displayData displayType].
  now rewrite Math_floor_div.
Qed.

Lemma createCounterProposal_state
    (systemMessage frequency : string) (termLength totalAmount : Z)
    (userMessage : string) (st : State) :
  snd (createCounterProposal systemMessage frequency termLength
         totalAmount userMessage st)
  = {| currentDebtAmount := currentDebtAmount st;
       negotiationStage := negotiationStage st + 1 |}.
Proof. reflexivity. Qed.

(** C10.  A response of the counter-offer builder carries exactly one plan;
    its total is the [totalAmount] argument and its displayed amount is
    [floor (totalAmount / termLength)].  For a positive term length the
    displayed product never exceeds the total, and it is strictly below the
    total exactly when the term length does not divide the total; the
    remainder goes to the final installment
    [totalAmount - amount * (termLength - 1)]. *)
Theorem counter_offer_plan
    (systemMessage freq : string) (term total : Z)
    (userMessage : string) (st : State) :
  0 < term ->
  exists p : PaymentPlan,
    displayData
      (fst (createCounterProposal systemMessage freq term total
              userMessage st)) = Plans [p]
    /\ totalAmount p = total
    /\ termLength p = term
    /\ amount p = Math_floor (num total / num term)
    /\ amount p * termLength p <= totalAmount p
    /\ (amount p * termLength p < totalAmount p <-> ~ (term | total))
    /\ (let finalPayment := total - amount p * (term - 1) in
        amount p * (term - 1) + finalPayment = total
        /\ amount p <= finalPayment
        /\ (amount p < finalPayment <-> ~ (term | total))).
Proof.
  intros Hpos.
  destruct (createCounterProposal_data systemMessage freq term total
              userMessage st) as [Hdata _].
  eexists. split; [exact Hdata|].
  cbn [totalAmount termLength amount].
  rewrite Math_floor_div.
  pose proof (fdiv_bounds total term Hpos) as Hb.
  assert (Hdiv : total / term * term < total <-> ~ (term | total)).
  { split.
    - intros Hlt [k Hk]. subst total.
      rewrite Z.div_mul in Hlt by lia. lia.
    - intros Hnd.
      assert (total / term * term <> total).
      { intros Heq. apply Hnd. exists (total / term). lia. }
      lia. }
  repeat split; try tauto; try lia.
  - intros H. apply Hdiv. lia.
  - intros H. apply Hdiv in H. lia.
Qed.

Lemma counter_offer_plan_witness :
  0 < 7
  /\ exists p : PaymentPlan,
       displayData
         (fst (createCounterProposal "sys" "weekly" 7 100 "" initial_state))
       = Plans [p]
       /\ totalAmount p = 100
       /\ termLength p = 7
       /\ amount p = Math_floor (num 100 / num 7)
       /\ amount p * termLength p <= totalAmount p
       /\ (amount p * termLength p < totalAmount p <-> ~ (7 | 100))
       /\ (let finalPayment := 100 - amount p * (7 - 1) in
           amount p * (7 - 1) + finalPayment = 100
           /\ amount p <= finalPayment
           /\ (amount p < finalPayment <-> ~ (7 | 100))).
Proof.
  split; [lia|].
  apply (counter_offer_plan "sys" "weekly" 7 100 "" initial_state). lia.
Defined.

(** ** Effect of the entry points on the stage counter *)

Ltac case_ifs :=
  repeat match goal with
         | |- context [if ?b then _ else _] => destruct b eqn:?
         end.

Lemma evaluateAndNegotiate_state
    (p : Proposal) (debtAmount : Z) (userSituation : string)
    (response : Response) (st : State) :
  snd (evaluateAndNegotiate p debtAmount userSituation response st)
  = {| currentDebtAmount := currentDebtAmount st;
       negotiationStage := negotiationStage st + 1 |}.
Proof.
  unfold evaluateAndNegotiate. cbv zeta.
  case_ifs; reflexivity.
Qed.

Lemma suggestPlan_state
    (p : Proposal) (debtAmount : Z) (userSituation msg : string)
    (st : State) :
  snd (suggestPlan p debtAmount userSituation msg st)
  = {| currentDebtAmount := currentDebtAmount st;
       negotiationStage := negotiationStage st + 1 |}.
Proof.
  unfold suggestPlan. cbv zeta.
  destruct (negb (array_includes allowedFrequencies (proposal_frequency p)));
    [reflexivity|].
  destruct (negb (proposal_amount p * proposal_termLength p =? debtAmount));
    [reflexivity|].
  unfold bind at 1. unfold getStage at 1.
  case_ifs; reflexivity.
Qed.

Lemma finalizePlan_accept
    (plan : PaymentPlan) (userDetails msg : string) (st : State) :
  getMinimumPayment (frequency plan) (totalAmount plan) <= amount plan ->
  finalizePlan plan userDetails msg st
  = ({| message := msg;
        isBot := true;
        displayType := finalPlan;
        displayData :=
          Final {| final_frequency := frequency plan;
                   final_amount := amount plan;
                   final_termLength := termLength plan;
                   final_totalAmount := totalAmount plan;
                   paymentLink :=
                     Some ("collectwise.com/payments?termLength="
                           ++ Number_toString (termLength plan)
                           ++ "&totalDebtAmount="
                           ++ Number_toString (totalAmount plan)
                           ++ "&termPaymentAmount="
                           ++ Number_toString (amount plan)) |} |},
     {| currentDebtAmount := currentDebtAmount st; negotiationStage := 0 |}).
Proof.
  intros Hge. unfold finalizePlan. cbv zeta.
  destruct (amount plan <? _) eqn:E; [apply Z.ltb_lt in E; lia|].
  reflexivity.
Qed.

Lemma finalizePlan_refuse
    (plan : PaymentPlan) (userDetails msg : string) (st : State) :
  amount plan < getMinimumPayment (frequency plan) (totalAmount plan) ->
  let floor := getMinimumPayment (frequency plan) (totalAmount plan) in
  snd (finalizePlan plan userDetails msg st) = st
  /\ displayType (fst (finalizePlan plan userDetails msg st)) = paymentPlans
  /\ displayData (fst (finalizePlan plan userDetails msg st))
     = Plans [ {| frequency := frequency plan;
                  amount := floor;
                  termLength := Math_ceil (num (totalAmount plan) / num floor);
                  totalAmount := totalAmount plan |} ].
Proof.
  intros Hlt floor. unfold finalizePlan. cbv zeta.
  destruct (amount plan <? _) eqn:E; [|apply Z.ltb_ge in E; subst floor; lia].
  repeat split.
Qed.

Lemma reachable_stage_nonneg (st : State) :
  reachable st -> 0 <= negotiationStage st.
Proof.
  induction 1 as [|st c Hr IH].
  - simpl. lia.
  - destruct c as [p d s r|p d s m|plan u m]; cbn [run_call].
    + rewrite evaluateAndNegotiate_state. cbn. lia.
    + rewrite suggestPlan_state. cbn. lia.
    + destruct (Z_lt_le_dec (amount plan)
                  (getMinimumPayment (frequency plan) (totalAmount plan)))
        as [Hlt|Hge].
      * destruct (finalizePlan_refuse plan u m st Hlt) as [-> _]. exact IH.
      * rewrite (finalizePlan_accept plan u m st Hge). cbn. lia.
Qed.

(** C5.  The stage counter starts at 0.  The counter-offer builder and every
    call of [evaluateAndNegotiate] or [suggestPlan] (which either accept the
    proposal or build a counter-offer) add exactly 1 to it; a successful
    [finalizePlan] sets it to 0 and a refused one leaves the state as it was.
    Along a conversation the counter is never negative, so a call leaves it
    at 0 only if it is a [finalizePlan] that succeeded, or one that was
    refused while the counter already was 0. *)
Theorem stage_transitions :
  negotiationStage initial_state = 0
  /\ (forall sys f t tot um st,
        negotiationStage (snd (createCounterProposal sys f t tot um st))
        = negotiationStage st + 1)
  /\ (forall p d s r st,
        negotiationStage (snd (evaluateAndNegotiate p d s r st))
        = negotiationStage st + 1)
  /\ (forall p d s m st,
        negotiationStage (snd (suggestPlan p d s m st))
        = negotiationStage st + 1)
  /\ (forall pl u m st,
        let floor := getMinimumPayment (frequency pl) (totalAmount pl) in
        (floor <= amount pl ->
           displayType (fst (finalizePlan pl u m st)) = finalPlan
           /\ negotiationStage (snd (finalizePlan pl u m st)) = 0)
        /\ (amount pl < floor ->
              displayType (fst (finalizePlan pl u m st)) = paymentPlans
              /\ snd (finalizePlan pl u m st) = st))
  /\ (forall st, reachable st -> 0 <= negotiationStage st)
  /\ (forall st c,
        reachable st ->
        negotiationStage (snd (run_call c st)) = 0 ->
        exists pl u m,
          c = CallFinalize pl u m
          /\ (displayType (fst (run_call c st)) = finalPlan
              \/ negotiationStage st = 0)).
Proof.
  split; [reflexivity|].
  split; [intros; now rewrite createCounterProposal_state|].
  split; [intros; now rewrite evaluateAndNegotiate_state|].
  split; [intros; now rewrite suggestPlan_state|].
  split.
  { intros pl u m st floor. split.
    - intros Hge. now rewrite (finalizePlan_accept pl u m st Hge).
    - intros Hlt. destruct (finalizePlan_refuse pl u m st Hlt) as (H1 & H2 & _).
      now split. }
  split; [exact reachable_stage_nonneg|].
  intros st c Hr H0. pose proof (reachable_stage_nonneg st Hr) as Hn.
  destruct c as [p d s r|p d s m|pl u m]; cbn [run_call] in *.
  - rewrite evaluateAndNegotiate_state in H0. cbn in H0. lia.
  - rewrite suggestPlan_state in H0. cbn in H0. lia.
  - exists pl, u, m. split; [reflexivity|].
    destruct (Z_lt_le_dec (amount pl)
                (getMinimumPayment (frequency pl) (totalAmount pl)))
      as [Hlt|Hge].
    + destruct (finalizePlan_refuse pl u m st Hlt) as [Hst _].
      rewrite Hst in H0. now right.
    + left. now rewrite (finalizePlan_accept pl u m st Hge).
Qed.

(** ** Finalization *)

Lemma finalizePlan_without_prototype
    (pl : PaymentPlan) (userDetails msg : string) (st : State) :
  array_includes WithPrototype.Object_prototype (frequency pl) = false ->
  WithPrototype.finalizePlan pl userDetails msg st
  = finalizePlan pl userDetails msg st.
Proof.
  intros H. unfold WithPrototype.finalizePlan, finalizePlan. cbv zeta.
  rewrite (own_member_minimum _ _ H).
  destruct (amount pl <? _); reflexivity.
Qed.

Lemma finalizePlan_inherited
    (pl : PaymentPlan) (userDetails msg : string) (st : State) :
  WithPrototype.getMinimumPayment (frequency pl) (totalAmount pl)
  = WithPrototype.NaN ->
  WithPrototype.finalizePlan pl userDetails msg st
  = ({| message := msg;
        isBot := true;
        displayType := finalPlan;
        displayData :=
          Final {| final_frequency := frequency pl;
                   final_amount := amount pl;
                   final_termLength := termLength pl;
                   final_totalAmount := totalAmount pl;
                   paymentLink :=
                     Some ("collectwise.com/payments?termLength="
                           ++ Number_toString (termLength pl)
                           ++ "&totalDebtAmount="
                           ++ Number_toString (totalAmount pl)
                           ++ "&termPaymentAmount="
                           ++ Number_toString (amount pl)) |} |},
     {| currentDebtAmount := currentDebtAmount st; negotiationStage := 0 |}).
Proof.
  intros H. unfold WithPrototype.finalizePlan. cbv zeta. rewrite H.
  reflexivity.
Qed.

Lemma whole_minimum_own (frequency : string) (debtAmount floor : Z) :
  WithPrototype.getMinimumPayment frequency debtAmount
  = WithPrototype.Whole floor ->
  array_includes WithPrototype.Object_prototype frequency = false
  /\ getMinimumPayment frequency debtAmount = floor.
Proof.
  intros H.
  destruct (array_includes WithPrototype.Object_prototype frequency) eqn:E.
  - rewrite (inherited_member_minimum _ _ E) in H. discriminate H.
  - rewrite (own_member_minimum _ _ E) in H. injection H as H. now split.
Qed.

(** C1.  The hard check of [finalizePlan] is lost on a frequency that names
    a member [minRates] inherits: the minimum is [NaN], [amount < NaN] is
    false, and every such plan is finalized, with its payment link and the
    stage reset, whatever its amount.  The plan
    [{constructor, 50, 12, 2400}] is finalized although 50 is below 192,
    the monthly minimum that an unknown frequency falls back to. *)
Theorem finalizePlan_inherited_member
    (a t total : Z) (userDetails msg : string) (st : State) :
  WithPrototype.finalizePlan (mkPaymentPlan "constructor" a t total)
    userDetails msg st
  = ({| message := msg;
        isBot := true;
        displayType := finalPlan;
        displayData :=
          Final {| final_frequency := "constructor";
                   final_amount := a;
                   final_termLength := t;
                   final_totalAmount := total;
                   paymentLink :=
                     Some ("collectwise.com/payments?termLength="
                           ++ Number_toString t
                           ++ "&totalDebtAmount=" ++ Number_toString total
                           ++ "&termPaymentAmount=" ++ Number_toString a) |} |},
     {| currentDebtAmount := currentDebtAmount st; negotiationStage := 0 |})
  /\ displayData
       (fst (WithPrototype.finalizePlan (mkPaymentPlan "constructor" 50 12 2400)
               "" "Your plan is confirmed." initial_state))
     = Final {| final_frequency := "constructor";
                final_amount := 50;
                final_termLength := 12;
                final_totalAmount := 2400;
                paymentLink :=
                  Some "collectwise.com/payments?termLength=12&totalDebtAmount=2400&termPaymentAmount=50" |}
  /\ WithPrototype.getMinimumPayment "constructor" 2400 = WithPrototype.NaN
  /\ WithPrototype.getMinimumPayment "monthly" 2400 = WithPrototype.Whole 192
  /\ 50 < 192.
Proof.
  split.
  - apply (finalizePlan_inherited (mkPaymentPlan "constructor" a t total)).
    reflexivity.
  - split; [reflexivity|]. split; [reflexivity|]. split; [reflexivity|lia].
Qed.

(** ** Accepted proposals *)

Lemma evaluateAndNegotiate_accept
    (p : Proposal) (debt : Z) (userSituation : string)
    (response : Response) (st : State) :
  evaluate_accepts p debt = true ->
  evaluateAndNegotiate p debt userSituation response st
  = ({| message := or_else (response_message response)
                           "This is a reasonable payment plan.";
        isBot := true;
        displayType := paymentPlans;
        displayData :=
          Plans [ {| frequency := proposal_frequency p;
                     amount := proposal_amount p;
                     termLength := proposal_termLength p;
                     totalAmount := debt |} ] |},
     {| currentDebtAmount := currentDebtAmount st;
        negotiationStage := negotiationStage st + 1 |}).
Proof.
  unfold evaluate_accepts, evaluateAndNegotiate. cbv zeta.
  destruct (array_includes allowedFrequencies (proposal_frequency p));
    [|discriminate].
  destruct (proposal_amount p * proposal_termLength p <? debt);
    [discriminate|].
  destruct (proposal_amount p <? _); [discriminate|].
  destruct (proposal_amount p * proposal_termLength p =? debt);
    [|discriminate].
  reflexivity.
Qed.

Lemma evaluateAndNegotiate_counter
    (p : Proposal) (debt : Z) (userSituation : string)
    (response : Response) (st : State) :
  evaluate_accepts p debt = false ->
  exists sys f t,
    evaluateAndNegotiate p debt userSituation response st
    = createCounterProposal sys f t debt "" st.
Proof.
  unfold evaluate_accepts, evaluateAndNegotiate. cbv zeta.
  destruct (array_includes allowedFrequencies (proposal_frequency p));
    [|intros _; do 3 eexists; reflexivity].
  destruct (proposal_amount p * proposal_termLength p <? debt).
  { intros _. destruct (proposal_amount p <? _); do 3 eexists; reflexivity. }
  destruct (proposal_amount p <? _);
    [intros _; do 3 eexists; reflexivity|].
  destruct (proposal_amount p * proposal_termLength p =? debt);
    [discriminate|].
  intros _. do 3 eexists. reflexivity.
Qed.

Lemma suggestPlan_accept
    (p : Proposal) (debt : Z) (userSituation msg : string) (st : State) :
  suggest_accepts p debt userSituation (negotiationStage st) = true ->
  suggestPlan p debt userSituation msg st
  = ({| message := msg;
        isBot := true;
        displayType := paymentPlans;
        displayData :=
          Plans [ {| frequency := proposal_frequency p;
                     amount := proposal_amount p;
                     termLength := proposal_termLength p;
                     totalAmount := debt |} ] |},
     {| currentDebtAmount := currentDebtAmount st;
        negotiationStage := negotiationStage st + 1 |}).
Proof.
  unfold suggest_accepts, suggest_hardship, suggestPlan. cbv zeta.
  destruct (array_includes allowedFrequencies (proposal_frequency p));
    [|discriminate].
  destruct (proposal_amount p * proposal_termLength p =? debt);
    [|discriminate].
  cbn [negb andb]. unfold bind at 1. unfold getStage at 1.
  destruct ((proposal_amount p <? _) && (negotiationStage st <? 2));
    [discriminate|].
  cbn [negb andb].
  match goal with
  | |- negb ?h = true -> _ => destruct h; [discriminate|]
  end.
  reflexivity.
Qed.

Lemma suggestPlan_counter
    (p : Proposal) (debt : Z) (userSituation msg : string) (st : State) :
  suggest_accepts p debt userSituation (negotiationStage st) = false ->
  exists sys f t,
    suggestPlan p debt userSituation msg st
    = createCounterProposal sys f t debt msg st.
Proof.
  unfold suggest_accepts, suggest_hardship, suggestPlan. cbv zeta.
  destruct (array_includes allowedFrequencies (proposal_frequency p));
    [|intros _; do 3 eexists; reflexivity].
  destruct (proposal_amount p * proposal_termLength p =? debt);
    [|intros _; do 3 eexists; reflexivity].
  cbn [negb andb]. unfold bind at 1. unfold getStage at 1.
  destruct ((proposal_amount p <? _) && (negotiationStage st <? 2));
    [intros _; do 3 eexists; reflexivity|].
  cbn [negb andb].
  match goal with
  | |- negb ?h = false -> _ =>
      destruct h; [intros _; do 3 eexists; reflexivity|discriminate]
  end.
Qed.

Lemma evaluate_accepts_iff (p : Proposal) (debt : Z) :
  evaluate_accepts p debt = true
  <-> array_includes allowedFrequencies (proposal_frequency p) = true
      /\ proposal_amount p * proposal_termLength p = debt
      /\ getMinimumPayment (proposal_frequency p) debt <= proposal_amount p.
Proof.
  unfold evaluate_accepts. cbv zeta.
  rewrite !andb_true_iff, !negb_true_iff, Z.eqb_eq, !Z.ltb_ge. intuition lia.
Qed.

Lemma suggest_accepts_iff
    (p : Proposal) (debt : Z) (userSituation : string) (stage : Z) :
  suggest_accepts p debt userSituation stage = true
  <-> array_includes allowedFrequencies (proposal_frequency p) = true
      /\ proposal_amount p * proposal_termLength p = debt
      /\ (stage < 2 ->
          getMinimumPayment (proposal_frequency p) debt <= proposal_amount p
          /\ suggest_hardship userSituation = false).
Proof.
  unfold suggest_accepts. cbv zeta.
  rewrite !andb_true_iff, !negb_true_iff, !andb_false_iff, Z.eqb_eq,
    !Z.ltb_ge.
  destruct (suggest_hardship userSituation); intuition (try lia; try congruence).
Qed.

(** C2.  Whenever [evaluateAndNegotiate] or [suggestPlan] accepts (reaches
    its final [return], which happens exactly under [evaluate_accepts],
    respectively [suggest_accepts]; otherwise the answer is a counter-offer
    from the shared builder), the response carries the single plan made of
    the proposal's own fields with [totalAmount] set to the debt, and
    [amount * termLength = totalAmount] exactly.  [evaluateAndNegotiate]
    accepts exactly the proposals with an allowed frequency, a product equal
    to the debt and an amount at or above the minimum; [suggestPlan] asks
    for the last only while the stage is below 2, together with the absence
    of a hardship word. *)
Theorem accepted_plans_exact
    (p : Proposal) (debt : Z) (userSituation : string)
    (response : Response) (msg : string) (st : State) :
  (evaluate_accepts p debt = true ->
     exists pl,
       displayData
         (fst (evaluateAndNegotiate p debt userSituation response st))
       = Plans [pl]
       /\ pl = {| frequency := proposal_frequency p;
                  amount := proposal_amount p;
                  termLength := proposal_termLength p;
                  totalAmount := debt |}
       /\ amount pl * termLength pl = totalAmount pl
       /\ totalAmount pl = debt)
  /\ (evaluate_accepts p debt = false ->
        exists sys f t,
          evaluateAndNegotiate p debt userSituation response st
          = createCounterProposal sys f t debt "" st)
  /\ (suggest_accepts p debt userSituation (negotiationStage st) = true ->
        exists pl,
          displayData (fst (suggestPlan p debt userSituation msg st))
          = Plans [pl]
          /\ pl = {| frequency := proposal_frequency p;
                     amount := proposal_amount p;
                     termLength := proposal_termLength p;
                     totalAmount := debt |}
          /\ amount pl * termLength pl = totalAmount pl
          /\ totalAmount pl = debt)
  /\ (suggest_accepts p debt userSituation (negotiationStage st) = false ->
        exists sys f t,
          suggestPlan p debt userSituation msg st
          = createCounterProposal sys f t debt msg st)
  /\ (evaluate_accepts p debt = true
      <-> array_includes allowedFrequencies (proposal_frequency p) = true
          /\ proposal_amount p * proposal_termLength p = debt
          /\ getMinimumPayment (proposal_frequency p) debt
             <= proposal_amount p)
  /\ (suggest_accepts p debt userSituation (negotiationStage st) = true
      <-> array_includes allowedFrequencies (proposal_frequency p) = true
          /\ proposal_amount p * proposal_termLength p = debt
          /\ (negotiationStage st < 2 ->
              getMinimumPayment (proposal_frequency p) debt
              <= proposal_amount p
              /\ suggest_hardship userSituation = false)).
Proof.
  split; [|split; [|split; [|split;
    [|split; [apply evaluate_accepts_iff|apply suggest_accepts_iff]]]]].
  - intros Ha. rewrite (evaluateAndNegotiate_accept _ _ _ _ _ Ha).
    eexists. split; [reflexivity|]. split; [reflexivity|].
    cbn [amount termLength totalAmount]. split; [|reflexivity].
    unfold evaluate_accepts in Ha.
    apply andb_prop in Ha. destruct Ha as [_ Heq]. now apply Z.eqb_eq.
  - apply evaluateAndNegotiate_counter.
  - intros Ha. rewrite (suggestPlan_accept _ _ _ _ _ Ha).
    eexists. split; [reflexivity|]. split; [reflexivity|].
    cbn [amount termLength totalAmount]. split; [|reflexivity].
    unfold suggest_accepts in Ha.
    apply andb_prop in Ha. destruct Ha as [Ha _].
    apply andb_prop in Ha. destruct Ha as [Ha _].
    apply andb_prop in Ha. destruct Ha as [_ Heq]. now apply Z.eqb_eq.
  - apply suggestPlan_counter.
Qed.

Lemma accepted_plans_exact_witness :
  evaluate_accepts (mkProposal 25 "weekly" 48) 1200 = true
  /\ exists pl,
       displayData
         (fst (evaluateAndNegotiate (mkProposal 25 "weekly" 48) 1200 ""
                 (mkResponse "" true None) initial_state))
       = Plans [pl]
       /\ pl = {| frequency := "weekly"; amount := 25; termLength := 48;
                  totalAmount := 1200 |}
       /\ amount pl * termLength pl = totalAmount pl
       /\ totalAmount pl = 1200.
Proof.
  split; [reflexivity|].
  apply (proj1 (accepted_plans_exact (mkProposal 25 "weekly" 48) 1200 ""
                  (mkResponse "" true None) "" initial_state)).
  reflexivity.
Defined.

(** ** Counter-offers for proposals below the floor *)

(** The plan shown for a suggested amount [s]: the term is reconciled for
    [s], the displayed amount is recomputed from that term by the builder. *)
Lemma reconciled_amount (debt s : Z) :
  0 < debt -> 0 < s ->
  let term := - ((- debt) / s) in
  0 < term
  /\ debt / term <= s
  /\ (debt / term = s <-> (s | debt)).
Proof.
  intros Hd Hs term.
  pose proof (cdiv_bounds debt s Hs) as Hc. fold term in Hc.
  assert (Hterm : 0 < term) by (subst term; now apply cdiv_pos).
  pose proof (fdiv_bounds debt term Hterm) as Hf.
  split; [exact Hterm|]. split; [nia|].
  split.
  - intros Heq. exists term. nia.
  - intros [k Hk].
    assert (Hkt : term = k).
    { subst term. apply cdiv_unique; [lia|nia]. }
    rewrite Hkt. subst debt. symmetry. apply Z.div_unique_exact; nia.
Qed.

Lemma Math_ceil_scale_pos (m n : Z) (d : positive) :
  0 < m -> 0 < n -> 0 < Math_ceil (num m * (n # d)).
Proof.
  intros Hm Hn. rewrite Math_ceil_scale. apply cdiv_pos; nia.
Qed.

(** The hardship counter amount [Math.ceil(minimum * 1.1)] is positive. *)
Lemma hardship_amount_pos (m : Z) :
  0 < m -> 0 < Math_ceil (double (num m * double 1.1)).
Proof.
  intros Hm. unfold Math_ceil, num.
  apply Qceiling_pos, double_positive.
  assert (H1 : (0 < double 1.1)%Q) by (apply double_positive; reflexivity).
  assert (H2 : (0 < inject_Z m)%Q) by now apply inject_Z_pos.
  nra.
Qed.

Lemma evaluateAndNegotiate_low
    (p : Proposal) (debt : Z) (userSituation : string)
    (response : Response) (st : State) :
  array_includes allowedFrequencies (proposal_frequency p) = true ->
  proposal_amount p * proposal_termLength p < debt ->
  proposal_amount p < getMinimumPayment (proposal_frequency p) debt ->
  evaluateAndNegotiate p debt userSituation response st
  = createCounterProposal
      "I appreciate your situation, but we need a plan that covers the full debt amount in a reasonable time. Here's a suggested plan that works better."
      (proposal_frequency p)
      (Math_ceil
         (num debt
          / num (Math_ceil
                   (num (getMinimumPayment (proposal_frequency p) debt)
                    * 1.25))))
      debt "" st.
Proof.
  intros Hf Ht Ha. unfold evaluateAndNegotiate. cbv zeta.
  rewrite Hf. cbn [negb].
  apply Z.ltb_lt in Ht, Ha. rewrite Ht, Ha. reflexivity.
Qed.

(** C3, as the code has it.  For an allowed frequency, a positive debt, a
    proposal that does not cover the debt and an amount below the minimum
    payment, the counter-offer has the term [ceil (debt / s)] for the
    suggested amount [s = ceil (minimum * 1.25)], and its displayed amount is
    [floor (debt / term)]: at most [s], and equal to [s] exactly when [s]
    divides the debt.  For the debt 2400 and the proposal (monthly, 50, 12)
    the counter is (monthly, 240, 10, 2400). *)
Theorem evaluate_low_offer_counter :
  (forall (p : Proposal) (debt : Z) (userSituation : string)
          (response : Response) (st : State),
      array_includes allowedFrequencies (proposal_frequency p) = true ->
      0 < debt ->
      proposal_amount p * proposal_termLength p < debt ->
      proposal_amount p < getMinimumPayment (proposal_frequency p) debt ->
      let s :=
        Math_ceil (num (getMinimumPayment (proposal_frequency p) debt) * 1.25) in
      exists pl,
        displayData
          (fst (evaluateAndNegotiate p debt userSituation response st))
        = Plans [pl]
        /\ frequency pl = proposal_frequency p
        /\ totalAmount pl = debt
        /\ termLength pl = Math_ceil (num debt / num s)
        /\ amount pl = Math_floor (num debt / num (termLength pl))
        /\ 0 < termLength pl
        /\ amount pl <= s
        /\ (amount pl = s <-> (s | debt)))
  /\ (forall (userSituation : string) (response : Response) (st : State),
        displayData
          (fst (evaluateAndNegotiate (mkProposal 50 "monthly" 12) 2400
                  userSituation response st))
        = Plans [ {| frequency := "monthly"; amount := 240;
                     termLength := 10; totalAmount := 2400 |} ]
        /\ 240 * 10 >= 2400
        /\ 240 >= Math_ceil (num 2400 * 0.08 * 1.25)).
Proof.
  split.
  - intros p debt userSituation response st Hf Hd Ht Ha s.
    rewrite (evaluateAndNegotiate_low p debt userSituation response st Hf Ht Ha).
    fold s.
    destruct (createCounterProposal_data
                "I appreciate your situation, but we need a plan that covers the full debt amount in a reasonable time. Here's a suggested plan that works better."
                (proposal_frequency p) (Math_ceil (num debt / num s)) debt ""
                st) as [Hdata _].
    eexists. split; [exact Hdata|].
    cbn [frequency totalAmount termLength amount].
    assert (Hs : 0 < s).
    { subst s. apply Math_ceil_scale_pos; [|lia].
      now apply getMinimumPayment_pos. }
    rewrite Math_floor_div, Math_ceil_div.
    destruct (reconciled_amount debt s Hd Hs) as (H1 & H2 & H3).
    repeat split; try assumption; apply H3.
  - intros userSituation response st.
    split; [|split; [lia|vm_compute; discriminate]].
    rewrite (evaluateAndNegotiate_low (mkProposal 50 "monthly" 12) 2400
               userSituation response st);
      [|reflexivity|reflexivity|reflexivity].
    apply createCounterProposal_data.
Qed.

Lemma evaluate_low_offer_counter_witness :
  exists pl,
    displayData
      (fst (evaluateAndNegotiate (mkProposal 50 "monthly" 12) 1001 ""
              (mkResponse "" false None) initial_state))
    = Plans [pl]
    /\ frequency pl = "monthly"
    /\ totalAmount pl = 1001
    /\ termLength pl
       = Math_ceil
           (num 1001
            / num (Math_ceil (num (getMinimumPayment "monthly" 1001) * 1.25)))
    /\ amount pl = Math_floor (num 1001 / num (termLength pl))
    /\ 0 < termLength pl
    /\ amount pl
       <= Math_ceil (num (getMinimumPayment "monthly" 1001) * 1.25)
    /\ (amount pl
        = Math_ceil (num (getMinimumPayment "monthly" 1001) * 1.25)
        <-> (Math_ceil (num (getMinimumPayment "monthly" 1001) * 1.25)
             | 1001)).
Proof.
  apply (proj1 evaluate_low_offer_counter (mkProposal 50 "monthly" 12) 1001 ""
           (mkResponse "" false None) initial_state);
    [reflexivity | lia | reflexivity | reflexivity].
Defined.

(** C3 as stated fails: for the debt 1001 and the proposal (monthly, 50, 12)
    the frequency is allowed, the proposal covers 600 < 1001 and 50 is below
    the minimum 81, yet the counter-offer shows the amount 100, not
    [ceil (81 * 1.25) = 102]. *)
Lemma evaluate_low_offer_counterexample :
  array_includes allowedFrequencies "monthly" = true
  /\ 50 * 12 < 1001
  /\ 50 < getMinimumPayment "monthly" 1001
  /\ Math_ceil (num (getMinimumPayment "monthly" 1001) * 1.25) = 102
  /\ displayData
       (fst (evaluateAndNegotiate (mkProposal 50 "monthly" 12) 1001 ""
               (mkResponse "" false None) initial_state))
     = Plans [ {| frequency := "monthly"; amount := 100; termLength := 10;
                  totalAmount := 1001 |} ]
  /\ ~ (exists pl,
          displayData
            (fst (evaluateAndNegotiate (mkProposal 50 "monthly" 12) 1001 ""
                    (mkResponse "" false None) initial_state))
          = Plans [pl]
          /\ amount pl
             = Math_ceil (num (getMinimumPayment "monthly" 1001) * 1.25)).
Proof.
  split; [reflexivity|]. split; [lia|]. split; [reflexivity|].
  split; [reflexivity|]. split; [reflexivity|].
  intros [pl [Hd Ha]]. vm_compute in Hd, Ha.
  injection Hd as <-. discriminate Ha.
Qed.

Lemma suggestPlan_low_early
    (p : Proposal) (debt : Z) (userSituation msg : string) (st : State) :
  array_includes allowedFrequencies (proposal_frequency p) = true ->
  proposal_amount p * proposal_termLength p = debt ->
  proposal_amount p < getMinimumPayment (proposal_frequency p) debt ->
  negotiationStage st < 2 ->
  suggestPlan p debt userSituation msg st
  = createCounterProposal
      "I need to suggest a more effective payment plan."
      (proposal_frequency p)
      (Math_ceil
         (num debt
          / num (Math_ceil
                   (num (getMinimumPayment (proposal_frequency p) debt)
                    * 1.5))))
      debt msg st.
Proof.
  intros Hf Ht Ha Hst. unfold suggestPlan. cbv zeta.
  rewrite Hf. cbn [negb].
  apply Z.eqb_eq in Ht. rewrite Ht. cbn [negb].
  unfold bind at 1. unfold getStage at 1.
  apply Z.ltb_lt in Ha, Hst. rewrite Ha, Hst. reflexivity.
Qed.

Lemma suggestPlan_late
    (p : Proposal) (debt : Z) (userSituation msg : string) (st : State) :
  array_includes allowedFrequencies (proposal_frequency p) = true ->
  proposal_amount p * proposal_termLength p = debt ->
  2 <= negotiationStage st ->
  suggest_accepts p debt userSituation (negotiationStage st) = true.
Proof.
  intros Hf Ht Hst. unfold suggest_accepts. cbv zeta.
  apply Z.eqb_eq in Ht. rewrite Hf, Ht.
  apply Z.ltb_ge in Hst. rewrite Hst.
  now rewrite !andb_false_r.
Qed.

(** C4, as the code has it.  For an allowed frequency, a positive debt, a
    proposal whose product is exactly the debt and an amount below the
    minimum payment: while the stage is below 2 the answer is a counter-offer
    with the term [ceil (debt / s)] for the suggested amount
    [s = ceil (minimum * 1.5)] and the displayed amount [floor (debt / term)],
    which is at most [s] and equals [s] exactly when [s] divides the debt;
    from stage 2 on the proposal is accepted unchanged and returned with the
    caller's message. *)
Theorem suggest_low_offer
    (p : Proposal) (debt : Z) (userSituation msg : string) (st : State) :
  array_includes allowedFrequencies (proposal_frequency p) = true ->
  0 < debt ->
  proposal_amount p * proposal_termLength p = debt ->
  proposal_amount p < getMinimumPayment (proposal_frequency p) debt ->
  (negotiationStage st < 2 ->
     let s :=
       Math_ceil (num (getMinimumPayment (proposal_frequency p) debt) * 1.5) in
     exists pl,
       displayData (fst (suggestPlan p debt userSituation msg st))
       = Plans [pl]
       /\ frequency pl = proposal_frequency p
       /\ totalAmount pl = debt
       /\ termLength pl = Math_ceil (num debt / num s)
       /\ amount pl = Math_floor (num debt / num (termLength pl))
       /\ 0 < termLength pl
       /\ amount pl <= s
       /\ (amount pl = s <-> (s | debt)))
  /\ (2 <= negotiationStage st ->
        suggestPlan p debt userSituation msg st
        = ({| message := msg;
              isBot := true;
              displayType := paymentPlans;
              displayData :=
                Plans [ {| frequency := proposal_frequency p;
                           amount := proposal_amount p;
                           termLength := proposal_termLength p;
                           totalAmount := debt |} ] |},
           {| currentDebtAmount := currentDebtAmount st;
              negotiationStage := negotiationStage st + 1 |})).
Proof.
  intros Hf Hd Ht Ha. split.
  - intros Hst s.
    rewrite (suggestPlan_low_early p debt userSituation msg st Hf Ht Ha Hst).
    fold s.
    destruct (createCounterProposal_data
                "I need to suggest a more effective payment plan."
                (proposal_frequency p) (Math_ceil (num debt / num s)) debt msg
                st) as [Hdata _].
    eexists. split; [exact Hdata|].
    cbn [frequency totalAmount termLength amount].
    assert (Hs : 0 < s).
    { subst s. apply Math_ceil_scale_pos; [|lia].
      now apply getMinimumPayment_pos. }
    rewrite Math_floor_div, Math_ceil_div.
    destruct (reconciled_amount debt s Hd Hs) as (H1 & H2 & H3).
    repeat split; try assumption; apply H3.
  - intros Hst. apply suggestPlan_accept.
    now apply suggestPlan_late.
Qed.

Lemma suggest_low_offer_witness :
  (let s := Math_ceil (num (getMinimumPayment "monthly" 1001) * 1.5) in
   exists pl,
     displayData
       (fst (suggestPlan (mkProposal 1 "monthly" 1001) 1001 "" "hello"
               initial_state))
     = Plans [pl]
     /\ frequency pl = "monthly"
     /\ totalAmount pl = 1001
     /\ termLength pl = Math_ceil (num 1001 / num s)
     /\ amount pl = Math_floor (num 1001 / num (termLength pl))
     /\ 0 < termLength pl
     /\ amount pl <= s
     /\ (amount pl = s <-> (s | 1001)))
  /\ suggestPlan (mkProposal 1 "monthly" 1001) 1001 "" "hello"
       (mkState 2400 2)
     = ({| message := "hello";
           isBot := true;
           displayType := paymentPlans;
           displayData :=
             Plans [ {| frequency := "monthly"; amount := 1;
                        termLength := 1001; totalAmount := 1001 |} ] |},
        {| currentDebtAmount := 2400; negotiationStage := 2 + 1 |}).
Proof.
  split.
  - apply (proj1 (suggest_low_offer (mkProposal 1 "monthly" 1001) 1001 ""
                    "hello" initial_state eq_refl eq_refl eq_refl eq_refl)).
    reflexivity.
  - apply (proj2 (suggest_low_offer (mkProposal 1 "monthly" 1001) 1001 ""
                    "hello" (mkState 2400 2) eq_refl eq_refl eq_refl eq_refl)).
    cbn. lia.
Defined.

(** C4 as stated fails in its first half: at stage 0, for the debt 1001 and
    the proposal (monthly, 1, 1001), whose product is the debt and whose
    amount is below the minimum 81, the counter-offer shows the amount 111,
    not [ceil (81 * 1.5) = 122]. *)
Lemma suggest_low_offer_counterexample :
  array_includes allowedFrequencies "monthly" = true
  /\ 1 * 1001 = 1001
  /\ 1 < getMinimumPayment "monthly" 1001
  /\ negotiationStage initial_state < 2
  /\ Math_ceil (num (getMinimumPayment "monthly" 1001) * 1.5) = 122
  /\ displayData
       (fst (suggestPlan (mkProposal 1 "monthly" 1001) 1001 "" "hello"
               initial_state))
     = Plans [ {| frequency := "monthly"; amount := 111; termLength := 9;
                  totalAmount := 1001 |} ]
  /\ ~ (exists pl,
          displayData
            (fst (suggestPlan (mkProposal 1 "monthly" 1001) 1001 "" "hello"
                    initial_state))
          = Plans [pl]
          /\ amount pl
             = Math_ceil (num (getMinimumPayment "monthly" 1001) * 1.5)).
Proof.
  split; [reflexivity|]. split; [lia|]. split; [reflexivity|].
  split; [reflexivity|]. split; [reflexivity|]. split; [reflexivity|].
  intros [pl [Hd Ha]]. vm_compute in Hd, Ha.
  injection Hd as <-. discriminate Ha.
Qed.

(** ** Frequencies outside the allowed list *)

(** C6, as the code has it.  For a frequency outside weekly, biweekly and
    monthly, [evaluateAndNegotiate] and [suggestPlan] answer with the fixed
    fallback counter-offer from the builder (monthly, 6 terms, total equal to
    the debt, displayed amount [floor (debt / 6)]), an ordinary
    [paymentPlans] response, and move the stage on by one like any other
    counter-offer. *)
Theorem unknown_frequency_fallback (freq : string) :
  array_includes allowedFrequencies freq = false ->
  (forall a t debt userSituation response st,
      evaluateAndNegotiate (mkProposal a freq t) debt userSituation response st
      = createCounterProposal
          "Invalid payment frequency. Only weekly, biweekly, or monthly are allowed."
          "monthly" 6 debt "" st
      /\ displayType
           (fst (evaluateAndNegotiate (mkProposal a freq t) debt
                   userSituation response st)) = paymentPlans
      /\ displayData
           (fst (evaluateAndNegotiate (mkProposal a freq t) debt
                   userSituation response st))
         = Plans [ {| frequency := "monthly"; amount := debt / 6;
                      termLength := 6; totalAmount := debt |} ])
  /\ (forall a t debt userSituation msg st,
        suggestPlan (mkProposal a freq t) debt userSituation msg st
        = createCounterProposal
            "Our system only supports weekly, biweekly, or monthly payment frequencies."
            "monthly" 6 debt msg st
        /\ displayType
             (fst (suggestPlan (mkProposal a freq t) debt userSituation msg
                     st)) = paymentPlans
        /\ displayData
             (fst (suggestPlan (mkProposal a freq t) debt userSituation msg
                     st))
           = Plans [ {| frequency := "monthly"; amount := debt / 6;
                        termLength := 6; totalAmount := debt |} ]).
Proof.
  intros Hf. split.
  - intros a t debt userSituation response st.
    assert (E : evaluateAndNegotiate (mkProposal a freq t) debt userSituation
                  response st
                = createCounterProposal
                    "Invalid payment frequency. Only weekly, biweekly, or monthly are allowed."
                    "monthly" 6 debt "" st).
    { unfold evaluateAndNegotiate. cbv zeta. cbn [proposal_frequency].
      rewrite Hf. reflexivity. }
    rewrite E. split; [reflexivity|].
    destruct (createCounterProposal_data
                "Invalid payment frequency. Only weekly, biweekly, or monthly are allowed."
                "monthly" 6 debt "" st) as [Hd Ht].
    now split.
  - intros a t debt userSituation msg st.
    assert (E : suggestPlan (mkProposal a freq t) debt userSituation msg st
                = createCounterProposal
                    "Our system only supports weekly, biweekly, or monthly payment frequencies."
                    "monthly" 6 debt msg st).
    { unfold suggestPlan. cbv zeta. cbn [proposal_frequency].
      rewrite Hf. reflexivity. }
    rewrite E. split; [reflexivity|].
    destruct (createCounterProposal_data
                "Our system only supports weekly, biweekly, or monthly payment frequencies."
                "monthly" 6 debt msg st) as [Hd Ht].
    now split.
Qed.

Lemma unknown_frequency_fallback_witness :
  array_includes allowedFrequencies "daily" = false
  /\ displayData
       (fst (evaluateAndNegotiate (mkProposal 300 "daily" 8) 2400 ""
               (mkResponse "" false None) initial_state))
     = Plans [ {| frequency := "monthly"; amount := 2400 / 6;
                  termLength := 6; totalAmount := 2400 |} ].
Proof.
  split; [reflexivity|].
  apply (proj1 (unknown_frequency_fallback "daily" eq_refl) 300 8 2400 ""
           (mkResponse "" false None) initial_state).
Defined.

(** C6 as stated fails for [finalizePlan]: with the frequency "daily" a plan
    at or above the monthly minimum is finalized as it stands, and a plan
    below it is answered with a corrected plan that is still "daily" and runs
    13 terms; neither response carries the monthly 6-term default plan. *)
Lemma unknown_frequency_counterexample :
  array_includes allowedFrequencies "daily" = false
  /\ fst (finalizePlan (mkPaymentPlan "daily" 300 8 2400) "" "ok"
            initial_state)
     = {| message := "ok";
          isBot := true;
          displayType := finalPlan;
          displayData :=
            Final {| final_frequency := "daily"; final_amount := 300;
                     final_termLength := 8; final_totalAmount := 2400;
                     paymentLink :=
                       Some "collectwise.com/payments?termLength=8&totalDebtAmount=2400&termPaymentAmount=300" |} |}
  /\ displayData
       (fst (finalizePlan (mkPaymentPlan "daily" 50 12 2400) "" "ok"
               initial_state))
     = Plans [ {| frequency := "daily"; amount := 192; termLength := 13;
                  totalAmount := 2400 |} ]
  /\ ~ (exists pl,
          displayData
            (fst (finalizePlan (mkPaymentPlan "daily" 300 8 2400) "" "ok"
                    initial_state)) = Plans [pl]
          /\ frequency pl = "monthly" /\ termLength pl = 6).
Proof.
  split; [reflexivity|]. split; [reflexivity|]. split; [reflexivity|].
  intros [pl [Hd _]]. vm_compute in Hd. discriminate Hd.
Qed.

(** ** The extractor: strings and scanning *)

Lemma append_assoc (a b c : string) : (a ++ b) ++ c = a ++ (b ++ c).
Proof. induction a as [|x a IH]; simpl; [reflexivity|now rewrite IH]. Qed.

Lemma last_or_append (prev : option ascii) (a b : string) :
  last_or prev (a ++ b) = last_or (last_or prev a) b.
Proof.
  revert prev. induction a as [|x a IH]; intros prev; simpl;
    [reflexivity|apply IH].
Qed.

Ltac each_char c :=
  destruct c as [[] [] [] [] [] [] [] []].

Lemma is_word_fold_char (c : ascii) : is_word (fold_char c) = is_word c.
Proof. each_char c; reflexivity. Qed.

Lemma word_not_space (c : ascii) : is_word c = true -> is_space c = false.
Proof. each_char c; intros H; try reflexivity; discriminate H. Qed.

Lemma digit_is_word (c : ascii) : is_digit c = true -> is_word c = true.
Proof. each_char c; intros H; try reflexivity; discriminate H. Qed.

Lemma digit_not_space (c : ascii) : is_digit c = true -> is_space c = false.
Proof. intros H. now apply word_not_space, digit_is_word. Qed.

Lemma space_not_digit (c : ascii) : is_space c = true -> is_digit c = false.
Proof.
  intros H. destruct (is_digit c) eqn:E; [|reflexivity].
  apply digit_not_space in E. congruence.
Qed.

Lemma all_chars_fold_word (m : string) :
  all_chars is_word (fold_case m) = all_chars is_word m.
Proof.
  induction m as [|c m IH]; simpl; [reflexivity|].
  now rewrite is_word_fold_char, IH.
Qed.

Lemma last_or_all (p : ascii -> bool) (prev : option ascii) (m : string) :
  m <> "" -> all_chars p m = true ->
  exists c, last_or prev m = Some c /\ p c = true.
Proof.
  revert prev. induction m as [|c m IH]; intros prev Hne Hall;
    [congruence|].
  simpl in Hall. apply andb_prop in Hall. destruct Hall as [Hc Hm].
  destruct m as [|c' m'].
  - exists c. now split.
  - simpl. apply (IH (Some c)); [discriminate|exact Hm].
Qed.

Lemma fold_case_cons (w k : string) (a : ascii) :
  fold_case w = String a k ->
  exists c w', w = String c w' /\ fold_char c = a /\ fold_case w' = k.
Proof.
  destruct w as [|c w']; simpl; intros H; [discriminate|].
  injection H as H1 H2. now exists c, w'.
Qed.

Lemma fold_case_nil (w : string) : fold_case w = "" -> w = "".
Proof. destruct w; simpl; [reflexivity|discriminate]. Qed.

(** *** Matching a literal without regard to case *)

Lemma eqb_ci_eq (a b : ascii) : eqb_ci a b = true <-> fold_char a = fold_char b.
Proof. unfold eqb_ci. apply Ascii.eqb_eq. Qed.

Lemma literal_ci_sound (k s m r : string) :
  literal_ci k s = Some (m, r) -> s = m ++ r /\ fold_case m = fold_case k.
Proof.
  revert s m r. induction k as [|a k IH]; intros s m r; simpl.
  - intros H. injection H as <- <-. now split.
  - destruct s as [|b s']; [discriminate|].
    destruct (eqb_ci a b) eqn:E; [|discriminate].
    destruct (literal_ci k s') as [[m' r']|] eqn:E'; [|discriminate].
    intros H. injection H as <- <-.
    destruct (IH _ _ _ E') as [-> Hf]. apply eqb_ci_eq in E.
    simpl. now rewrite Hf, E.
Qed.

Lemma literal_ci_complete (k m r : string) :
  fold_case m = fold_case k -> literal_ci k (m ++ r) = Some (m, r).
Proof.
  revert m. induction k as [|a k IH]; intros m Hf; simpl in *.
  - apply fold_case_nil in Hf. now subst m.
  - destruct (fold_case_cons _ _ _ Hf) as (c & m' & -> & Hc & Hm).
    simpl. assert (E : eqb_ci a c = true) by (apply eqb_ci_eq; congruence).
    rewrite E, (IH m' Hm). reflexivity.
Qed.

Lemma literal_ci_head_mismatch (a : ascii) (k : string) (c : ascii) (s : string) :
  fold_char a <> fold_char c -> literal_ci (String a k) (String c s) = None.
Proof.
  intros H. simpl. destruct (eqb_ci a c) eqn:E; [|reflexivity].
  apply eqb_ci_eq in E. contradiction.
Qed.

Lemma alt_ci_sound (ws : list string) (s m r : string) :
  alt_ci ws s = Some (m, r) ->
  s = m ++ r /\ exists k, In k ws /\ fold_case m = fold_case k.
Proof.
  induction ws as [|w ws IH]; simpl; [discriminate|].
  destruct (literal_ci w s) as [[m' r']|] eqn:E.
  - intros H. injection H as <- <-.
    destruct (literal_ci_sound _ _ _ _ E) as [Hs Hf].
    split; [exact Hs|]. exists w. now split; [left|].
  - intros H. destruct (IH H) as [Hs (k & Hk & Hf)].
    split; [exact Hs|]. exists k. now split; [right|].
Qed.

Lemma alt_ci_complete (ws : list string) (k m r : string) :
  In k ws -> fold_case m = fold_case k -> alt_ci ws (m ++ r) <> None.
Proof.
  induction ws as [|w ws IH]; simpl; [tauto|].
  intros [->|Hin] Hf.
  - now rewrite (literal_ci_complete k m r Hf).
  - destruct (literal_ci w (m ++ r)) as [[m' r']|]; [discriminate|].
    now apply IH.
Qed.

(** *** Greedy runs *)

Lemma span_sound (p : ascii -> bool) (s m r : string) :
  span p s = (m, r) -> s = m ++ r /\ all_chars p m = true.
Proof.
  revert m r. induction s as [|c s IH]; intros m r; simpl.
  - intros H. injection H as <- <-. now split.
  - destruct (p c) eqn:E.
    + destruct (span p s) as [m' r'] eqn:E'.
      intros H. injection H as <- <-.
      destruct (IH _ _ eq_refl) as [-> Hall]. simpl. now rewrite E, Hall.
    + intros H. injection H as <- <-. now split.
Qed.

Lemma span_complete (p : ascii -> bool) (m r : string) :
  all_chars p m = true -> stops p r -> span p (m ++ r) = (m, r).
Proof.
  induction m as [|c m IH]; simpl; intros Hall Hstop.
  - destruct r as [|c r]; [reflexivity|]. simpl in *. now rewrite Hstop.
  - apply andb_prop in Hall. destruct Hall as [Hc Hm].
    now rewrite Hc, (IH Hm Hstop).
Qed.

(** *** Where a scan finds its first match *)

Section MatchAllFacts.
Context {A : Type}.
Variable P : option ascii -> string -> option (nat * A).
Hypothesis P_empty : forall prev, P prev "" = None.

Lemma matchAll_from_found (prev : option ascii) (s : string) :
  matchAll_from P 0 prev s <> []
  <-> exists pre suf, s = pre ++ suf /\ P (last_or prev pre) suf <> None.
Proof.
  revert prev. induction s as [|c s IH]; intros prev.
  - simpl. split; [congruence|].
    intros (pre & suf & Hs & Hp). destruct pre; [|discriminate].
    simpl in Hs. subst suf. simpl in Hp. now rewrite P_empty in Hp.
  - cbn [matchAll_from].
    destruct (P prev (String c s)) as [[n a]|] eqn:E.
    + split; [|discriminate]. intros _.
      exists "", (String c s). simpl. split; [reflexivity|congruence].
    + rewrite IH. split.
      * intros (pre & suf & Hs & Hp).
        exists (String c pre), suf. simpl. now subst s.
      * intros (pre & suf & Hs & Hp). destruct pre as [|c' pre].
        { simpl in Hs, Hp. subst suf. congruence. }
        simpl in Hs. injection Hs as <- ->. exists pre, suf. now split.
Qed.

Lemma matchAll_found (s : string) :
  matchAll P s <> []
  <-> exists pre suf, s = pre ++ suf /\ P (last_char pre) suf <> None.
Proof. apply matchAll_from_found. Qed.

End MatchAllFacts.

(** *** The three patterns at one position *)

Lemma dollar_group_found (s : string) :
  dollar_group s <> None
  <-> exists d post, s = String d post /\ is_digit d = true.
Proof.
  destruct s as [|d post].
  - split; [intros H; now contradiction H|].
    intros (d & post & H & _). discriminate H.
  - unfold dollar_group.
    change (span_upto 3 is_digit (String d post))
      with (if is_digit d
            then let (m, rest) := span_upto 2 is_digit post in
                 (String d m, rest)
            else ("", String d post)).
    change (span is_digit (String d post))
      with (if is_digit d
            then let (m, rest) := span is_digit post in (String d m, rest)
            else ("", String d post)).
    destruct (is_digit d) eqn:E.
    + split; [intros _; now exists d, post|]. intros _.
      destruct (span_upto 2 is_digit post) as [m rest].
      destruct (comma_groups (length rest) rest) as [g rest'].
      destruct (cents_opt rest') as [c r]. cbv beta iota. discriminate.
    + split; [intros H; now contradiction H|].
      intros (d' & post' & H & Hd). injection H as <- <-. congruence.
Qed.

Lemma dollarPattern_found (prev : option ascii) (s : string) :
  dollarPattern prev s <> None
  <-> exists d post,
        s = String dollar_sign (String d post) /\ is_digit d = true.
Proof.
  unfold dollarPattern. destruct s as [|c s'].
  - split; [intros H; now contradiction H|].
    intros (d & post & H & _). discriminate H.
  - destruct (Ascii.eqb c dollar_sign) eqn:E.
    + apply Ascii.eqb_eq in E. subst c.
      destruct (dollar_group s') as [g|] eqn:G.
      * split; [|discriminate]. intros _.
        assert (H : dollar_group s' <> None) by congruence.
        apply dollar_group_found in H. destruct H as (d & post & -> & Hd).
        now exists d, post.
      * split; [intros H; now contradiction H|].
        intros (d & post & H & Hd). injection H as ->.
        assert (H : dollar_group (String d post) <> None)
          by (apply dollar_group_found; now exists d, post).
        congruence.
    + split; [intros H; now contradiction H|].
      intros (d & post & H & _). injection H as -> _.
      now rewrite Ascii.eqb_refl in E.
Qed.

Lemma alt_ci_boundary_found (ws : list string) (prev : option ascii) (s : string) :
  alt_ci_boundary ws prev s <> None
  <-> exists k m rest,
        In k ws /\ literal_ci k s = Some (m, rest)
        /\ boundary (last_or prev m) (head rest) = true.
Proof.
  induction ws as [|w ws IH]; cbn [alt_ci_boundary].
  - split; [intros H; now contradiction H|].
    intros (k & m & rest & [] & _).
  - destruct (literal_ci w s) as [[m rest]|] eqn:E.
    + destruct (boundary (last_or prev m) (head rest)) eqn:B.
      * split; [|discriminate]. intros _.
        exists w, m, rest. now split; [left|].
      * rewrite IH. split.
        -- intros (k & m' & rest' & Hin & Hl & Hb).
           exists k, m', rest'. now split; [right|].
        -- intros (k & m' & rest' & [<-|Hin] & Hl & Hb).
           ++ rewrite E in Hl. injection Hl as <- <-. congruence.
           ++ now exists k, m', rest'.
    + rewrite IH. split.
      * intros (k & m' & rest' & Hin & Hl & Hb).
        exists k, m', rest'. now split; [right|].
      * intros (k & m' & rest' & [<-|Hin] & Hl & Hb); [congruence|].
        now exists k, m', rest'.
Qed.

Lemma keyword_chars (w k : string) (prev : option ascii) :
  fold_case w = k -> k <> "" -> all_chars is_word k = true ->
  word_at (head w) = true /\ word_at (last_or prev w) = true.
Proof.
  intros Hf Hne Hall.
  assert (Hw : all_chars is_word w = true)
    by (now rewrite <- all_chars_fold_word, Hf).
  assert (Hwne : w <> "").
  { intros ->. simpl in Hf. congruence. }
  split.
  - destruct w as [|c w']; [congruence|]. simpl in *.
    now apply andb_prop in Hw.
  - destruct (last_or_all is_word prev w Hwne Hw) as (c & -> & Hc). exact Hc.
Qed.

Lemma head_append (a b : string) : a <> "" -> head (a ++ b) = head a.
Proof. destruct a; [congruence|reflexivity]. Qed.

Lemma frequencyPattern_found (prev : option ascii) (s : string) :
  frequencyPattern prev s <> None
  <-> word_at prev = false
      /\ exists w post,
           s = w ++ post /\ frequency_keyword w
           /\ word_at (head post) = false.
Proof.
  unfold frequencyPattern. split.
  - destruct (boundary prev (head s)) eqn:B; [|intros H; now contradiction H].
    rewrite alt_ci_boundary_found.
    intros (k & m & rest & Hin & Hl & Hb).
    destruct (literal_ci_sound _ _ _ _ Hl) as [-> Hf].
    assert (Hk : fold_case k = k /\ k <> "" /\ all_chars is_word k = true
                 /\ frequency_keyword m).
    { unfold frequency_keyword. rewrite Hf.
      cbn [In] in Hin. destruct Hin as [<-|[<-|[<-|[]]]];
        (split; [reflexivity|]); (split; [discriminate|]);
        (split; [reflexivity|]); cbn; tauto. }
    destruct Hk as (Hkk & Hne & Hall & Hkw). rewrite Hkk in Hf.
    destruct (keyword_chars m k prev Hf Hne Hall) as [Hh Hl'].
    assert (Hm : m <> "") by (intros ->; simpl in Hf; congruence).
    rewrite head_append in B by exact Hm.
    unfold boundary in B, Hb. rewrite Hh in B. rewrite Hl' in Hb.
    split; [now destruct (word_at prev)|].
    exists m, rest. split; [reflexivity|]. split; [exact Hkw|].
    now destruct (word_at (head rest)).
  - intros (Hp & w & post & -> & Hkw & Hpost).
    assert (Hk : exists k, In k ["weekly"; "biweekly"; "monthly"]
                           /\ fold_case w = k /\ fold_case k = k
                           /\ k <> "" /\ all_chars is_word k = true).
    { exists (fold_case w).
      destruct Hkw as [H|[H|H]]; rewrite H;
        (split; [cbn; tauto|]); (split; [reflexivity|]);
        (split; [reflexivity|]); (split; [discriminate|reflexivity]). }
    destruct Hk as (k & Hin & Hf & Hkk & Hne & Hall).
    destruct (keyword_chars w k prev Hf Hne Hall) as [Hh Hl'].
    assert (Hw : w <> "") by (intros ->; simpl in Hf; congruence).
    rewrite head_append by exact Hw.
    unfold boundary at 1. rewrite Hp, Hh. cbn [xorb].
    apply alt_ci_boundary_found. exists k, w, post.
    split; [exact Hin|]. split.
    + apply literal_ci_complete. congruence.
    + unfold boundary. now rewrite Hl', Hpost.
Qed.

Lemma alt_ci_for_over (kw rest : string) :
  fold_case kw = "for" \/ fold_case kw = "over" ->
  alt_ci ["for"; "over"] (kw ++ rest) = Some (kw, rest).
Proof.
  intros [H|H]; cbn [alt_ci].
  - now rewrite (literal_ci_complete "for" kw rest H).
  - destruct (fold_case_cons _ _ _ H) as (c & kw' & -> & Hc & _).
    change (String c kw' ++ rest) with (String c (kw' ++ rest)).
    rewrite literal_ci_head_mismatch
      by (rewrite Hc; vm_compute; discriminate).
    change (String c (kw' ++ rest)) with (String c kw' ++ rest).
    now rewrite (literal_ci_complete "over" (String c kw') rest H).
Qed.

Lemma stops_space_at_digits (digits rest : string) :
  digits <> "" -> all_chars is_digit digits = true ->
  stops is_space (digits ++ rest).
Proof.
  destruct digits as [|c d]; [congruence|]. simpl. intros _ H.
  apply andb_prop in H. now apply digit_not_space.
Qed.

Lemma stops_digit_at_spaces (sp rest : string) :
  sp <> "" -> all_chars is_space sp = true ->
  stops is_digit (sp ++ rest).
Proof.
  destruct sp as [|c d]; [congruence|]. simpl. intros _ H.
  apply andb_prop in H. now apply space_not_digit.
Qed.

Lemma stops_space_at_word (w k rest : string) :
  fold_case w = k -> k <> "" -> all_chars is_word k = true ->
  stops is_space (w ++ rest).
Proof.
  intros Hf Hne Hall.
  destruct (keyword_chars w k None Hf Hne Hall) as [Hh _].
  destruct w as [|c w']; [simpl in Hf; congruence|].
  simpl in *. now apply word_not_space.
Qed.

Lemma termPattern_found (prev : option ascii) (s : string) :
  termPattern prev s <> None
  <-> exists kw sp1 digits sp2 unit_ post,
        s = kw ++ sp1 ++ digits ++ sp2 ++ unit_ ++ post
        /\ (fold_case kw = "for" \/ fold_case kw = "over")
        /\ sp1 <> "" /\ all_chars is_space sp1 = true
        /\ digits <> "" /\ all_chars is_digit digits = true
        /\ sp2 <> "" /\ all_chars is_space sp2 = true
        /\ (fold_case unit_ = "week" \/ fold_case unit_ = "month"
            \/ fold_case unit_ = "payment"
            \/ fold_case unit_ = "installment").
Proof.
  unfold termPattern. split.
  - destruct (alt_ci ["for"; "over"] s) as [[kw r1]|] eqn:E1;
      [|intros H; now contradiction H].
    destruct (span is_space r1) as [sp1 r2] eqn:E2.
    destruct sp1 as [|c1 sp1']; [intros H; now contradiction H|].
    destruct (span is_digit r2) as [digits r3] eqn:E3.
    destruct digits as [|c2 digits']; [intros H; now contradiction H|].
    destruct (span is_space r3) as [sp2 r4] eqn:E4.
    destruct sp2 as [|c3 sp2']; [intros H; now contradiction H|].
    destruct (alt_ci ["week"; "month"; "payment"; "installment"] r4)
      as [[unit_ post]|] eqn:E5; [|intros H; now contradiction H].
    intros _.
    destruct (alt_ci_sound _ _ _ _ E1) as [-> (k1 & Hin1 & Hf1)].
    destruct (span_sound _ _ _ _ E2) as [-> Ha2].
    destruct (span_sound _ _ _ _ E3) as [-> Ha3].
    destruct (span_sound _ _ _ _ E4) as [-> Ha4].
    destruct (alt_ci_sound _ _ _ _ E5) as [-> (k5 & Hin5 & Hf5)].
    exists kw, (String c1 sp1'), (String c2 digits'), (String c3 sp2'),
      unit_, post.
    split; [reflexivity|]. split.
    { cbn [In] in Hin1. destruct Hin1 as [<-|[<-|[]]]; rewrite Hf1; cbn; tauto. }
    split; [discriminate|]. split; [exact Ha2|].
    split; [discriminate|]. split; [exact Ha3|].
    split; [discriminate|]. split; [exact Ha4|].
    cbn [In] in Hin5.
    destruct Hin5 as [<-|[<-|[<-|[<-|[]]]]]; rewrite Hf5; cbn; tauto.
  - intros (kw & sp1 & digits & sp2 & unit_ & post & -> & Hkw & Hn1 & Ha1
            & Hn2 & Ha2 & Hn3 & Ha3 & Hu).
    rewrite (alt_ci_for_over kw _ Hkw).
    rewrite (span_complete is_space sp1 _ Ha1
               (stops_space_at_digits digits _ Hn2 Ha2)).
    destruct sp1 as [|c1 sp1']; [congruence|].
    rewrite (span_complete is_digit digits _ Ha2
               (stops_digit_at_spaces sp2 _ Hn3 Ha3)).
    destruct digits as [|c2 digits']; [congruence|].
    assert (Hk : exists k,
               In k ["week"; "month"; "payment"; "installment"]
               /\ fold_case unit_ = k /\ fold_case k = k
               /\ k <> "" /\ all_chars is_word k = true).
    { exists (fold_case unit_).
      destruct Hu as [H|[H|[H|H]]]; rewrite H;
        (split; [cbn; tauto|]); (split; [reflexivity|]);
        (split; [reflexivity|]); (split; [discriminate|reflexivity]). }
    destruct Hk as (k & Hin & Hf & Hkk & Hne & Hall).
    rewrite (span_complete is_space sp2 _ Ha3
               (stops_space_at_word unit_ k post Hf Hne Hall)).
    destruct sp2 as [|c3 sp2']; [congruence|].
    pose proof (alt_ci_complete _ k unit_ post Hin
                  ltac:(congruence)) as Hc.
    destruct (alt_ci ["week"; "month"; "payment"; "installment"]
                (unit_ ++ post)) as [[u p]|]; [discriminate|congruence].
Qed.

(** *** Texts that contain what the patterns look for *)

Lemma dollarMatches_found (text : string) :
  matchAll dollarPattern text <> [] <-> has_dollar_token text.
Proof.
  rewrite (matchAll_found dollarPattern (fun _ => eq_refl)).
  unfold has_dollar_token. split.
  - intros (pre & suf & -> & H). apply dollarPattern_found in H.
    destruct H as (d & post & -> & Hd). now exists pre, d, post.
  - intros (pre & d & post & -> & Hd).
    exists pre, (String dollar_sign (String d post)).
    split; [reflexivity|]. apply dollarPattern_found. now exists d, post.
Qed.

Lemma frequencyPattern_empty (prev : option ascii) :
  frequencyPattern prev "" = None.
Proof. unfold frequencyPattern. now destruct (boundary prev (head "")). Qed.

Lemma frequencyMatches_found (text : string) :
  matchAll frequencyPattern text <> [] <-> has_frequency_keyword text.
Proof.
  rewrite (matchAll_found frequencyPattern frequencyPattern_empty).
  unfold has_frequency_keyword. split.
  - intros (pre & suf & -> & H). apply frequencyPattern_found in H.
    destruct H as (Hp & w & post & -> & Hk & Hpost).
    now exists pre, w, post.
  - intros (pre & w & post & -> & Hk & Hp & Hpost).
    exists pre, (w ++ post). split; [reflexivity|].
    apply frequencyPattern_found. split; [exact Hp|]. now exists w, post.
Qed.

Lemma termMatches_found (text : string) :
  matchAll termPattern text <> [] <-> has_term_phrase text.
Proof.
  rewrite (matchAll_found termPattern (fun _ => eq_refl)).
  unfold has_term_phrase. split.
  - intros (pre & suf & -> & H). apply termPattern_found in H.
    destruct H as (kw & sp1 & digits & sp2 & unit_ & post & -> & H).
    now exists pre, kw, sp1, digits, sp2, unit_, post.
  - intros (pre & kw & sp1 & digits & sp2 & unit_ & post & -> & H).
    exists pre, (kw ++ sp1 ++ digits ++ sp2 ++ unit_ ++ post).
    split; [reflexivity|]. apply termPattern_found.
    now exists kw, sp1, digits, sp2, unit_, post.
Qed.

(** ** The extractor *)

Lemma extractPaymentPlan_cases (text : string) (debt : Z) :
  (matchAll dollarPattern text <> []
   /\ matchAll frequencyPattern text <> []
   /\ found (extractPaymentPlan text debt) = true
   /\ exists p,
        plan (extractPaymentPlan text debt) = Some p
        /\ (matchAll termPattern text = [] ->
            extracted_termLength p
            = Math_ceil (double (num debt / double (extracted_amount p)))))
  \/ ((matchAll dollarPattern text = []
       \/ matchAll frequencyPattern text = [])
      /\ extractPaymentPlan text debt = {| found := false; plan := None |}).
Proof.
  unfold extractPaymentPlan. cbv zeta.
  destruct (matchAll dollarPattern text) as [|d0 ds];
    [right; split; [now left|reflexivity]|].
  destruct (matchAll frequencyPattern text) as [|f0 fs];
    [right; split; [now right|reflexivity]|].
  left. split; [discriminate|]. split; [discriminate|].
  split; [reflexivity|].
  eexists. split; [reflexivity|].
  intros ->. reflexivity.
Qed.

(** An amount without cents is the whole number it stands for. *)
Lemma whole_value (q : Q) (a : Z) : whole q = Some a -> (q == inject_Z a)%Q.
Proof.
  unfold whole. intros H. rewrite <- (Qred_correct q).
  destruct (Qred q) as [n d]. cbn [Qnum Qden] in H.
  destruct (Z.pos d =? 1) eqn:E; [|discriminate H].
  injection H as <-. apply Z.eqb_eq in E. injection E as ->. reflexivity.
Qed.



(** ** Worked scenarios *)

Example scenario_weekly_accept :
  evaluateAndNegotiate (mkProposal 25 "weekly" 48) 1200 ""
    (mkResponse "" true None) initial_state
  = ({| message := "This is a reasonable payment plan.";
        isBot := true;
        displayType := paymentPlans;
        displayData :=
          Plans [ {| frequency := "weekly"; amount := 25; termLength := 48;
                     totalAmount := 1200 |} ] |},
     {| currentDebtAmount := 2400; negotiationStage := 1 |}).
Proof. reflexivity. Qed.

Example scenario_finalize_refused :
  getMinimumPayment "monthly" 2400 = 192
  /\ displayData
       (fst (finalizePlan (mkPaymentPlan "monthly" 50 12 2400) "" "done"
               initial_state))
     = Plans [ {| frequency := "monthly"; amount := 192; termLength := 13;
                  totalAmount := 2400 |} ].
Proof. split; reflexivity. Qed.

Example scenario_finalize_link :
  displayData
    (fst (finalizePlan (mkPaymentPlan "monthly" 240 10 2400) "" "done"
            (mkState 2400 3)))
  = Final {| final_frequency := "monthly"; final_amount := 240;
             final_termLength := 10; final_totalAmount := 2400;
             paymentLink :=
               Some "collectwise.com/payments?termLength=10&totalDebtAmount=2400&termPaymentAmount=240" |}
  /\ negotiationStage
       (snd (finalizePlan (mkPaymentPlan "monthly" 240 10 2400) "" "done"
               (mkState 2400 3))) = 0.
Proof. split; reflexivity. Qed.

Example scenario_first_alternative :
  matchAll dollarPattern "$1200 or $1,200.50" = ["120"; "1,200.50"]
  /\ option_map extracted_amount
       (plan (extractPaymentPlan "$1,200.50 biweekly" 2400))
     = Some (1200 + 50 / 100)%Q.
Proof. split; reflexivity. Qed.

(** ** Term lengths handed to the builder

    For a positive debt and a positive proposed amount, every counter-offer
    that the two negotiating entry points request from the builder has a
    positive term length, the case in which the builder's displayed product
    stays within the total. *)

Lemma reconciled_term_pos (debt s : Z) :
  0 < debt -> 0 < s -> 0 < Math_ceil (num debt / num s).
Proof. intros Hd Hs. rewrite Math_ceil_div. now apply cdiv_pos. Qed.

Ltac counter_with_positive_term :=
  do 3 eexists; split; cycle 1; [reflexivity|];
  first
    [ lia
    | apply reconciled_term_pos;
      [ assumption
      | first [ assumption
              | apply Math_ceil_scale_pos;
                [now apply getMinimumPayment_pos | lia]
              | apply hardship_amount_pos; now apply getMinimumPayment_pos ] ] ].

Lemma evaluateAndNegotiate_counter_term
    (p : Proposal) (debt : Z) (userSituation : string)
    (response : Response) (st : State) :
  0 < debt -> 0 < proposal_amount p ->
  evaluate_accepts p debt = false ->
  exists sys f t,
    0 < t
    /\ evaluateAndNegotiate p debt userSituation response st
       = createCounterProposal sys f t debt "" st.
Proof.
  intros Hd Ha.
  unfold evaluate_accepts, evaluateAndNegotiate. cbv zeta.
  destruct (array_includes allowedFrequencies (proposal_frequency p));
    [|intros _; counter_with_positive_term].
  destruct (proposal_amount p * proposal_termLength p <? debt).
  { intros _. destruct (proposal_amount p <? _);
      counter_with_positive_term. }
  destruct (proposal_amount p <? _).
  { intros _.
    match goal with
    | |- context [if ?h then Math_ceil _ else _] => destruct h
    end; counter_with_positive_term. }
  destruct (proposal_amount p * proposal_termLength p =? debt);
    [discriminate|].
  intros _. counter_with_positive_term.
Qed.

Lemma suggestPlan_counter_term
    (p : Proposal) (debt : Z) (userSituation msg : string) (st : State) :
  0 < debt -> 0 < proposal_amount p ->
  suggest_accepts p debt userSituation (negotiationStage st) = false ->
  exists sys f t,
    0 < t
    /\ suggestPlan p debt userSituation msg st
       = createCounterProposal sys f t debt msg st.
Proof.
  intros Hd Ha.
  unfold suggest_accepts, suggest_hardship, suggestPlan. cbv zeta.
  destruct (array_includes allowedFrequencies (proposal_frequency p));
    [|intros _; counter_with_positive_term].
  destruct (proposal_amount p * proposal_termLength p =? debt);
    [|intros _; counter_with_positive_term].
  cbn [negb andb]. unfold bind at 1. unfold getStage at 1.
  destruct ((proposal_amount p <? _) && (negotiationStage st <? 2));
    [intros _; counter_with_positive_term|].
  cbn [negb andb].
  match goal with
  | |- negb ?h = false -> _ =>
      destruct h; [intros _; counter_with_positive_term|discriminate]
  end.
Qed.

(** * Further properties of the engine *)

(** ** Every response of the two negotiating entry points *)

Ltac counter_shape :=
  do 2 eexists; split; [reflexivity|];
  intros; first
    [ lia
    | apply reconciled_term_pos;
      [ assumption
      | first [ assumption
              | apply Math_ceil_scale_pos;
                [now apply getMinimumPayment_pos | lia]
              | apply hardship_amount_pos; now apply getMinimumPayment_pos ] ] ].

Lemma evaluateAndNegotiate_counter_shape
    (p : Proposal) (debt : Z) (userSituation : string)
    (response : Response) (st : State) :
  evaluate_accepts p debt = false ->
  exists sys t,
    evaluateAndNegotiate p debt userSituation response st
    = createCounterProposal sys (shown_frequency (proposal_frequency p)) t
        debt "" st
    /\ (0 < debt -> 0 < proposal_amount p -> 0 < t).
Proof.
  unfold evaluate_accepts, evaluateAndNegotiate, shown_frequency. cbv zeta.
  destruct (array_includes allowedFrequencies (proposal_frequency p));
    [|intros _; counter_shape].
  destruct (proposal_amount p * proposal_termLength p <? debt).
  { intros _. destruct (proposal_amount p <? _); counter_shape. }
  destruct (proposal_amount p <? _).
  { intros _.
    match goal with
    | |- context [if ?h then Math_ceil _ else _] => destruct h
    end; counter_shape. }
  destruct (proposal_amount p * proposal_termLength p =? debt);
    [discriminate|].
  intros _. counter_shape.
Qed.

Lemma suggestPlan_counter_shape
    (p : Proposal) (debt : Z) (userSituation msg : string) (st : State) :
  suggest_accepts p debt userSituation (negotiationStage st) = false ->
  exists sys t,
    suggestPlan p debt userSituation msg st
    = createCounterProposal sys (shown_frequency (proposal_frequency p)) t
        debt msg st
    /\ (0 < debt -> 0 < proposal_amount p -> 0 < t).
Proof.
  unfold suggest_accepts, suggest_hardship, suggestPlan, shown_frequency.
  cbv zeta.
  destruct (array_includes allowedFrequencies (proposal_frequency p));
    [|intros _; counter_shape].
  destruct (proposal_amount p * proposal_termLength p =? debt);
    [|intros _; counter_shape].
  cbn [negb andb]. unfold bind at 1. unfold getStage at 1.
  destruct ((proposal_amount p <? _) && (negotiationStage st <? 2));
    [intros _; counter_shape|].
  cbn [negb andb].
  match goal with
  | |- negb ?h = false -> _ =>
      destruct h; [intros _; counter_shape|discriminate]
  end.
Qed.

Lemma shown_frequency_allowed (freq : string) :
  array_includes allowedFrequencies (shown_frequency freq) = true.
Proof.
  unfold shown_frequency.
  destruct (array_includes allowedFrequencies freq) eqn:E;
    [exact E|reflexivity].
Qed.

Lemma shown_frequency_id (freq : string) :
  array_includes allowedFrequencies freq = true -> shown_frequency freq = freq.
Proof. unfold shown_frequency. now intros ->. Qed.

Lemma counter_is_negotiation_response
    (sys freq : string) (t debt : Z) (um : string) (st : State) (a : Z) :
  (0 < debt -> 0 < a -> 0 < t) ->
  negotiation_response
    (fst (createCounterProposal sys (shown_frequency freq) t debt um st))
    freq a t debt.
Proof.
  intros Ht.
  destruct (createCounterProposal_data sys (shown_frequency freq) t debt um st)
    as [Hd Hty].
  eexists. split; [exact Hd|]. split; [exact Hty|].
  split; [reflexivity|]. split; [reflexivity|]. split; [reflexivity|].
  intros Hdebt Ha. specialize (Ht Hdebt Ha).
  cbn [termLength amount].
  pose proof (fdiv_bounds debt t Ht) as Hb.
  assert (0 <= debt / t) by (apply Z.div_pos; lia).
  repeat split; lia.
Qed.

Lemma evaluateAndNegotiate_response
    (p : Proposal) (debt : Z) (userSituation : string)
    (response : Response) (st : State) :
  exists t,
    negotiation_response
      (fst (evaluateAndNegotiate p debt userSituation response st))
      (proposal_frequency p) (proposal_amount p) t debt.
Proof.
  destruct (evaluate_accepts p debt) eqn:E.
  - rewrite (evaluateAndNegotiate_accept _ _ userSituation response st E).
    apply evaluate_accepts_iff in E. destruct E as (Hf & Hprod & Hmin).
    exists (proposal_termLength p). eexists.
    cbn [fst displayData displayType isBot].
    split; [reflexivity|]. split; [reflexivity|]. split; [reflexivity|].
    cbn [totalAmount frequency termLength amount].
    split; [reflexivity|]. split; [now rewrite shown_frequency_id|].
    intros Hd Ha. nia.
  - destruct (evaluateAndNegotiate_counter_shape p debt userSituation response
                st E) as (sys & t & -> & Ht).
    exists t. now apply counter_is_negotiation_response.
Qed.

Lemma suggestPlan_response
    (p : Proposal) (debt : Z) (userSituation msg : string) (st : State) :
  exists t,
    negotiation_response (fst (suggestPlan p debt userSituation msg st))
      (proposal_frequency p) (proposal_amount p) t debt.
Proof.
  destruct (suggest_accepts p debt userSituation (negotiationStage st)) eqn:E.
  - rewrite (suggestPlan_accept _ _ _ msg _ E).
    apply suggest_accepts_iff in E. destruct E as (Hf & Hprod & _).
    exists (proposal_termLength p). eexists.
    cbn [fst displayData displayType isBot].
    split; [reflexivity|]. split; [reflexivity|]. split; [reflexivity|].
    cbn [totalAmount frequency termLength amount].
    split; [reflexivity|]. split; [now rewrite shown_frequency_id|].
    intros Hd Ha. nia.
  - destruct (suggestPlan_counter_shape p debt userSituation msg st E)
      as (sys & t & -> & Ht).
    exists t. now apply counter_is_negotiation_response.
Qed.

(** X1.  Whatever the proposal, the debt, the situation text and the stage,
    [evaluateAndNegotiate] and [suggestPlan] answer with a bot message of
    kind [paymentPlans] that carries exactly one plan; its total is the debt
    argument and its frequency is the requested one when that is allowed and
    "monthly" otherwise, so it is always one of weekly, biweekly and
    monthly.  Neither function ever answers with a terminal agreement. *)
Theorem negotiation_response_shape
    (p : Proposal) (debt : Z) (userSituation : string)
    (response : Response) (msg : string) (st : State) :
  (exists pl,
     displayData (fst (evaluateAndNegotiate p debt userSituation response st))
     = Plans [pl]
     /\ displayType
          (fst (evaluateAndNegotiate p debt userSituation response st))
        = paymentPlans
     /\ isBot (fst (evaluateAndNegotiate p debt userSituation response st))
        = true
     /\ totalAmount pl = debt
     /\ frequency pl = shown_frequency (proposal_frequency p)
     /\ array_includes allowedFrequencies (frequency pl) = true)
  /\ (exists pl,
        displayData (fst (suggestPlan p debt userSituation msg st))
        = Plans [pl]
        /\ displayType (fst (suggestPlan p debt userSituation msg st))
           = paymentPlans
        /\ isBot (fst (suggestPlan p debt userSituation msg st)) = true
        /\ totalAmount pl = debt
        /\ frequency pl = shown_frequency (proposal_frequency p)
        /\ array_includes allowedFrequencies (frequency pl) = true).
Proof.
  split.
  - destruct (evaluateAndNegotiate_response p debt userSituation response st)
      as (t & pl & Hd & Hty & Hb & Htot & Hf & _).
    exists pl. repeat split; try assumption.
    rewrite Hf. apply shown_frequency_allowed.
  - destruct (suggestPlan_response p debt userSituation msg st)
      as (t & pl & Hd & Hty & Hb & Htot & Hf & _).
    exists pl. repeat split; try assumption.
    rewrite Hf. apply shown_frequency_allowed.
Qed.

(** X2.  For a positive debt and a positive proposed amount, the plan shown
    by [evaluateAndNegotiate] or [suggestPlan] has a term length of at least
    one and a non-negative amount, and its displayed product
    [amount * termLength] never exceeds the debt and falls short of it by
    less than [termLength]. *)
Theorem negotiation_plan_within_debt
    (p : Proposal) (debt : Z) (userSituation : string)
    (response : Response) (msg : string) (st : State) :
  0 < debt -> 0 < proposal_amount p ->
  (exists pl,
     displayData (fst (evaluateAndNegotiate p debt userSituation response st))
     = Plans [pl]
     /\ 1 <= termLength pl
     /\ 0 <= amount pl
     /\ amount pl * termLength pl <= debt
     /\ debt - amount pl * termLength pl < termLength pl)
  /\ (exists pl,
        displayData (fst (suggestPlan p debt userSituation msg st))
        = Plans [pl]
        /\ 1 <= termLength pl
        /\ 0 <= amount pl
        /\ amount pl * termLength pl <= debt
        /\ debt - amount pl * termLength pl < termLength pl).
Proof.
  intros Hd Ha. split.
  - destruct (evaluateAndNegotiate_response p debt userSituation response st)
      as (t & pl & Hdata & _ & _ & _ & _ & Hb).
    destruct (Hb Hd Ha) as (H1 & H2 & H3 & H4).
    exists pl. repeat split; try assumption; lia.
  - destruct (suggestPlan_response p debt userSituation msg st)
      as (t & pl & Hdata & _ & _ & _ & _ & Hb).
    destruct (Hb Hd Ha) as (H1 & H2 & H3 & H4).
    exists pl. repeat split; try assumption; lia.
Qed.

Lemma negotiation_plan_within_debt_witness :
  (exists pl,
     displayData
       (fst (evaluateAndNegotiate (mkProposal 500 "monthly" 5) 2400 ""
               (mkResponse "" true None) initial_state))
     = Plans [pl]
     /\ 1 <= termLength pl
     /\ 0 <= amount pl
     /\ amount pl * termLength pl <= 2400
     /\ 2400 - amount pl * termLength pl < termLength pl)
  /\ (exists pl,
        displayData
          (fst (suggestPlan (mkProposal 500 "monthly" 5) 2400 "" "ok"
                  initial_state))
        = Plans [pl]
        /\ 1 <= termLength pl
        /\ 0 <= amount pl
        /\ amount pl * termLength pl <= 2400
        /\ 2400 - amount pl * termLength pl < termLength pl).
Proof.
  apply (negotiation_plan_within_debt (mkProposal 500 "monthly" 5) 2400 ""
           (mkResponse "" true None) "ok" initial_state); reflexivity.
Defined.

(** ** The remaining branches of [evaluateAndNegotiate] *)

Lemma counter_plan_for_amount
    (sys freq : string) (debt s : Z) (um : string) (st : State) :
  0 < debt -> 0 < s ->
  exists pl,
    displayData
      (fst (createCounterProposal sys freq (Math_ceil (num debt / num s)) debt
              um st)) = Plans [pl]
    /\ frequency pl = freq
    /\ totalAmount pl = debt
    /\ termLength pl = Math_ceil (num debt / num s)
    /\ amount pl = Math_floor (num debt / num (termLength pl))
    /\ 0 < termLength pl
    /\ (termLength pl - 1) * s < debt <= termLength pl * s
    /\ amount pl <= s
    /\ (amount pl = s <-> (s | debt)).
Proof.
  intros Hd Hs.
  destruct (createCounterProposal_data sys freq (Math_ceil (num debt / num s))
              debt um st) as [Hdata _].
  eexists. split; [exact Hdata|].
  cbn [frequency totalAmount termLength amount].
  rewrite Math_floor_div, Math_ceil_div.
  destruct (reconciled_amount debt s Hd Hs) as (H1 & H2 & H3).
  pose proof (cdiv_bounds debt s Hs) as Hc.
  repeat split; try assumption; try lia; apply H3.
Qed.

Lemma evaluateAndNegotiate_keep
    (p : Proposal) (debt : Z) (userSituation : string)
    (response : Response) (st : State) :
  array_includes allowedFrequencies (proposal_frequency p) = true ->
  proposal_amount p * proposal_termLength p < debt ->
  getMinimumPayment (proposal_frequency p) debt <= proposal_amount p ->
  evaluateAndNegotiate p debt userSituation response st
  = createCounterProposal
      "Your payment amount looks good, but we need to adjust the term to cover the full debt."
      (proposal_frequency p)
      (Math_ceil (num debt / num (proposal_amount p)))
      debt "" st.
Proof.
  intros Hf Ht Ha. unfold evaluateAndNegotiate. cbv zeta.
  rewrite Hf. cbn [negb].
  apply Z.ltb_lt in Ht. apply Z.ltb_ge in Ha. rewrite Ht, Ha. reflexivity.
Qed.

Lemma evaluateAndNegotiate_overshoot
    (p : Proposal) (debt : Z) (userSituation : string)
    (response : Response) (st : State) :
  array_includes allowedFrequencies (proposal_frequency p) = true ->
  debt < proposal_amount p * proposal_termLength p ->
  getMinimumPayment (proposal_frequency p) debt <= proposal_amount p ->
  evaluateAndNegotiate p debt userSituation response st
  = createCounterProposal
      "Let me adjust the payment term slightly to make sure it covers the full debt."
      (proposal_frequency p)
      (Math_ceil (num debt / num (proposal_amount p)))
      debt "" st.
Proof.
  intros Hf Ht Ha. unfold evaluateAndNegotiate. cbv zeta.
  rewrite Hf. cbn [negb].
  assert (E1 : (proposal_amount p * proposal_termLength p <? debt) = false)
    by (apply Z.ltb_ge; lia).
  assert (E2 : (proposal_amount p * proposal_termLength p =? debt) = false)
    by (apply Z.eqb_neq; lia).
  apply Z.ltb_ge in Ha. rewrite E1, Ha, E2. reflexivity.
Qed.

Lemma evaluateAndNegotiate_under_floor_covered
    (p : Proposal) (debt : Z) (userSituation : string)
    (response : Response) (st : State) :
  array_includes allowedFrequencies (proposal_frequency p) = true ->
  debt <= proposal_amount p * proposal_termLength p ->
  proposal_amount p < getMinimumPayment (proposal_frequency p) debt ->
  evaluate_hardship userSituation = false ->
  evaluateAndNegotiate p debt userSituation response st
  = createCounterProposal
      "We need to increase the payment amount to make this a viable arrangement."
      (proposal_frequency p)
      (Math_ceil
         (num debt
          / num (Math_ceil
                   (num (getMinimumPayment (proposal_frequency p) debt)
                    * 1.25))))
      debt "" st.
Proof.
  intros Hf Ht Ha Hh. unfold evaluateAndNegotiate. cbv zeta.
  rewrite Hf. cbn [negb].
  assert (E1 : (proposal_amount p * proposal_termLength p <? debt) = false)
    by (apply Z.ltb_ge; lia).
  apply Z.ltb_lt in Ha. rewrite E1, Ha.
  unfold evaluate_hardship in Hh. rewrite Hh. reflexivity.
Qed.

(** X3.  When [evaluateAndNegotiate] is given an allowed frequency and an
    amount at or above the minimum whose product with the term stays below a
    positive debt, it keeps the frequency, stretches the term to
    [ceil (debt / amount)], which is longer than the proposed term, and
    shows the amount [floor (debt / term)]: never more than the proposed
    amount, and the proposed amount itself exactly when that divides the
    debt. *)
Theorem evaluate_keeps_amount_stretches_term
    (p : Proposal) (debt : Z) (userSituation : string)
    (response : Response) (st : State) :
  array_includes allowedFrequencies (proposal_frequency p) = true ->
  0 < debt ->
  proposal_amount p * proposal_termLength p < debt ->
  getMinimumPayment (proposal_frequency p) debt <= proposal_amount p ->
  exists pl,
    displayData (fst (evaluateAndNegotiate p debt userSituation response st))
    = Plans [pl]
    /\ frequency pl = proposal_frequency p
    /\ totalAmount pl = debt
    /\ termLength pl = Math_ceil (num debt / num (proposal_amount p))
    /\ proposal_termLength p < termLength pl
    /\ amount pl = Math_floor (num debt / num (termLength pl))
    /\ amount pl <= proposal_amount p
    /\ (amount pl = proposal_amount p <-> (proposal_amount p | debt)).
Proof.
  intros Hf Hd Ht Ha.
  assert (Hpos : 0 < proposal_amount p).
  { pose proof (getMinimumPayment_pos (proposal_frequency p) debt Hd). lia. }
  rewrite (evaluateAndNegotiate_keep p debt userSituation response st Hf Ht Ha).
  destruct (counter_plan_for_amount
              "Your payment amount looks good, but we need to adjust the term to cover the full debt."
              (proposal_frequency p) debt (proposal_amount p) "" st Hd Hpos)
    as (pl & H0 & H1 & H2 & H3 & H4 & H5 & H6 & H7 & H8).
  exists pl. repeat split; try assumption; try apply H8. nia.
Qed.

Lemma evaluate_keeps_amount_stretches_term_witness :
  exists pl,
    displayData
      (fst (evaluateAndNegotiate (mkProposal 500 "monthly" 4) 2400 ""
              (mkResponse "" true None) initial_state))
    = Plans [pl]
    /\ frequency pl = "monthly"
    /\ totalAmount pl = 2400
    /\ termLength pl = Math_ceil (num 2400 / num 500)
    /\ 4 < termLength pl
    /\ amount pl = Math_floor (num 2400 / num (termLength pl))
    /\ amount pl <= 500
    /\ (amount pl = 500 <-> (500 | 2400)).
Proof.
  apply (evaluate_keeps_amount_stretches_term (mkProposal 500 "monthly" 4)
           2400 "" (mkResponse "" true None) initial_state);
    first [reflexivity | vm_compute; discriminate].
Defined.

(** X4.  When [evaluateAndNegotiate] is given an allowed frequency and an
    amount at or above the minimum whose product with the term exceeds a
    positive debt, the counter-offer never asks for more payments or a
    higher amount than proposed: its term is [ceil (debt / amount)], at most
    the proposed term, its amount is at most the proposed amount, and its
    displayed product is at most the debt, hence below the proposed
    product. *)
Theorem evaluate_overshoot_reconciles_down
    (p : Proposal) (debt : Z) (userSituation : string)
    (response : Response) (st : State) :
  array_includes allowedFrequencies (proposal_frequency p) = true ->
  0 < debt ->
  debt < proposal_amount p * proposal_termLength p ->
  getMinimumPayment (proposal_frequency p) debt <= proposal_amount p ->
  exists pl,
    displayData (fst (evaluateAndNegotiate p debt userSituation response st))
    = Plans [pl]
    /\ frequency pl = proposal_frequency p
    /\ totalAmount pl = debt
    /\ termLength pl = Math_ceil (num debt / num (proposal_amount p))
    /\ 1 <= termLength pl <= proposal_termLength p
    /\ amount pl <= proposal_amount p
    /\ amount pl * termLength pl <= debt.
Proof.
  intros Hf Hd Ht Ha.
  assert (Hpos : 0 < proposal_amount p).
  { pose proof (getMinimumPayment_pos (proposal_frequency p) debt Hd). lia. }
  rewrite (evaluateAndNegotiate_overshoot p debt userSituation response st
             Hf Ht Ha).
  destruct (counter_plan_for_amount
              "Let me adjust the payment term slightly to make sure it covers the full debt."
              (proposal_frequency p) debt (proposal_amount p) "" st Hd Hpos)
    as (pl & H0 & H1 & H2 & H3 & H4 & H5 & H6 & H7 & H8).
  exists pl. repeat split; try assumption; try lia; try nia.
  rewrite H4, Math_floor_div.
  pose proof (fdiv_bounds debt (termLength pl) H5). lia.
Qed.

Lemma evaluate_overshoot_reconciles_down_witness :
  exists pl,
    displayData
      (fst (evaluateAndNegotiate (mkProposal 500 "monthly" 6) 2400 ""
              (mkResponse "" true None) initial_state))
    = Plans [pl]
    /\ frequency pl = "monthly"
    /\ totalAmount pl = 2400
    /\ termLength pl = Math_ceil (num 2400 / num 500)
    /\ 1 <= termLength pl <= 6
    /\ amount pl <= 500
    /\ amount pl * termLength pl <= 2400.
Proof.
  apply (evaluate_overshoot_reconciles_down (mkProposal 500 "monthly" 6)
           2400 "" (mkResponse "" true None) initial_state);
    first [reflexivity | vm_compute; discriminate].
Defined.

(** X5.  For an allowed frequency, a positive debt and an amount below the
    minimum, the counter-offer of [evaluateAndNegotiate] does not depend on
    the proposed amount or term as long as the proposal falls short of the
    debt or the situation text holds none of the words hardship, laid off,
    medical and difficult (in any letter case): it is the plan with the term
    [ceil (debt / ceil (minimum * 1.25))], which is at least one, and the
    amount [floor (debt / term)].  In particular a hardship word is ignored
    when the proposal does not cover the debt. *)
Theorem evaluate_under_floor_counter
    (p : Proposal) (debt : Z) (userSituation : string)
    (response : Response) (st : State) :
  array_includes allowedFrequencies (proposal_frequency p) = true ->
  0 < debt ->
  proposal_amount p < getMinimumPayment (proposal_frequency p) debt ->
  proposal_amount p * proposal_termLength p < debt
  \/ evaluate_hardship userSituation = false ->
  let term :=
    Math_ceil
      (num debt
       / num (Math_ceil
                (num (getMinimumPayment (proposal_frequency p) debt) * 1.25)))
  in
  1 <= term
  /\ displayData
       (fst (evaluateAndNegotiate p debt userSituation response st))
     = Plans [ {| frequency := proposal_frequency p;
                  amount := Math_floor (num debt / num term);
                  termLength := term;
                  totalAmount := debt |} ].
Proof.
  intros Hf Hd Ha Hcase term.
  assert (Hterm : 0 < term).
  { apply reconciled_term_pos; [exact Hd|].
    apply Math_ceil_scale_pos; [now apply getMinimumPayment_pos|lia]. }
  split; [lia|].
  destruct (Z_lt_le_dec (proposal_amount p * proposal_termLength p) debt)
    as [Hlt|Hge].
  - rewrite (evaluateAndNegotiate_low p debt userSituation response st Hf
               Hlt Ha).
    fold term. rewrite Math_floor_div. apply createCounterProposal_data.
  - destruct Hcase as [Hlt|Hh]; [lia|].
    rewrite (evaluateAndNegotiate_under_floor_covered p debt userSituation
               response st Hf Hge Ha Hh).
    fold term. rewrite Math_floor_div. apply createCounterProposal_data.
Qed.

Lemma evaluate_under_floor_counter_witness :
  1 <= 10
  /\ displayData
       (fst (evaluateAndNegotiate (mkProposal 100 "monthly" 24) 2400
               "I am doing fine" (mkResponse "" true None) initial_state))
     = Plans [ {| frequency := "monthly";
                  amount := Math_floor (num 2400 / num 10);
                  termLength := 10;
                  totalAmount := 2400 |} ].
Proof.
  apply (evaluate_under_floor_counter (mkProposal 100 "monthly" 24) 2400
           "I am doing fine" (mkResponse "" true None) initial_state);
    [reflexivity | reflexivity | reflexivity | right; reflexivity].
Defined.

(** ** The remaining branches of [suggestPlan] *)

Lemma suggestPlan_reconcile
    (p : Proposal) (debt : Z) (userSituation msg : string) (st : State) :
  array_includes allowedFrequencies (proposal_frequency p) = true ->
  proposal_amount p * proposal_termLength p <> debt ->
  suggestPlan p debt userSituation msg st
  = createCounterProposal
      "Let me adjust this plan to ensure it covers your total debt exactly."
      (proposal_frequency p)
      (Math_ceil (num debt / num (proposal_amount p)))
      debt msg st.
Proof.
  intros Hf Ht. unfold suggestPlan. cbv zeta.
  rewrite Hf. cbn [negb].
  apply Z.eqb_neq in Ht. rewrite Ht. reflexivity.
Qed.

Lemma suggestPlan_hardship_early
    (p : Proposal) (debt : Z) (userSituation msg : string) (st : State) :
  array_includes allowedFrequencies (proposal_frequency p) = true ->
  proposal_amount p * proposal_termLength p = debt ->
  getMinimumPayment (proposal_frequency p) debt <= proposal_amount p ->
  suggest_hardship userSituation = true ->
  negotiationStage st < 2 ->
  suggestPlan p debt userSituation msg st
  = createCounterProposal
      "Here's a plan that might work better for you, based on your situation."
      (proposal_frequency p)
      (Math_ceil
         (num debt
          / num (Math_ceil
                   (num (getMinimumPayment (proposal_frequency p) debt)
                    * 1.2))))
      debt msg st.
Proof.
  intros Hf Ht Ha Hh Hst. unfold suggestPlan. cbv zeta.
  rewrite Hf. cbn [negb].
  apply Z.eqb_eq in Ht. rewrite Ht. cbn [negb].
  unfold bind at 1. unfold getStage at 1.
  apply Z.ltb_ge in Ha. apply Z.ltb_lt in Hst. rewrite Ha, Hst.
  cbn [andb]. unfold suggest_hardship in Hh. rewrite Hh. reflexivity.
Qed.

(** X6.  When the product of the proposed amount and term is not the debt,
    [suggestPlan] only reconciles the term, whatever the stage, the
    situation and the minimum payment: for an allowed frequency, a positive
    debt and a positive amount the shown term is [ceil (debt / amount)] and
    the shown amount [floor (debt / term)] is never above the proposed
    amount (and equal to it exactly when the amount divides the debt), so an
    amount below the minimum is not raised on this path. *)
Theorem suggest_reconciles_term_only
    (p : Proposal) (debt : Z) (userSituation msg : string) (st : State) :
  array_includes allowedFrequencies (proposal_frequency p) = true ->
  0 < debt ->
  0 < proposal_amount p ->
  proposal_amount p * proposal_termLength p <> debt ->
  exists pl,
    displayData (fst (suggestPlan p debt userSituation msg st)) = Plans [pl]
    /\ frequency pl = proposal_frequency p
    /\ totalAmount pl = debt
    /\ termLength pl = Math_ceil (num debt / num (proposal_amount p))
    /\ amount pl = Math_floor (num debt / num (termLength pl))
    /\ amount pl <= proposal_amount p
    /\ (amount pl = proposal_amount p <-> (proposal_amount p | debt)).
Proof.
  intros Hf Hd Ha Ht.
  rewrite (suggestPlan_reconcile p debt userSituation msg st Hf Ht).
  destruct (counter_plan_for_amount
              "Let me adjust this plan to ensure it covers your total debt exactly."
              (proposal_frequency p) debt (proposal_amount p) msg st Hd Ha)
    as (pl & H0 & H1 & H2 & H3 & H4 & H5 & H6 & H7 & H8).
  exists pl. repeat split; try assumption; apply H8.
Qed.

Lemma suggest_reconciles_term_only_witness :
  exists pl,
    displayData
      (fst (suggestPlan (mkProposal 50 "monthly" 10) 2400 "" "ok"
              initial_state)) = Plans [pl]
    /\ frequency pl = "monthly"
    /\ totalAmount pl = 2400
    /\ termLength pl = Math_ceil (num 2400 / num 50)
    /\ amount pl = Math_floor (num 2400 / num (termLength pl))
    /\ amount pl <= 50
    /\ (amount pl = 50 <-> (50 | 2400)).
Proof.
  apply (suggest_reconciles_term_only (mkProposal 50 "monthly" 10) 2400 ""
           "ok" initial_state);
    first [reflexivity | discriminate].
Defined.

(** X7.  While the stage is below 2, a situation text that holds hardship,
    laid off or medical (in any letter case) makes [suggestPlan] replace
    even a proposal that matches the debt exactly and meets the minimum: for
    an allowed frequency and a positive debt the answer is the counter-offer
    with the term [ceil (debt / s)] for [s = ceil (minimum * 1.2)] and the
    amount [floor (debt / term)], which is at most [s] whatever amount was
    proposed. *)
Theorem suggest_hardship_counter
    (p : Proposal) (debt : Z) (userSituation msg : string) (st : State) :
  array_includes allowedFrequencies (proposal_frequency p) = true ->
  0 < debt ->
  proposal_amount p * proposal_termLength p = debt ->
  getMinimumPayment (proposal_frequency p) debt <= proposal_amount p ->
  suggest_hardship userSituation = true ->
  negotiationStage st < 2 ->
  let s :=
    Math_ceil (num (getMinimumPayment (proposal_frequency p) debt) * 1.2) in
  exists pl,
    displayData (fst (suggestPlan p debt userSituation msg st)) = Plans [pl]
    /\ frequency pl = proposal_frequency p
    /\ totalAmount pl = debt
    /\ termLength pl = Math_ceil (num debt / num s)
    /\ amount pl = Math_floor (num debt / num (termLength pl))
    /\ amount pl <= s
    /\ (amount pl = s <-> (s | debt)).
Proof.
  intros Hf Hd Ht Ha Hh Hst s.
  rewrite (suggestPlan_hardship_early p debt userSituation msg st Hf Ht Ha Hh
             Hst).
  fold s.
  assert (Hs : 0 < s).
  { subst s. apply Math_ceil_scale_pos; [|lia].
    now apply getMinimumPayment_pos. }
  destruct (counter_plan_for_amount
              "Here's a plan that might work better for you, based on your situation."
              (proposal_frequency p) debt s msg st Hd Hs)
    as (pl & H0 & H1 & H2 & H3 & H4 & H5 & H6 & H7 & H8).
  exists pl. repeat split; try assumption; apply H8.
Qed.

Lemma suggest_hardship_counter_witness :
  let s := Math_ceil (num (getMinimumPayment "monthly" 2400) * 1.2) in
  exists pl,
    displayData
      (fst (suggestPlan (mkProposal 800 "monthly" 3) 2400 "I was Laid Off"
              "ok" initial_state)) = Plans [pl]
    /\ frequency pl = "monthly"
    /\ totalAmount pl = 2400
    /\ termLength pl = Math_ceil (num 2400 / num s)
    /\ amount pl = Math_floor (num 2400 / num (termLength pl))
    /\ amount pl <= s
    /\ (amount pl = s <-> (s | 2400)).
Proof.
  apply (suggest_hardship_counter (mkProposal 800 "monthly" 3) 2400
           "I was Laid Off" "ok" initial_state);
    first [reflexivity | vm_compute; discriminate].
Defined.

(** ** Messages *)

Lemma createCounterProposal_user_message
    (sys freq : string) (t total : Z) (um : string) (st : State) :
  um <> "" ->
  message (fst (createCounterProposal sys freq t total um st)) = um.
Proof.
  intros Hne. unfold createCounterProposal, bind, ret, incrStage.
  cbv zeta. cbn [fst message].
  destruct um as [|c um']; [congruence|].
  cbn [truthy or_else negb andb]. now rewrite andb_false_r.
Qed.

Lemma equal_payments_iff (t total : Z) :
  0 < t ->
  (total / t =? total - total / t * (t - 1)) = true <-> (t | total).
Proof.
  intros Ht. rewrite Z.eqb_eq.
  pose proof (fdiv_bounds total t Ht) as Hb. split.
  - intros H. exists (total / t). lia.
  - intros [k ->]. rewrite Z.div_mul by lia. lia.
Qed.

(** X8.  The message of a counter-offer, for a positive term length.  A
    non-empty caller message is returned as it is, also when the
    installments are uneven, so the differing final payment is then stated
    nowhere in the response.  Without a caller message the system message is
    returned, followed by the note on the final payment
    [total - floor (total / term) * (term - 1)] exactly when the term
    length does not divide the total. *)
Theorem counter_offer_message
    (sys freq : string) (t total : Z) (um : string) (st : State) :
  0 < t ->
  let r := fst (createCounterProposal sys freq t total um st) in
  (um <> "" -> message r = um)
  /\ (um = "" -> (t | total) -> message r = sys)
  /\ (um = "" -> ~ (t | total) ->
      message r
      = sys ++ " Note: The final payment will be $"
        ++ toFixed2 (total - total / t * (t - 1))
        ++ " to ensure the total exactly matches your debt amount.").
Proof.
  intros Ht r. subst r. split; [|split].
  - apply createCounterProposal_user_message.
  - intros -> Hdiv. unfold createCounterProposal, bind, ret, incrStage.
    cbv zeta. cbn [fst message]. rewrite Math_floor_div.
    apply (equal_payments_iff t total Ht) in Hdiv. rewrite Hdiv.
    reflexivity.
  - intros -> Hnd. unfold createCounterProposal, bind, ret, incrStage.
    cbv zeta. cbn [fst message]. rewrite Math_floor_div.
    destruct (total / t =? total - total / t * (t - 1)) eqn:E.
    + apply (equal_payments_iff t total Ht) in E. contradiction.
    + reflexivity.
Qed.

Lemma counter_offer_message_witness :
  let r := fst (createCounterProposal "sys" "weekly" 7 100 "hello"
                  initial_state) in
  ("hello" <> "" -> message r = "hello")
  /\ ("hello" = "" -> (7 | 100) -> message r = "sys")
  /\ ("hello" = "" -> ~ (7 | 100) ->
      message r
      = "sys" ++ " Note: The final payment will be $"
        ++ toFixed2 (100 - 100 / 7 * (7 - 1))
        ++ " to ensure the total exactly matches your debt amount.").
Proof.
  apply (counter_offer_message "sys" "weekly" 7 100 "hello" initial_state).
  reflexivity.
Defined.

(** X9.  [suggestPlan] never rewrites a non-empty caller message: on every
    branch (fallback for an unknown frequency, reconciled term, early
    counter-offers, acceptance) the response carries the message it was
    given, unchanged and without any note. *)
Theorem suggestPlan_keeps_message
    (p : Proposal) (debt : Z) (userSituation msg : string) (st : State) :
  msg <> "" ->
  message (fst (suggestPlan p debt userSituation msg st)) = msg.
Proof.
  intros Hne.
  destruct (suggest_accepts p debt userSituation (negotiationStage st)) eqn:E.
  - now rewrite (suggestPlan_accept _ _ _ msg _ E).
  - destruct (suggestPlan_counter p debt userSituation msg st E)
      as (sys & f & t & ->).
    now apply createCounterProposal_user_message.
Qed.

Lemma suggestPlan_keeps_message_witness :
  message
    (fst (suggestPlan (mkProposal 50 "daily" 10) 2401 "medical" "Try this"
            initial_state)) = "Try this".
Proof.
  apply (suggestPlan_keeps_message (mkProposal 50 "daily" 10) 2401 "medical"
           "Try this" initial_state).
  discriminate.
Defined.

(** ** Negotiation followed by finalization *)

(** X10.  A plan that [evaluateAndNegotiate] accepts is always finalized:
    handing the accepted plan to [finalizePlan], in any state and with any
    details and message, yields a terminal agreement with a payment link. *)
Theorem evaluate_accepted_plan_finalizes
    (p : Proposal) (debt : Z) (userSituation : string)
    (response : Response) (st : State)
    (userDetails msg : string) (st2 : State) :
  evaluate_accepts p debt = true ->
  exists pl fp link,
    displayData (fst (evaluateAndNegotiate p debt userSituation response st))
    = Plans [pl]
    /\ displayType (fst (finalizePlan pl userDetails msg st2)) = finalPlan
    /\ displayData (fst (finalizePlan pl userDetails msg st2)) = Final fp
    /\ paymentLink fp = Some link
    /\ negotiationStage (snd (finalizePlan pl userDetails msg st2)) = 0.
Proof.
  intros Hacc.
  rewrite (evaluateAndNegotiate_accept p debt userSituation response st Hacc).
  apply evaluate_accepts_iff in Hacc. destruct Hacc as (_ & _ & Hmin).
  eexists. eexists. eexists. cbn [fst displayData].
  split; [reflexivity|].
  rewrite finalizePlan_accept by (cbn [frequency totalAmount amount]; exact Hmin).
  cbn [fst snd displayType displayData paymentLink negotiationStage].
  repeat split.
Qed.

Lemma evaluate_accepted_plan_finalizes_witness :
  exists pl fp link,
    displayData
      (fst (evaluateAndNegotiate (mkProposal 25 "weekly" 48) 1200 ""
              (mkResponse "" true None) initial_state))
    = Plans [pl]
    /\ displayType (fst (finalizePlan pl "" "done" (mkState 2400 1)))
       = finalPlan
    /\ displayData (fst (finalizePlan pl "" "done" (mkState 2400 1)))
       = Final fp
    /\ paymentLink fp = Some link
    /\ negotiationStage (snd (finalizePlan pl "" "done" (mkState 2400 1)))
       = 0.
Proof.
  apply (evaluate_accepted_plan_finalizes (mkProposal 25 "weekly" 48) 1200 ""
           (mkResponse "" true None) initial_state "" "done"
           (mkState 2400 1)).
  reflexivity.
Defined.

(** X11.  A plan that [suggestPlan] accepts while the stage is below 2 is
    always finalized by [finalizePlan].  From stage 2 on this is lost: a
    proposal with an allowed frequency and a product equal to the debt but
    an amount below the minimum is accepted by [suggestPlan] as it stands
    and then refused by [finalizePlan]. *)
Theorem suggest_accepted_plan_finalization
    (p : Proposal) (debt : Z) (userSituation msg : string) (st : State)
    (userDetails msg2 : string) (st2 : State) :
  let pl :=
    {| frequency := proposal_frequency p;
       amount := proposal_amount p;
       termLength := proposal_termLength p;
       totalAmount := debt |} in
  (suggest_accepts p debt userSituation (negotiationStage st) = true ->
   negotiationStage st < 2 ->
   displayData (fst (suggestPlan p debt userSituation msg st)) = Plans [pl]
   /\ displayType (fst (finalizePlan pl userDetails msg2 st2)) = finalPlan)
  /\ (array_includes allowedFrequencies (proposal_frequency p) = true ->
      proposal_amount p * proposal_termLength p = debt ->
      proposal_amount p < getMinimumPayment (proposal_frequency p) debt ->
      2 <= negotiationStage st ->
      displayData (fst (suggestPlan p debt userSituation msg st)) = Plans [pl]
      /\ displayType (fst (finalizePlan pl userDetails msg2 st2))
         = paymentPlans).
Proof.
  intros pl. split.
  - intros Hacc Hst.
    rewrite (suggestPlan_accept p debt userSituation msg st Hacc).
    split; [reflexivity|].
    apply suggest_accepts_iff in Hacc. destruct Hacc as (_ & _ & Hearly).
    destruct (Hearly Hst) as [Hmin _].
    now rewrite finalizePlan_accept.
  - intros Hf Hprod Hlow Hst.
    rewrite (suggestPlan_accept p debt userSituation msg st
               (suggestPlan_late p debt userSituation msg st Hf Hprod Hst)).
    split; [reflexivity|].
    destruct (finalizePlan_refuse pl userDetails msg2 st2 Hlow)
      as (_ & Hty & _).
    exact Hty.
Qed.

Lemma suggest_accepted_plan_finalization_witness :
  displayData
    (fst (suggestPlan (mkProposal 50 "monthly" 48) 2400 "" "ok"
            (mkState 2400 2)))
  = Plans [ {| frequency := "monthly"; amount := 50; termLength := 48;
               totalAmount := 2400 |} ]
  /\ displayType
       (fst (finalizePlan
               {| frequency := "monthly"; amount := 50; termLength := 48;
                  totalAmount := 2400 |} "" "done" (mkState 2400 3)))
     = paymentPlans.
Proof.
  apply (proj2 (suggest_accepted_plan_finalization
                  (mkProposal 50 "monthly" 48) 2400 "" "ok" (mkState 2400 2)
                  "" "done" (mkState 2400 3)));
    first [reflexivity | vm_compute; discriminate].
Defined.

(** X12.  The corrected plan that a refused [finalizePlan] sends back is
    itself accepted: handing it to [finalizePlan] again yields a terminal
    agreement, for the same frequency, total and minimum amount. *)
Theorem finalize_corrected_plan_finalizes
    (pl : PaymentPlan) (userDetails msg : string) (st : State)
    (userDetails2 msg2 : string) (st2 : State) :
  amount pl < getMinimumPayment (frequency pl) (totalAmount pl) ->
  exists better fp,
    displayData (fst (finalizePlan pl userDetails msg st)) = Plans [better]
    /\ displayType (fst (finalizePlan better userDetails2 msg2 st2))
       = finalPlan
    /\ displayData (fst (finalizePlan better userDetails2 msg2 st2))
       = Final fp
    /\ final_frequency fp = frequency pl
    /\ final_totalAmount fp = totalAmount pl
    /\ final_amount fp = getMinimumPayment (frequency pl) (totalAmount pl).
Proof.
  intros Hlow.
  destruct (finalizePlan_refuse pl userDetails msg st Hlow) as (_ & _ & Hd).
  eexists. eexists. split; [exact Hd|].
  rewrite finalizePlan_accept by (cbn [frequency totalAmount amount]; lia).
  cbn [fst displayType displayData final_frequency final_totalAmount
       final_amount frequency totalAmount amount].
  repeat split.
Qed.

Lemma finalize_corrected_plan_finalizes_witness :
  exists better fp,
    displayData
      (fst (finalizePlan (mkPaymentPlan "monthly" 50 12 2400) "" "done"
              initial_state)) = Plans [better]
    /\ displayType (fst (finalizePlan better "" "again" initial_state))
       = finalPlan
    /\ displayData (fst (finalizePlan better "" "again" initial_state))
       = Final fp
    /\ final_frequency fp = "monthly"
    /\ final_totalAmount fp = 2400
    /\ final_amount fp = getMinimumPayment "monthly" 2400.
Proof.
  apply (finalize_corrected_plan_finalizes
           (mkPaymentPlan "monthly" 50 12 2400) "" "done" initial_state ""
           "again" initial_state).
  reflexivity.
Defined.

(** X13.  A counter-offer of the engine can be below the engine's own
    minimum.  Whenever the user proposes exactly the minimum payment of an
    allowed frequency for a positive debt, with a term too short to cover
    the debt, and the minimum does not divide the debt, the counter-offer of
    [evaluateAndNegotiate] shows an amount strictly below the minimum, and
    [finalizePlan] refuses that very plan. *)
Theorem minimum_offer_counter_is_refused
    (freq : string) (debt t : Z) (userSituation : string)
    (response : Response) (st : State)
    (userDetails msg : string) (st2 : State) :
  array_includes allowedFrequencies freq = true ->
  0 < debt ->
  getMinimumPayment freq debt * t < debt ->
  ~ (getMinimumPayment freq debt | debt) ->
  exists pl,
    displayData
      (fst (evaluateAndNegotiate (mkProposal (getMinimumPayment freq debt)
                                    freq t)
              debt userSituation response st)) = Plans [pl]
    /\ amount pl < getMinimumPayment freq debt
    /\ displayType (fst (finalizePlan pl userDetails msg st2)) = paymentPlans.
Proof.
  intros Hf Hd Ht Hnd.
  pose proof (getMinimumPayment_pos freq debt Hd) as Hm.
  rewrite (evaluateAndNegotiate_keep
             (mkProposal (getMinimumPayment freq debt) freq t) debt
             userSituation response st Hf Ht (Z.le_refl _)).
  cbn [proposal_frequency proposal_amount].
  destruct (counter_plan_for_amount
              "Your payment amount looks good, but we need to adjust the term to cover the full debt."
              freq debt (getMinimumPayment freq debt) "" st Hd Hm)
    as (pl & H0 & H1 & H2 & H3 & H4 & H5 & H6 & H7 & H8).
  exists pl. split; [exact H0|].
  assert (Hlt : amount pl < getMinimumPayment freq debt).
  { destruct (Z.eq_dec (amount pl) (getMinimumPayment freq debt)) as [E|E].
    - apply H8 in E. contradiction.
    - lia. }
  split; [exact Hlt|].
  destruct (finalizePlan_refuse pl userDetails msg st2) as (_ & Hty & _).
  { now rewrite H1, H2. }
  exact Hty.
Qed.

Lemma minimum_offer_counter_is_refused_witness :
  exists pl,
    displayData
      (fst (evaluateAndNegotiate
              (mkProposal (getMinimumPayment "monthly" 2400) "monthly" 12)
              2400 "" (mkResponse "" true None) initial_state)) = Plans [pl]
    /\ amount pl < getMinimumPayment "monthly" 2400
    /\ displayType (fst (finalizePlan pl "" "done" (mkState 2400 1)))
       = paymentPlans.
Proof.
  apply (minimum_offer_counter_is_refused "monthly" 2400 12 ""
           (mkResponse "" true None) initial_state "" "done"
           (mkState 2400 1));
    [reflexivity | reflexivity | reflexivity |].
  intros [k Hk].
  change (getMinimumPayment "monthly" 2400) with 192 in Hk. lia.
Defined.

(** ** The payment link *)

Lemma renderPaymentLink_plans (m : ChatMessage) :
  displayType m = paymentPlans -> renderPaymentLink m = None.
Proof. unfold renderPaymentLink. now intros ->. Qed.

(** X14.  The chat bubble shows a payment link exactly for finalized plans.
    For every plan that [finalizePlan] accepts, [renderPaymentLink] yields
    the address ["https://"] followed by the payment link of the agreement;
    for a refused finalization and for every response of
    [evaluateAndNegotiate] and [suggestPlan] it yields nothing. *)
Theorem payment_link_rendered
    (pl : PaymentPlan) (userDetails msg : string) (st : State)
    (p : Proposal) (debt : Z) (userSituation : string) (response : Response) :
  (getMinimumPayment (frequency pl) (totalAmount pl) <= amount pl ->
   renderPaymentLink (fst (finalizePlan pl userDetails msg st))
   = Some ("https://collectwise.com/payments?termLength="
           ++ Number_toString (termLength pl)
           ++ "&totalDebtAmount=" ++ Number_toString (totalAmount pl)
           ++ "&termPaymentAmount=" ++ Number_toString (amount pl)))
  /\ (amount pl < getMinimumPayment (frequency pl) (totalAmount pl) ->
      renderPaymentLink (fst (finalizePlan pl userDetails msg st)) = None)
  /\ renderPaymentLink
       (fst (evaluateAndNegotiate p debt userSituation response st)) = None
  /\ renderPaymentLink (fst (suggestPlan p debt userSituation msg st)) = None.
Proof.
  split; [|split; [|split]].
  - intros Hge. rewrite (finalizePlan_accept pl userDetails msg st Hge).
    reflexivity.
  - intros Hlt. apply renderPaymentLink_plans.
    now destruct (finalizePlan_refuse pl userDetails msg st Hlt) as (_ & H & _).
  - apply renderPaymentLink_plans.
    destruct (evaluateAndNegotiate_response p debt userSituation response st)
      as (t & pl' & _ & H & _). exact H.
  - apply renderPaymentLink_plans.
    destruct (suggestPlan_response p debt userSituation msg st)
      as (t & pl' & _ & H & _). exact H.
Qed.

Lemma payment_link_rendered_witness :
  renderPaymentLink
    (fst (finalizePlan (mkPaymentPlan "monthly" 240 10 2400) "" "done"
            initial_state))
  = Some "https://collectwise.com/payments?termLength=10&totalDebtAmount=2400&termPaymentAmount=240".
Proof.
  apply (proj1 (payment_link_rendered (mkPaymentPlan "monthly" 240 10 2400) ""
                  "done" initial_state (mkProposal 1 "weekly" 1) 1 ""
                  (mkResponse "" true None))).
  vm_compute. discriminate.
Defined.

Lemma to_int_proper (z : Z) :
  Z.to_int z <> Decimal.Pos Decimal.Nil
  /\ Z.to_int z <> Decimal.Neg Decimal.Nil.
Proof.
  destruct z; simpl; split; try discriminate;
    intros H; injection H as H; now apply Unsigned.to_uint_nonnil in H.
Qed.

Lemma Number_toString_inj (a b : Z) :
  Number_toString a = Number_toString b -> a = b.
Proof.
  unfold Number_toString. intros H. apply DecimalZ.to_int_inj.
  destruct (to_int_proper a) as [A1 A2].
  destruct (to_int_proper b) as [B1 B2].
  pose proof (NilZero.isi _ A1 A2) as Ha.
  pose proof (NilZero.isi _ B1 B2) as Hb.
  rewrite H in Ha. congruence.
Qed.

Lemma string_of_uint_no_amp (d : Decimal.uint) :
  all_chars (fun c => negb (Ascii.eqb c "&")) (NilEmpty.string_of_uint d)
  = true.
Proof. induction d; simpl; auto. Qed.

Lemma Number_toString_no_amp (z : Z) :
  all_chars (fun c => negb (Ascii.eqb c "&")) (Number_toString z) = true.
Proof.
  unfold Number_toString.
  destruct (Z.to_int z) as [d|d]; simpl.
  - destruct d; try reflexivity; apply (string_of_uint_no_amp (_ d)).
  - destruct d; try reflexivity; apply (string_of_uint_no_amp (_ d)).
Qed.

Lemma split_at_amp (s1 s2 r1 r2 : string) :
  all_chars (fun c => negb (Ascii.eqb c "&")) s1 = true ->
  all_chars (fun c => negb (Ascii.eqb c "&")) s2 = true ->
  s1 ++ String "&" r1 = s2 ++ String "&" r2 ->
  s1 = s2 /\ r1 = r2.
Proof.
  revert s2. induction s1 as [|c s1 IH]; intros s2 H1 H2 H.
  - destruct s2 as [|c2 s2]; simpl in H.
    + injection H as H. now split.
    + injection H as Hc _. subst c2. simpl in H2. discriminate H2.
  - destruct s2 as [|c2 s2]; simpl in H.
    + injection H as Hc _. subst c. simpl in H1. discriminate H1.
    + injection H as Hc H. subst c2. simpl in H1, H2.
      apply andb_prop in H1, H2.
      destruct (IH s2 (proj2 H1) (proj2 H2) H) as [-> ->]. now split.
Qed.

(** X15.  The payment link determines the numbers of the agreement: two
    finalized plans whose links are equal have the same term length, the
    same total and the same amount, so the payment service can read the
    three numbers back from the link without ambiguity. *)
Theorem payment_link_injective
    (pl1 pl2 : PaymentPlan) (u1 m1 u2 m2 : string) (st1 st2 : State)
    (fp1 fp2 : FinalPaymentPlan) :
  displayData (fst (finalizePlan pl1 u1 m1 st1)) = Final fp1 ->
  displayData (fst (finalizePlan pl2 u2 m2 st2)) = Final fp2 ->
  paymentLink fp1 = paymentLink fp2 ->
  termLength pl1 = termLength pl2
  /\ totalAmount pl1 = totalAmount pl2
  /\ amount pl1 = amount pl2.
Proof.
  intros H1 H2 Hlink.
  destruct (Z_lt_le_dec (amount pl1)
              (getMinimumPayment (frequency pl1) (totalAmount pl1)))
    as [L1|G1].
  { destruct (finalizePlan_refuse pl1 u1 m1 st1 L1) as (_ & _ & Hd).
    rewrite Hd in H1. discriminate H1. }
  destruct (Z_lt_le_dec (amount pl2)
              (getMinimumPayment (frequency pl2) (totalAmount pl2)))
    as [L2|G2].
  { destruct (finalizePlan_refuse pl2 u2 m2 st2 L2) as (_ & _ & Hd).
    rewrite Hd in H2. discriminate H2. }
  rewrite (finalizePlan_accept pl1 u1 m1 st1 G1) in H1.
  rewrite (finalizePlan_accept pl2 u2 m2 st2 G2) in H2.
  cbn [fst displayData] in H1, H2.
  injection H1 as <-. injection H2 as <-.
  cbn [paymentLink] in Hlink. injection Hlink as Hlink.
  apply split_at_amp in Hlink; try apply Number_toString_no_amp.
  destruct Hlink as [Ht Hrest].
  injection Hrest as Hrest.
  apply split_at_amp in Hrest; try apply Number_toString_no_amp.
  destruct Hrest as [Hd Ha].
  injection Ha as Ha.
  repeat split; now apply Number_toString_inj.
Qed.

Lemma payment_link_injective_witness :
  termLength (mkPaymentPlan "monthly" 240 10 2400)
  = termLength (mkPaymentPlan "weekly" 240 10 2400)
  /\ totalAmount (mkPaymentPlan "monthly" 240 10 2400)
     = totalAmount (mkPaymentPlan "weekly" 240 10 2400)
  /\ amount (mkPaymentPlan "monthly" 240 10 2400)
     = amount (mkPaymentPlan "weekly" 240 10 2400).
Proof.
  apply (payment_link_injective (mkPaymentPlan "monthly" 240 10 2400)
           (mkPaymentPlan "weekly" 240 10 2400) "" "a" "" "b" initial_state
           (mkState 2400 4) _ _ eq_refl eq_refl).
  reflexivity.
Defined.

(** * Further properties of the extractor *)

Section MatchAllFirst.
Context {A : Type}.
Variable P : option ascii -> string -> option (nat * A).

Lemma matchAll_from_first (prev : option ascii) (s : string) (a : A)
    (others : list A) :
  matchAll_from P 0 prev s = a :: others ->
  exists pre suf n, s = pre ++ suf /\ P (last_or prev pre) suf = Some (n, a).
Proof.
  revert prev. induction s as [|c s IH]; intros prev; [discriminate|].
  cbn [matchAll_from].
  destruct (P prev (String c s)) as [[n a']|] eqn:E.
  - intros H. injection H as <- _. now exists "", (String c s), n.
  - intros H. destruct (IH _ H) as (pre & suf & n & -> & Hp).
    now exists (String c pre), suf, n.
Qed.

Lemma matchAll_from_leftmost (prev : option ascii) (pre suf : string)
    (n : nat) (a : A) :
  suf <> "" ->
  P (last_or prev pre) suf = Some (n, a) ->
  (forall pre1 pre2,
      pre = pre1 ++ pre2 -> pre2 <> "" ->
      P (last_or prev pre1) (pre2 ++ suf) = None) ->
  exists others, matchAll_from P 0 prev (pre ++ suf) = a :: others.
Proof.
  revert prev. induction pre as [|c pre IH]; intros prev Hne Hp Hnone.
  - destruct suf as [|c s]; [congruence|].
    cbn [append matchAll_from]. simpl in Hp. rewrite Hp. eauto.
  - change (String c pre ++ suf) with (String c (pre ++ suf)).
    cbn [matchAll_from].
    pose proof (Hnone "" (String c pre) eq_refl ltac:(discriminate)) as H0.
    simpl in H0. rewrite H0.
    apply IH; [exact Hne|exact Hp|].
    intros pre1 pre2 -> Hne2. now apply (Hnone (String c pre1) pre2).
Qed.

End MatchAllFirst.

Lemma extractPaymentPlan_plan (text : string) (debt : Z) (p : ExtractedPlan) :
  plan (extractPaymentPlan text debt) = Some p ->
  exists d0 ds f0 fs,
    matchAll dollarPattern text = d0 :: ds
    /\ matchAll frequencyPattern text = f0 :: fs
    /\ extracted_frequency p = toLowerCase f0
    /\ extracted_amount p = parseFloat (remove_commas d0)
    /\ extracted_termLength p
       = match matchAll termPattern text with
         | t0 :: _ => parseInt t0
         | [] => Math_ceil
                   (double (num debt / double (parseFloat (remove_commas d0))))
         end.
Proof.
  unfold extractPaymentPlan. cbv zeta.
  destruct (matchAll dollarPattern text) as [|d0 ds]; [discriminate|].
  destruct (matchAll frequencyPattern text) as [|f0 fs]; [discriminate|].
  cbn [plan]. intros H. injection H as <-.
  exists d0, ds, f0, fs. repeat split.
Qed.

Lemma lower_char_word (c : ascii) :
  is_word c = true -> lower_char c = fold_char c.
Proof. each_char c; intros H; try reflexivity; discriminate H. Qed.

Lemma toLowerCase_word (m : string) :
  all_chars is_word m = true -> toLowerCase m = fold_case m.
Proof.
  induction m as [|c m IH]; simpl; [reflexivity|].
  intros H. apply andb_prop in H. destruct H as [Hc Hm].
  now rewrite (lower_char_word c Hc), (IH Hm).
Qed.

Lemma alt_ci_boundary_some
    (ws : list string) (prev : option ascii) (s : string) (n : nat)
    (m : string) :
  alt_ci_boundary ws prev s = Some (n, m) ->
  exists k rest, In k ws /\ literal_ci k s = Some (m, rest).
Proof.
  induction ws as [|w ws IH]; cbn [alt_ci_boundary]; [discriminate|].
  destruct (literal_ci w s) as [[m' rest]|] eqn:E.
  - destruct (boundary (last_or prev m') (head rest)).
    + intros H. injection H as _ <-. exists w, rest. now split; [left|].
    + intros H. destruct (IH H) as (k & r & Hin & Hl).
      exists k, r. now split; [right|].
  - intros H. destruct (IH H) as (k & r & Hin & Hl).
    exists k, r. now split; [right|].
Qed.

Lemma frequency_match_lowered (text f0 : string) (fs : list string) :
  matchAll frequencyPattern text = f0 :: fs ->
  toLowerCase f0 = "weekly" \/ toLowerCase f0 = "biweekly"
  \/ toLowerCase f0 = "monthly".
Proof.
  intros Hf.
  destruct (matchAll_from_first frequencyPattern None text f0 fs Hf)
    as (pre & suf & n & _ & Hm).
  unfold frequencyPattern in Hm.
  destruct (boundary (last_or None pre) (head suf)); [|discriminate].
  destruct (alt_ci_boundary_some _ _ _ _ _ Hm) as (k & rest & Hin & Hl).
  destruct (literal_ci_sound _ _ _ _ Hl) as [_ Hfold].
  assert (Hk : fold_case f0 = k /\ all_chars is_word k = true
               /\ (k = "weekly" \/ k = "biweekly" \/ k = "monthly")).
  { rewrite Hfold. cbn [In] in Hin.
    destruct Hin as [<-|[<-|[<-|[]]]]; repeat split; tauto. }
  destruct Hk as (Hfk & Hall & Hcases).
  assert (Hlow : toLowerCase f0 = k).
  { rewrite toLowerCase_word; [exact Hfk|].
    now rewrite <- all_chars_fold_word, Hfk. }
  now rewrite Hlow.
Qed.

(** X16.  Whenever the extractor finds a plan, its frequency is one of the
    three lower-case words weekly, biweekly and monthly, whatever the letter
    case in the text; a frequency taken from a text can therefore never
    trigger the unknown-frequency fallback of the engine. *)
Theorem extracted_frequency_allowed
    (text : string) (debt : Z) (p : ExtractedPlan) :
  plan (extractPaymentPlan text debt) = Some p ->
  (extracted_frequency p = "weekly" \/ extracted_frequency p = "biweekly"
   \/ extracted_frequency p = "monthly")
  /\ array_includes allowedFrequencies (extracted_frequency p) = true.
Proof.
  intros Hp.
  destruct (extractPaymentPlan_plan text debt p Hp)
    as (d0 & ds & f0 & fs & _ & Hf & -> & _).
  pose proof (frequency_match_lowered text f0 fs Hf) as Hcases.
  split; [exact Hcases|].
  destruct Hcases as [->|[->| ->]]; reflexivity.
Qed.

Lemma extracted_frequency_allowed_witness :
  ("biweekly" = "weekly" \/ "biweekly" = "biweekly" \/ "biweekly" = "monthly")
  /\ array_includes allowedFrequencies "biweekly" = true.
Proof.
  apply (extracted_frequency_allowed "Pay $75 BiWeekly" 2400
           (mkExtractedPlan "biweekly" 75 32)).
  reflexivity.
Defined.

Lemma digit_not_separator (c : ascii) :
  is_digit c = true ->
  Ascii.eqb c comma = false /\ Ascii.eqb c dot = false
  /\ Ascii.eqb c dollar_sign = false.
Proof. each_char c; intros H; try discriminate H; repeat split. Qed.

Lemma dollar_group_four_digits (d1 d2 d3 d4 : ascii) (rest : string) :
  is_digit d1 = true -> is_digit d2 = true -> is_digit d3 = true ->
  is_digit d4 = true ->
  dollar_group (String d1 (String d2 (String d3 (String d4 rest))))
  = Some (String d1 (String d2 (String d3 ""))).
Proof.
  intros H1 H2 H3 H4.
  destruct (digit_not_separator d4 H4) as (Hc & Hd & _).
  unfold dollar_group. cbn [span_upto]. rewrite H1, H2, H3.
  cbn [length comma_groups]. rewrite Hc.
  cbn [cents_opt]. rewrite Hd. reflexivity.
Qed.

Lemma no_dollar_match_before (pre : string) (c : ascii) (rest : string) :
  ~ has_dollar_token pre ->
  forall prev pre1 pre2,
    pre = pre1 ++ pre2 -> pre2 <> "" ->
    dollarPattern prev (pre2 ++ String dollar_sign (String c rest)) = None.
Proof.
  intros Hno prev pre1 pre2 -> Hne.
  destruct (dollarPattern prev
              (pre2 ++ String dollar_sign (String c rest))) as [r|] eqn:E;
    [|reflexivity].
  exfalso.
  assert (Hm : dollarPattern prev
                 (pre2 ++ String dollar_sign (String c rest)) <> None)
    by congruence.
  apply dollarPattern_found in Hm. destruct Hm as (d & post & Heq & Hd).
  destruct pre2 as [|x pre2]; [congruence|].
  simpl in Heq. injection Heq as -> Heq.
  destruct pre2 as [|y pre2].
  - simpl in Heq. injection Heq as <- _.
    destruct (digit_not_separator _ Hd) as (_ & _ & H). 
    now rewrite Ascii.eqb_refl in H.
  - simpl in Heq. injection Heq as -> _.
    apply Hno. exists pre1, d, pre2. now split.
Qed.

(** X17.  A dollar token of four or more digits in a row is read by its
    first three digits only.  If the first dollar sign that is followed by
    a digit is followed by four digits [d1 d2 d3 d4], the amount of the
    extracted plan is the number [d1 d2 d3], whatever follows: "$1200" is
    read as 120. *)
Theorem dollar_run_keeps_three_digits
    (pre : string) (d1 d2 d3 d4 : ascii) (rest : string) (debt : Z)
    (p : ExtractedPlan) :
  ~ has_dollar_token pre ->
  is_digit d1 = true -> is_digit d2 = true -> is_digit d3 = true ->
  is_digit d4 = true ->
  plan
    (extractPaymentPlan
       (pre ++ String dollar_sign
                 (String d1 (String d2 (String d3 (String d4 rest)))))
       debt) = Some p ->
  extracted_amount p
  = inject_Z (100 * digit_value d1 + 10 * digit_value d2 + digit_value d3).
Proof.
  intros Hno H1 H2 H3 H4 Hp.
  destruct (extractPaymentPlan_plan _ debt p Hp)
    as (d0 & ds & f0 & fs & Hd & _ & _ & -> & _).
  destruct (matchAll_from_leftmost dollarPattern None pre
              (String dollar_sign
                 (String d1 (String d2 (String d3 (String d4 rest)))))
              4 (String d1 (String d2 (String d3 ""))))
    as [others Hfirst].
  - discriminate.
  - unfold dollarPattern. rewrite Ascii.eqb_refl.
    now rewrite (dollar_group_four_digits d1 d2 d3 d4 rest H1 H2 H3 H4).
  - intros pre1 pre2 Heq Hne.
    now apply (no_dollar_match_before pre d1 _ Hno _ pre1 pre2).
  - unfold matchAll in Hd. rewrite Hfirst in Hd. injection Hd as <- _.
    destruct (digit_not_separator d1 H1) as (C1 & _ & _).
    destruct (digit_not_separator d2 H2) as (C2 & _ & _).
    destruct (digit_not_separator d3 H3) as (C3 & _ & _).
    cbn [remove_commas]. rewrite C1, C2, C3.
    unfold parseFloat. cbn [span]. rewrite H1, H2, H3.
    cbn [digits_value]. f_equal. lia.
Qed.

Lemma dollar_run_keeps_three_digits_witness :
  extracted_amount (mkExtractedPlan "monthly" 120 6)
  = inject_Z (100 * digit_value "1" + 10 * digit_value "2" + digit_value "0").
Proof.
  apply (dollar_run_keeps_three_digits "I can pay " "1" "2" "0" "0"
           " monthly for 6 months" 2400 (mkExtractedPlan "monthly" 120 6)).
  - intros (pre & d & post & H & _). vm_compute in H.
    repeat (destruct pre as [|? pre]; [discriminate H|];
            injection H as _ H).
    destruct pre; discriminate H.
  - reflexivity.
  - reflexivity.
  - reflexivity.
  - reflexivity.
  - reflexivity.
Defined.

Lemma digit_value_range (c : ascii) :
  is_digit c = true -> 0 <= digit_value c <= 9.
Proof.
  each_char c; intros H; try discriminate H; vm_compute; split; discriminate.
Qed.

Lemma digits_value_nonneg (s : string) (acc : Z) :
  all_chars is_digit s = true -> 0 <= acc -> 0 <= digits_value acc s.
Proof.
  revert acc. induction s as [|c s IH]; intros acc Hall Hacc;
    cbn [digits_value]; [exact Hacc|].
  cbn [all_chars] in Hall. apply andb_prop in Hall. destruct Hall as [Hc Hs].
  apply IH; [exact Hs|].
  pose proof (digit_value_range c Hc). lia.
Qed.

Lemma parseFloat_nonneg (s : string) : (0 <= parseFloat s)%Q.
Proof.
  unfold parseFloat.
  destruct (span is_digit s) as [ip r] eqn:E.
  destruct (span_sound _ _ _ _ E) as [_ Hip].
  assert (Hi : (0 <= inject_Z (digits_value 0 ip))%Q).
  { rewrite <- (Zle_Qle 0). now apply digits_value_nonneg. }
  destruct r as [|c fr]; [exact Hi|].
  destruct (Ascii.eqb c dot); [|exact Hi].
  destruct (span is_digit fr) as [fp r'] eqn:E'.
  destruct (span_sound _ _ _ _ E') as [_ Hfp].
  assert (Hf : (0 <= inject_Z (digits_value 0 fp))%Q).
  { rewrite <- (Zle_Qle 0). now apply digits_value_nonneg. }
  assert (Hp : (0 < inject_Z (10 ^ Z.of_nat (length fp)))%Q).
  { rewrite <- (Zlt_Qlt 0). apply Z.pow_pos_nonneg; lia. }
  assert (Hq : (0 <= inject_Z (digits_value 0 fp)
                     / inject_Z (10 ^ Z.of_nat (length fp)))%Q).
  { apply Qle_shift_div_l; [exact Hp|]. now rewrite Qmult_0_l. }
  apply (Qplus_le_compat 0 _ 0 _ Hi) in Hq. exact Hq.
Qed.

Lemma termPattern_digits
    (prev : option ascii) (s : string) (n : nat) (digits : string) :
  termPattern prev s = Some (n, digits) -> all_chars is_digit digits = true.
Proof.
  unfold termPattern.
  destruct (alt_ci ["for"; "over"] s) as [[kw r1]|]; [|discriminate].
  destruct (span is_space r1) as [sp1 r2].
  destruct sp1 as [|c1 sp1']; [discriminate|].
  destruct (span is_digit r2) as [ds r3] eqn:E3.
  destruct ds as [|c2 ds']; [discriminate|].
  destruct (span is_space r3) as [sp2 r4].
  destruct sp2 as [|c3 sp2']; [discriminate|].
  destruct (alt_ci ["week"; "month"; "payment"; "installment"] r4)
    as [[unit_ post]|]; [|discriminate].
  intros H. injection H as _ <-.
  now destruct (span_sound _ _ _ _ E3).
Qed.

(** X18.  The extractor never yields a negative number.  The amount of an
    extracted plan is never negative; a term length read from a term phrase
    is never negative; and without a term phrase, for a positive debt and a
    positive amount, the term length is at least one. *)
Theorem extracted_numbers_nonnegative
    (text : string) (debt : Z) (p : ExtractedPlan) :
  plan (extractPaymentPlan text debt) = Some p ->
  (0 <= extracted_amount p)%Q
  /\ (has_term_phrase text -> 0 <= extracted_termLength p)
  /\ (~ has_term_phrase text -> 0 < debt -> (0 < extracted_amount p)%Q ->
      1 <= extracted_termLength p).
Proof.
  intros Hp.
  destruct (extractPaymentPlan_plan text debt p Hp)
    as (d0 & ds & f0 & fs & _ & _ & _ & Ha & Ht).
  split; [rewrite Ha; apply parseFloat_nonneg|]. split.
  - intros Hphrase. apply termMatches_found in Hphrase.
    destruct (matchAll termPattern text) as [|t0 ts] eqn:E; [congruence|].
    rewrite Ht.
    destruct (matchAll_from_first termPattern None text t0 ts E)
      as (pre & suf & n & _ & Hm).
    apply termPattern_digits in Hm.
    unfold parseInt. now apply digits_value_nonneg.
  - intros Hno Hd Hpos.
    assert (Hnil : matchAll termPattern text = []).
    { destruct (matchAll termPattern text) as [|t0 ts] eqn:E; [reflexivity|].
      exfalso. apply Hno, termMatches_found. rewrite E. discriminate. }
    rewrite Hnil in Ht. rewrite Ht, <- Ha. unfold Math_ceil, num.
    assert (Hc : 0 < Qceiling (double (inject_Z debt
                                       / double (extracted_amount p))));
      [|lia].
    apply Qceiling_pos, double_positive.
    apply Qlt_shift_div_l; [now apply double_positive|].
    rewrite Qmult_0_l. now apply inject_Z_pos.
Qed.

Lemma extracted_numbers_nonnegative_witness :
  (0 <= extracted_amount (mkExtractedPlan "weekly" 100 24))%Q
  /\ (has_term_phrase "$100 weekly" ->
      0 <= extracted_termLength (mkExtractedPlan "weekly" 100 24))
  /\ (~ has_term_phrase "$100 weekly" -> 0 < 2400 ->
      (0 < extracted_amount (mkExtractedPlan "weekly" 100 24))%Q ->
      1 <= extracted_termLength (mkExtractedPlan "weekly" 100 24)).
Proof.
  apply (extracted_numbers_nonnegative "$100 weekly" 2400
           (mkExtractedPlan "weekly" 100 24)).
  reflexivity.
Defined.

(** X19.  A term phrase in the text overrides the debt: when the text holds
    a term phrase, the whole result of the extractor is the same for every
    debt amount (the term length is the number of the first phrase, and is
    not checked against the debt or the amount). *)
Theorem term_phrase_overrides_debt (text : string) (debt1 debt2 : Z) :
  has_term_phrase text ->
  extractPaymentPlan text debt1 = extractPaymentPlan text debt2.
Proof.
  intros Hphrase. apply termMatches_found in Hphrase.
  unfold extractPaymentPlan. cbv zeta.
  destruct (matchAll termPattern text) as [|t0 ts]; [congruence|].
  reflexivity.
Qed.

Lemma term_phrase_overrides_debt_witness :
  extractPaymentPlan "I can do $300 monthly for 6 months" 2400
  = extractPaymentPlan "I can do $300 monthly for 6 months" 9000.
Proof.
  apply (term_phrase_overrides_debt "I can do $300 monthly for 6 months"
           2400 9000).
  apply termMatches_found. vm_compute. discriminate.
Defined.

(** * The interceptor *)

Lemma extractPaymentPlan_not_found (text : string) (debt : Z) :
  ~ (has_dollar_token text /\ has_frequency_keyword text) ->
  extractPaymentPlan text debt = {| found := false; plan := None |}.
Proof.
  intros Hno.
  destruct (extractPaymentPlan_cases text debt)
    as [(Hd & Hf & _)|[_ E]]; [|exact E].
  exfalso. apply Hno.
  now rewrite <- dollarMatches_found, <- frequencyMatches_found.
Qed.

(** X20.  A text without a dollar-amount token or without a frequency
    keyword passes the interceptor untouched: it reports
    [shouldIntercept = false], builds no response and leaves the
    conversation state, in particular the stage, as it was. *)
Theorem intercept_passes_plain_text (text : string) (st : State) :
  ~ (has_dollar_token text /\ has_frequency_keyword text) ->
  interceptImplicitPaymentOffers text st
  = Some ({| shouldIntercept := false; interceptedResponse := None |}, st).
Proof.
  intros Hno. unfold interceptImplicitPaymentOffers. cbv zeta.
  now rewrite (extractPaymentPlan_not_found text (currentDebtAmount st) Hno).
Qed.

Lemma intercept_passes_plain_text_witness :
  interceptImplicitPaymentOffers "I cannot pay anything right now"
    (mkState 2400 1)
  = Some ({| shouldIntercept := false; interceptedResponse := None |},
          mkState 2400 1).
Proof.
  apply (intercept_passes_plain_text "I cannot pay anything right now"
           (mkState 2400 1)).
  intros [Hd _]. apply dollarMatches_found in Hd. now apply Hd.
Defined.

(** X21.  When the text holds a plan with a whole-number amount, the
    interceptor replaces the reply by the response of [suggestPlan] for the
    extracted plan and the stored debt: a [paymentPlans] response whose
    message is the original text, unchanged, whose single plan has the
    extracted frequency and the stored debt as total, and the stage moves on
    by one. *)
Theorem intercept_validates_offer
    (text : string) (st : State) (p : ExtractedPlan) (a : Z) :
  plan (extractPaymentPlan text (currentDebtAmount st)) = Some p ->
  whole (extracted_amount p) = Some a ->
  exists r st' pl,
    interceptImplicitPaymentOffers text st
    = Some ({| shouldIntercept := true; interceptedResponse := Some r |}, st')
    /\ r = fst (suggestPlan
                  (mkProposal a (extracted_frequency p)
                     (extracted_termLength p))
                  (currentDebtAmount st) "" text st)
    /\ message r = text
    /\ displayType r = paymentPlans
    /\ displayData r = Plans [pl]
    /\ frequency pl = extracted_frequency p
    /\ totalAmount pl = currentDebtAmount st
    /\ negotiationStage st' = negotiationStage st + 1
    /\ currentDebtAmount st' = currentDebtAmount st.
Proof.
  intros Hp Hw.
  set (prop := mkProposal a (extracted_frequency p) (extracted_termLength p)).
  assert (Hfound : found (extractPaymentPlan text (currentDebtAmount st))
                   = true).
  { destruct (extractPaymentPlan_cases text (currentDebtAmount st))
      as [(_ & _ & H & _)|[_ E]]; [exact H|].
    rewrite E in Hp. discriminate Hp. }
  assert (Htext : text <> "").
  { intros ->. discriminate Hp. }
  destruct (extractPaymentPlan_plan _ _ _ Hp)
    as (d0 & ds & f0 & fs & _ & Hf & Hfreq & _).
  assert (Hallowed : array_includes allowedFrequencies (extracted_frequency p)
                     = true).
  { rewrite Hfreq.
    destruct (frequency_match_lowered text f0 fs Hf) as [->|[->| ->]];
      reflexivity. }
  destruct (suggestPlan_response prop (currentDebtAmount st) "" text st)
    as (t & pl & Hdata & Hty & _ & Htot & Hfr & _).
  exists (fst (suggestPlan prop (currentDebtAmount st) "" text st)),
    (snd (suggestPlan prop (currentDebtAmount st) "" text st)), pl.
  split.
  { unfold interceptImplicitPaymentOffers. cbv zeta.
    rewrite Hfound, Hp, Hw. fold prop.
    now destruct (suggestPlan prop (currentDebtAmount st) "" text st). }
  split; [reflexivity|]. split.
  { destruct (suggest_accepts prop (currentDebtAmount st) ""
                (negotiationStage st)) eqn:E.
    - now rewrite (suggestPlan_accept _ _ _ text _ E).
    - destruct (suggestPlan_counter prop (currentDebtAmount st) "" text st E)
        as (sys & f & t' & ->).
      now apply createCounterProposal_user_message. }
  split; [exact Hty|]. split; [exact Hdata|]. split.
  { rewrite Hfr. cbn [prop proposal_frequency].
    now apply shown_frequency_id. }
  split; [exact Htot|].
  rewrite suggestPlan_state. now split.
Qed.

Lemma intercept_validates_offer_witness :
  exists r st' pl,
    interceptImplicitPaymentOffers "How about $300 monthly for 6 months?"
      initial_state
    = Some ({| shouldIntercept := true; interceptedResponse := Some r |}, st')
    /\ r = fst (suggestPlan (mkProposal 300 "monthly" 6) 2400 ""
                  "How about $300 monthly for 6 months?" initial_state)
    /\ message r = "How about $300 monthly for 6 months?"
    /\ displayType r = paymentPlans
    /\ displayData r = Plans [pl]
    /\ frequency pl = "monthly"
    /\ totalAmount pl = 2400
    /\ negotiationStage st' = 0 + 1
    /\ currentDebtAmount st' = 2400.
Proof.
  apply (intercept_validates_offer "How about $300 monthly for 6 months?"
           initial_state (mkExtractedPlan "monthly" 300 6) 300);
    reflexivity.
Defined.

(** * The tool-call loop of [sendMessage] *)

Lemma handleToolCalls_append
    (cs ds : list ToolCall) (r : ChatMessage) (outs : list ToolOutput)
    (st : State) :
  handleToolCalls (cs ++ ds) r outs st
  = handleToolCalls ds (fst (fst (handleToolCalls cs r outs st)))
      (snd (fst (handleToolCalls cs r outs st)))
      (snd (handleToolCalls cs r outs st)).
Proof.
  revert r outs st. induction cs as [|c cs IH]; intros r outs st.
  - reflexivity.
  - cbn [app handleToolCalls]. unfold bind.
    destruct (handleToolCall c r st) as [step st1]. apply IH.
Qed.

Lemma handleToolCall_output_id (c : ToolCall) (r : ChatMessage) (st : State) :
  tool_call_id (snd (fst (handleToolCall c r st))) = toolCall_id c.
Proof.
  unfold handleToolCall, bind, ret. cbv zeta.
  repeat match goal with
         | |- context [if ?b then _ else _] => destruct b
         | |- context [let (_, _) := ?x in _] => destruct x
         end; reflexivity.
Qed.

Lemma handleToolCalls_output_ids
    (cs : list ToolCall) (r : ChatMessage) (outs : list ToolOutput)
    (st : State) :
  map tool_call_id (snd (fst (handleToolCalls cs r outs st)))
  = (map tool_call_id outs ++ map toolCall_id cs)%list.
Proof.
  revert r outs st. induction cs as [|c cs IH]; intros r outs st.
  - cbn. now rewrite app_nil_r.
  - cbn [handleToolCalls map]. unfold bind.
    pose proof (handleToolCall_output_id c r st) as Hid.
    destruct (handleToolCall c r st) as [step st1]. cbn [fst snd] in Hid.
    rewrite IH, map_app. cbn [map]. rewrite Hid, <- app_assoc. reflexivity.
Qed.

Lemma handleToolCall_unknown (c : ToolCall) (r : ChatMessage) (st : State) :
  unknown_function (function_name c) ->
  handleToolCall c r st
  = ((r, {| tool_call_id := toolCall_id c; output := None |}), st).
Proof.
  intros (H1 & H2 & H3). unfold handleToolCall. cbv zeta.
  apply String.eqb_neq in H1, H2, H3. now rewrite H1, H2, H3.
Qed.

(** X22.  Serving a batch of tool calls produces exactly one output per
    call, in the order of the calls and under the id of each call, whatever
    the function names; and a batch that only names functions the loop does
    not serve gives every call the output [null] and leaves the response and
    the conversation state as they were. *)
Theorem tool_outputs_match_calls
    (cs : list ToolCall) (r : ChatMessage) (st : State) :
  map tool_call_id (snd (fst (handleToolCalls cs r [] st)))
  = map toolCall_id cs
  /\ (Forall (fun c => unknown_function (function_name c)) cs ->
      handleToolCalls cs r [] st
      = ((r, map (fun c => {| tool_call_id := toolCall_id c;
                              output := None |}) cs), st)).
Proof.
  split; [apply handleToolCalls_output_ids|].
  intros Hall.
  assert (G : forall outs,
             handleToolCalls cs r outs st
             = ((r, (outs ++ map (fun c => {| tool_call_id := toolCall_id c;
                                              output := None |}) cs)%list),
                st)).
  { induction Hall as [|c cs Hc Hcs IH]; intros outs.
    - cbn. now rewrite app_nil_r.
    - cbn [handleToolCalls map]. unfold bind.
      rewrite (handleToolCall_unknown c r st Hc). cbn [fst snd].
      rewrite IH, <- app_assoc. reflexivity. }
  apply (G []).
Qed.

Lemma tool_outputs_match_calls_witness :
  handleToolCalls
    [mkToolCall "call_1" "formatStructuredResponse"
       (mkToolArguments (mkProposal 1 "weekly" 1) 2400 None
          (mkResponse "" true None) (mkProposal 1 "weekly" 1) ""
          (mkPaymentPlan "weekly" 1 1 1) None)]
    empty_response [] initial_state
  = ((empty_response, [ {| tool_call_id := "call_1"; output := None |} ]),
     initial_state).
Proof.
  apply (proj2 (tool_outputs_match_calls
                  [mkToolCall "call_1" "formatStructuredResponse"
                     (mkToolArguments (mkProposal 1 "weekly" 1) 2400 None
                        (mkResponse "" true None) (mkProposal 1 "weekly" 1)
                        "" (mkPaymentPlan "weekly" 1 1 1) None)]
                  empty_response initial_state)).
  repeat constructor; discriminate.
Defined.

Lemma bind_ret_run {A B : Type} (m : M A) (f : A -> B) (st : State) :
  bind m (fun a => ret (f a)) st = (f (fst (m st)), snd (m st)).
Proof. unfold bind, ret. destruct (m st); reflexivity. Qed.

Lemma handleToolCall_evaluate (c : ToolCall) (r : ChatMessage) (st : State) :
  function_name c = "evaluateAndNegotiate" ->
  let res :=
    evaluateAndNegotiate (args_userProposal (function_arguments c))
      (args_debtAmount (function_arguments c))
      (or_empty (args_userSituation (function_arguments c)))
      (args_response (function_arguments c)) st in
  handleToolCall c r st
  = ((fst res, {| tool_call_id := toolCall_id c; output := Some (fst res) |}),
     snd res).
Proof.
  intros H res. unfold handleToolCall. cbv zeta. rewrite H.
  change ("evaluateAndNegotiate" =? "evaluateAndNegotiate")%string with true.
  cbv iota.
  apply (bind_ret_run _
           (fun result => (result, {| tool_call_id := toolCall_id c;
                                      output := Some result |}))).
Qed.

Lemma handleToolCall_suggest (c : ToolCall) (r : ChatMessage) (st : State) :
  function_name c = "suggestPlan" ->
  let res :=
    suggestPlan (args_proposedPlan (function_arguments c))
      (args_debtAmount (function_arguments c))
      (or_empty (args_userSituation (function_arguments c)))
      (args_message (function_arguments c)) st in
  handleToolCall c r st
  = ((fst res, {| tool_call_id := toolCall_id c; output := Some (fst res) |}),
     snd res).
Proof.
  intros H res. unfold handleToolCall. cbv zeta. rewrite H.
  change ("suggestPlan" =? "evaluateAndNegotiate")%string with false.
  change ("suggestPlan" =? "suggestPlan")%string with true.
  cbv iota.
  apply (bind_ret_run _
           (fun result => (result, {| tool_call_id := toolCall_id c;
                                      output := Some result |}))).
Qed.

Lemma handleToolCall_negotiating_state
    (c : ToolCall) (r : ChatMessage) (st : State) :
  negotiating_call c ->
  snd (handleToolCall c r st)
  = {| currentDebtAmount := currentDebtAmount st;
       negotiationStage := negotiationStage st + 1 |}.
Proof.
  intros [H|H].
  - rewrite (handleToolCall_evaluate c r st H). cbv zeta. cbn [snd].
    apply evaluateAndNegotiate_state.
  - rewrite (handleToolCall_suggest c r st H). cbv zeta. cbn [snd].
    apply suggestPlan_state.
Qed.

Lemma handleToolCall_negotiating_response
    (c : ToolCall) (r r' : ChatMessage) (st : State) :
  negotiating_call c ->
  fst (fst (handleToolCall c r st)) = fst (fst (handleToolCall c r' st))
  /\ displayType (fst (fst (handleToolCall c r st))) = paymentPlans.
Proof.
  intros [H|H].
  - rewrite !(handleToolCall_evaluate c _ st H). cbv zeta. cbn [fst].
    split; [reflexivity|].
    destruct (evaluateAndNegotiate_response
                (args_userProposal (function_arguments c))
                (args_debtAmount (function_arguments c))
                (or_empty (args_userSituation (function_arguments c)))
                (args_response (function_arguments c)) st)
      as (t & pl & _ & Hty & _).
    exact Hty.
  - rewrite !(handleToolCall_suggest c _ st H). cbv zeta. cbn [fst].
    split; [reflexivity|].
    destruct (suggestPlan_response
                (args_proposedPlan (function_arguments c))
                (args_debtAmount (function_arguments c))
                (or_empty (args_userSituation (function_arguments c)))
                (args_message (function_arguments c)) st)
      as (t & pl & _ & Hty & _).
    exact Hty.
Qed.

Lemma handleToolCalls_negotiating_state
    (cs : list ToolCall) (r : ChatMessage) (outs : list ToolOutput)
    (st : State) :
  Forall negotiating_call cs ->
  snd (handleToolCalls cs r outs st)
  = {| currentDebtAmount := currentDebtAmount st;
       negotiationStage := negotiationStage st + Z.of_nat (List.length cs) |}.
Proof.
  intros Hall. revert r outs st.
  induction Hall as [|c cs Hc Hcs IH]; intros r outs st.
  - cbn. destruct st. cbn. f_equal. lia.
  - cbn [handleToolCalls List.length]. unfold bind.
    pose proof (handleToolCall_negotiating_state c r st Hc) as Hs.
    destruct (handleToolCall c r st) as [step st1]. cbn [snd] in Hs.
    rewrite IH, Hs. cbn [currentDebtAmount negotiationStage]. f_equal. lia.
Qed.

(** X23.  In a batch of calls to [evaluateAndNegotiate] and [suggestPlan]
    every call moves the stage on by one, but only the last call is shown:
    after the calls [cs] followed by [c] the stage has grown by the number
    of calls, and the response is the one that [c] alone produces in the
    state reached after [cs], whose stage is the old stage plus the length
    of [cs]. *)
Theorem negotiation_batch_shows_last_call
    (cs : list ToolCall) (c : ToolCall) (r : ChatMessage) (st : State) :
  Forall negotiating_call cs ->
  negotiating_call c ->
  let after := handleToolCalls (cs ++ [c]) r [] st in
  let before_last :=
    {| currentDebtAmount := currentDebtAmount st;
       negotiationStage := negotiationStage st + Z.of_nat (List.length cs) |} in
  negotiationStage (snd after)
  = negotiationStage st + Z.of_nat (List.length cs) + 1
  /\ currentDebtAmount (snd after) = currentDebtAmount st
  /\ (forall r', fst (fst after)
                = fst (fst (handleToolCall c r' before_last)))
  /\ displayType (fst (fst after)) = paymentPlans.
Proof.
  intros Hcs Hc after before_last. subst after.
  rewrite handleToolCalls_append.
  rewrite (handleToolCalls_negotiating_state cs r [] st Hcs).
  fold before_last.
  set (r1 := fst (fst (handleToolCalls cs r [] st))).
  set (o1 := snd (fst (handleToolCalls cs r [] st))).
  cbn [handleToolCalls]. unfold bind, ret.
  pose proof (handleToolCall_negotiating_state c r1 before_last Hc) as Hs.
  pose proof (fun r' =>
                handleToolCall_negotiating_response c r1 r' before_last Hc)
    as Hres.
  destruct (handleToolCall c r1 before_last) as [[res out] st1].
  cbn [fst snd] in *. subst st1.
  cbn [negotiationStage currentDebtAmount].
  split; [reflexivity|]. split; [reflexivity|].
  split; [intros r'; apply (Hres r')|apply (Hres r)].
Qed.

Lemma negotiation_batch_shows_last_call_witness :
  let args :=
    mkToolArguments (mkProposal 50 "monthly" 12) 2400 None
      (mkResponse "" true None) (mkProposal 400 "monthly" 6) "How about this?"
      (mkPaymentPlan "monthly" 400 6 2400) None in
  let after :=
    handleToolCalls
      ([mkToolCall "call_1" "evaluateAndNegotiate" args]
       ++ [mkToolCall "call_2" "suggestPlan" args])
      empty_response [] initial_state in
  negotiationStage (snd after) = 0 + Z.of_nat 1 + 1
  /\ currentDebtAmount (snd after) = 2400
  /\ (forall r',
        fst (fst after)
        = fst (fst (handleToolCall (mkToolCall "call_2" "suggestPlan" args)
                      r' (mkState 2400 (0 + Z.of_nat 1)))))
  /\ displayType (fst (fst after)) = paymentPlans.
Proof.
  intros args.
  apply (negotiation_batch_shows_last_call
           [mkToolCall "call_1" "evaluateAndNegotiate" args]
           (mkToolCall "call_2" "suggestPlan" args) empty_response
           initial_state).
  - repeat constructor.
  - right. reflexivity.
Defined.

(** * Ordering of the minimum payments *)

Lemma getMinimumPayment_scaled (debt : Z) :
  getMinimumPayment "monthly" debt = - ((- (debt * 8)) / 100)
  /\ getMinimumPayment "biweekly" debt = - ((- (debt * 4)) / 100)
  /\ getMinimumPayment "weekly" debt = - ((- (debt * 2)) / 100).
Proof. repeat split. Qed.

Lemma allowed_frequency_cases (frequency : string) :
  array_includes allowedFrequencies frequency = true ->
  frequency = "weekly" \/ frequency = "biweekly" \/ frequency = "monthly".
Proof.
  unfold array_includes. intros H. apply existsb_exists in H.
  destruct H as (name & Hin & Heq). apply String.eqb_eq in Heq. subst name.
  unfold allowedFrequencies in Hin. cbn [In] in Hin. intuition.
Qed.

(** X24.  For a debt that is not negative the three minimum payments are
    ordered weekly, biweekly, monthly; doubling the rate at most doubles the
    rounded minimum; and the minimum of an allowed frequency never exceeds
    the debt itself, so that paying the whole debt at once is never below
    the floor. *)
Theorem minimum_payment_ordering (frequency : string) (debt : Z) :
  array_includes allowedFrequencies frequency = true ->
  0 <= debt ->
  getMinimumPayment "weekly" debt <= getMinimumPayment "biweekly" debt
  /\ getMinimumPayment "biweekly" debt <= getMinimumPayment "monthly" debt
  /\ getMinimumPayment "weekly" debt <= getMinimumPayment frequency debt
  /\ getMinimumPayment frequency debt <= getMinimumPayment "monthly" debt
  /\ getMinimumPayment "monthly" debt <= 2 * getMinimumPayment "biweekly" debt
  /\ getMinimumPayment "biweekly" debt <= 2 * getMinimumPayment "weekly" debt
  /\ getMinimumPayment frequency debt <= debt.
Proof.
  intros Hf Hd.
  destruct (getMinimumPayment_scaled debt) as (Hm & Hb & Hw).
  pose proof (cdiv_bounds (debt * 8) 100 ltac:(lia)) as B8.
  pose proof (cdiv_bounds (debt * 4) 100 ltac:(lia)) as B4.
  pose proof (cdiv_bounds (debt * 2) 100 ltac:(lia)) as B2.
  destruct (allowed_frequency_cases frequency Hf) as [ -> | [ -> | -> ] ];
    rewrite Hm, Hb, Hw; lia.
Qed.

Lemma minimum_payment_ordering_witness :
  getMinimumPayment "weekly" 2400 <= getMinimumPayment "biweekly" 2400
  /\ getMinimumPayment "biweekly" 2400 <= getMinimumPayment "monthly" 2400
  /\ getMinimumPayment "weekly" 2400 <= getMinimumPayment "biweekly" 2400
  /\ getMinimumPayment "biweekly" 2400 <= getMinimumPayment "monthly" 2400
  /\ getMinimumPayment "monthly" 2400 <= 2 * getMinimumPayment "biweekly" 2400
  /\ getMinimumPayment "biweekly" 2400 <= 2 * getMinimumPayment "weekly" 2400
  /\ getMinimumPayment "biweekly" 2400 <= 2400.
Proof.
  apply (minimum_payment_ordering "biweekly" 2400); [reflexivity|lia].
Defined.

(** * The policy where no inherited member is named *)


(** X26.  For a frequency that names no member of [Object.prototype] the
    minimum payment does not decrease when the debt grows. *)
Theorem minimum_payment_monotone (frequency : string) (debt1 debt2 : Z) :
  array_includes WithPrototype.Object_prototype frequency = false ->
  debt1 <= debt2 ->
  WithPrototype.le (WithPrototype.getMinimumPayment frequency debt1)
                   (WithPrototype.getMinimumPayment frequency debt2)
  = true.
Proof.
  intros Hown Hle. rewrite !(own_member_minimum _ _ Hown).
  cbn [WithPrototype.le]. apply Z.leb_le.
  now apply getMinimumPayment_le.
Qed.

Lemma minimum_payment_monotone_witness :
  WithPrototype.le (WithPrototype.getMinimumPayment "daily" 1000)
                   (WithPrototype.getMinimumPayment "daily" 2400)
  = true.
Proof.
  apply (minimum_payment_monotone "daily" 1000 2400); [reflexivity|lia].
Defined.

(** X27.  When the minimum payment of the plan's frequency and total is a
    number, [finalizePlan] answers with a terminal agreement exactly when
    the amount is at least that minimum, whatever the stage.  The agreement
    then carries the payment link built from the term length, the total and
    the amount, and the stage is reset.  Below the minimum the answer is a
    non-terminal [paymentPlans] response with one corrected plan (the
    minimum as amount, same frequency and total), and the state is left
    untouched; for a positive minimum the corrected term is
    [ceil (total / minimum)], the least number of payments of the minimum
    amount that cover the total. *)
Theorem finalize_floor
    (pl : PaymentPlan) (userDetails msg : string) (st : State) (floor : Z) :
  WithPrototype.getMinimumPayment (frequency pl) (totalAmount pl)
  = WithPrototype.Whole floor ->
  let r := fst (WithPrototype.finalizePlan pl userDetails msg st) in
  let st' := snd (WithPrototype.finalizePlan pl userDetails msg st) in
  (displayType r = finalPlan <-> floor <= amount pl)
  /\ (floor <= amount pl ->
        displayData r
        = Final {| final_frequency := frequency pl;
                   final_amount := amount pl;
                   final_termLength := termLength pl;
                   final_totalAmount := totalAmount pl;
                   paymentLink :=
                     Some ("collectwise.com/payments?termLength="
                           ++ Number_toString (termLength pl)
                           ++ "&totalDebtAmount="
                           ++ Number_toString (totalAmount pl)
                           ++ "&termPaymentAmount="
                           ++ Number_toString (amount pl)) |}
        /\ message r = msg
        /\ negotiationStage st' = 0)
  /\ (amount pl < floor ->
        displayType r = paymentPlans
        /\ st' = st
        /\ exists t,
             displayData r
             = Plans [ {| frequency := frequency pl;
                          amount := floor;
                          termLength := t;
                          totalAmount := totalAmount pl |} ]
             /\ (0 < floor ->
                 t = Math_ceil (num (totalAmount pl) / num floor)
                 /\ (t - 1) * floor < totalAmount pl <= t * floor)).
Proof.
  intros Hw r st'. subst r st'.
  destruct (whole_minimum_own _ _ _ Hw) as [Hown Hfloor].
  rewrite (finalizePlan_without_prototype pl userDetails msg st Hown).
  destruct (Z_lt_le_dec (amount pl) floor) as [Hlt|Hge].
  - destruct (finalizePlan_refuse pl userDetails msg st) as (Hs & Ht & Hd);
      [rewrite Hfloor; exact Hlt|].
    rewrite Hfloor in Hd.
    split; [|split].
    + rewrite Ht. split; [discriminate|lia].
    + lia.
    + intros _. split; [exact Ht|]. split; [exact Hs|].
      eexists. split; [exact Hd|].
      intros Hpos. split; [reflexivity|]. rewrite Math_ceil_div.
      apply (cdiv_bounds (totalAmount pl) floor Hpos).
  - rewrite (finalizePlan_accept pl userDetails msg st)
      by (rewrite Hfloor; exact Hge).
    cbn [fst snd displayType displayData message negotiationStage].
    split; [|split].
    + split; [intros _; exact Hge|reflexivity].
    + intros _. repeat split.
    + lia.
Qed.

Lemma finalize_floor_witness :
  let pl := mkPaymentPlan "monthly" 50 12 2400 in
  let r := fst (WithPrototype.finalizePlan pl "" "done" initial_state) in
  let st' := snd (WithPrototype.finalizePlan pl "" "done" initial_state) in
  (displayType r = finalPlan <-> 192 <= amount pl)
  /\ (192 <= amount pl ->
        displayData r
        = Final {| final_frequency := frequency pl;
                   final_amount := amount pl;
                   final_termLength := termLength pl;
                   final_totalAmount := totalAmount pl;
                   paymentLink :=
                     Some ("collectwise.com/payments?termLength="
                           ++ Number_toString (termLength pl)
                           ++ "&totalDebtAmount="
                           ++ Number_toString (totalAmount pl)
                           ++ "&termPaymentAmount="
                           ++ Number_toString (amount pl)) |}
        /\ message r = "done"
        /\ negotiationStage st' = 0)
  /\ (amount pl < 192 ->
        displayType r = paymentPlans
        /\ st' = initial_state
        /\ exists t,
             displayData r
             = Plans [ {| frequency := frequency pl;
                          amount := 192;
                          termLength := t;
                          totalAmount := totalAmount pl |} ]
             /\ (0 < 192 ->
                 t = Math_ceil (num (totalAmount pl) / num 192)
                 /\ (t - 1) * 192 < totalAmount pl <= t * 192)).
Proof.
  intros pl.
  apply (finalize_floor pl "" "done" initial_state 192). reflexivity.
Defined.

(** * Doubles: the model against the machine

    [double] agrees with the doubles of the kernel on the products and
    quotients the engine forms, and on whole numbers the exact products of
    the rate table and of the multipliers 1.2, 1.25 and 1.5, once rounded
    up, are those of the machine. *)

Example double_of_hardship_product :
  forallb
    (fun m =>
       Binary64.same_value
         (PrimFloat.mul (Binary64.of_Z m) (Binary64.decimal 11 10))
         (double (num m * double 1.1)))
    (Binary64.sample 1000) = true
  /\ Math_ceil (double (num 50 * double 1.1)) = 56.
Proof. split; vm_compute; reflexivity. Qed.

Example double_of_parsed_quotient :
  forallb
    (fun debt =>
       forallb
         (fun cents =>
            Binary64.same_value
              (PrimFloat.div (Binary64.of_Z debt) (Binary64.decimal cents 100))
              (double (num debt / double (inject_Z cents / 100))))
         (tl (Binary64.sample 400)))
    [999; 1000; 2400; 12345] = true
  /\ Binary64.same_value
       (PrimFloat.div (Binary64.of_Z 999) (Binary64.decimal 3330 100))
       (double (num 999 / double (33 + 30 / 100))) = true
  /\ Binary64.ceil
       (PrimFloat.div (Binary64.of_Z 999) (Binary64.decimal 3330 100))
     = Some 31.
Proof.
  split; [vm_compute; reflexivity|].
  split; vm_compute; reflexivity.
Qed.

Example exact_products_on_the_machine :
  forallb
    (fun debt =>
       match
         Binary64.ceil
           (PrimFloat.mul (Binary64.of_Z debt) (Binary64.decimal 8 100)),
         Binary64.ceil
           (PrimFloat.mul (Binary64.of_Z debt) (Binary64.decimal 4 100)),
         Binary64.ceil
           (PrimFloat.mul (Binary64.of_Z debt) (Binary64.decimal 2 100)),
         Binary64.ceil
           (PrimFloat.mul (Binary64.of_Z debt) (Binary64.decimal 12 10)),
         Binary64.ceil
           (PrimFloat.mul (Binary64.of_Z debt) (Binary64.decimal 125 100)),
         Binary64.ceil
           (PrimFloat.mul (Binary64.of_Z debt) (Binary64.decimal 15 10))
       with
       | Some a, Some b, Some c, Some d, Some e, Some f =>
           (a =? getMinimumPayment "monthly" debt)
           && (b =? getMinimumPayment "biweekly" debt)
           && (c =? getMinimumPayment "weekly" debt)
           && (d =? Math_ceil (num debt * 1.2))
           && (e =? Math_ceil (num debt * 1.25))
           && (f =? Math_ceil (num debt * 1.5))
       | _, _, _, _, _, _ => false
       end)
    (Binary64.sample 1000) = true.
Proof. vm_compute. reflexivity. Qed.

(** * The default term for an amount with cents *)

(** Two roundings, of the amount and of the quotient, move the quotient by
    less than the distance from a quotient of whole cents to the next whole
    number, unless the quotient is itself whole. *)
Lemma ceil_double_quotient_cents (debt n : Z) (A : Q) :
  (A * 100 == inject_Z n)%Q ->
  0 < n < 2 ^ 51 -> 0 < debt < 2 ^ 44 ->
  let y := double (inject_Z debt / double A) in
  let c := Qceiling (inject_Z debt / A) in
  Qceiling y = c
  \/ (Qceiling y = c + 1 /\ (inject_Z c * A == inject_Z debt)%Q).
Proof.
  intros HA [Hn Hn51] [Hd Hd44] y c.
  assert (Hn' : (0 < inject_Z n)%Q) by now apply inject_Z_pos.
  assert (Hd' : (0 < inject_Z debt)%Q) by now apply inject_Z_pos.
  assert (HApos : (0 < A)%Q) by lra.
  (* the two roundings *)
  destruct (double_spec A HApos) as (Ha0 & Ha1 & Ha2).
  set (a' := double A) in *.
  assert (HQ1 : (0 < inject_Z debt / a')%Q).
  { apply Qlt_shift_div_l; lra. }
  destruct (double_spec _ HQ1) as (Hy0 & Hy1 & Hy2).
  fold y in Hy0, Hy1, Hy2.
  set (Q1 := (inject_Z debt / a')%Q) in *.
  assert (HQa : (Q1 * a' == inject_Z debt)%Q) by (unfold Q1; field; lra).
  change (2 ^ 53)%Q with 9007199254740992%Q in *.
  (* products *)
  set (P := (y * a')%Q).
  set (W := (y * A)%Q).
  assert (HP1 : (P * 9007199254740992 <= inject_Z debt * 9007199254740993)%Q).
  { assert (H : (y * 9007199254740992 * a'
                 <= Q1 * 9007199254740993 * a')%Q).
    { apply Qmult_le_compat_r; lra. }
    unfold P. nra. }
  assert (HP2 : (inject_Z debt * 9007199254740991 <= P * 9007199254740992)%Q).
  { assert (H : (Q1 * 9007199254740991 * a'
                 <= y * 9007199254740992 * a')%Q).
    { apply Qmult_le_compat_r; lra. }
    unfold P. nra. }
  assert (HW1 : (W * 9007199254740991 <= P * 9007199254740992)%Q).
  { assert (H : (A * 9007199254740991 * y
                 <= a' * 9007199254740992 * y)%Q).
    { apply Qmult_le_compat_r; lra. }
    unfold W, P. nra. }
  assert (HW2 : (P * 9007199254740992 <= W * 9007199254740993)%Q).
  { assert (H : (a' * 9007199254740992 * y
                 <= A * 9007199254740993 * y)%Q).
    { apply Qmult_le_compat_r; lra. }
    unfold W, P. nra. }
  (* the exact quotient, in cents *)
  set (T := 100 * debt).
  assert (HT : (inject_Z T == 100 * inject_Z debt)%Q).
  { unfold T. rewrite inject_Z_mult. reflexivity. }
  set (Y := (y * inject_Z n)%Q).
  assert (HY : (Y == 100 * W)%Q).
  { unfold Y, W. rewrite <- HA. ring. }
  assert (Hq : (inject_Z debt / A == inject_Z T / inject_Z n)%Q).
  { assert (HA2 : (A == inject_Z n / 100)%Q) by (rewrite <- HA; field).
    rewrite HA2, HT. field. lra. }
  assert (Hc : c = - ((- T) / n)).
  { unfold c. rewrite (Qceiling_comp _ _ Hq). apply Math_ceil_div. }
  pose proof (cdiv_bounds T n Hn) as [Hlo Hhi]. rewrite <- Hc in Hlo, Hhi.
  assert (HT44 : T < 2 ^ 51) by (unfold T; lia).
  assert (Hlo' : (inject_Z c * inject_Z n - inject_Z n + 1 <= inject_Z T)%Q).
  { rewrite <- inject_Z_mult. change 1%Q with (inject_Z 1).
    rewrite <- inject_Z_minus, <- inject_Z_plus, <- Zle_Qle. lia. }
  assert (Hhi' : (inject_Z T <= inject_Z c * inject_Z n)%Q).
  { rewrite <- inject_Z_mult, <- Zle_Qle. lia. }
  assert (HT' : (inject_Z T < 2251799813685248)%Q).
  { change 2251799813685248%Q with (inject_Z (2 ^ 51)).
    rewrite <- Zlt_Qlt. lia. }
  assert (Hn51' : (inject_Z n < 2251799813685248)%Q).
  { change 2251799813685248%Q with (inject_Z (2 ^ 51)).
    rewrite <- Zlt_Qlt. lia. }
  (* below y *)
  assert (Hbelow : (inject_Z c - 1 < y)%Q).
  { apply Qmult_lt_r with (z := inject_Z n); [exact Hn'|]. fold Y. lra. }
  destruct (Z.eq_dec T (c * n)) as [Ewhole|Efrac].
  - (* a whole quotient: the term is it or the next *)
    assert (Hup : (y <= inject_Z c + 1)%Q).
    { apply Qmult_le_r with (z := inject_Z n); [exact Hn'|]. fold Y. lra. }
    destruct (Qlt_le_dec (inject_Z c) y) as [Hgt|Hle].
    + right. split.
      * apply Qceiling_unique.
        -- rewrite inject_Z_plus. change (inject_Z 1) with 1%Q. lra.
        -- rewrite inject_Z_plus. change (inject_Z 1) with 1%Q. lra.
      * assert (E : (inject_Z T == inject_Z c * inject_Z n)%Q).
        { rewrite Ewhole, inject_Z_mult. reflexivity. }
        rewrite <- HA in E. lra.
    + left. now apply Qceiling_unique.
  - (* not whole: the margin is one cent's share *)
    left. apply Qceiling_unique; [exact Hbelow|].
    assert (Hhi2 : (inject_Z T + 1 <= inject_Z c * inject_Z n)%Q).
    { rewrite <- inject_Z_mult. change 1%Q with (inject_Z 1).
      rewrite <- inject_Z_plus, <- Zle_Qle. lia. }
    apply Qmult_le_r with (z := inject_Z n); [exact Hn'|]. fold Y. lra.
Qed.

(** X28.  The default term for an amount in whole cents.  When the text
    holds no term phrase, the term of the extracted plan is the exact
    ceiling of debt over amount, the least number of payments that cover the
    debt, except that it can be one more when the amount divides the debt
    exactly: the double quotient may then lie just above the whole quotient.
    On "$33.30 monthly" with a debt of 999 the term is 31, not 30. *)
Theorem default_term_with_cents
    (text : string) (debt : Z) (p : ExtractedPlan) (n : Z) :
  plan (extractPaymentPlan text debt) = Some p ->
  ~ has_term_phrase text ->
  whole (extracted_amount p * 100) = Some n ->
  0 < n < 2 ^ 51 -> 0 < debt < 2 ^ 44 ->
  let c := Math_ceil (num debt / extracted_amount p) in
  extracted_termLength p = c
  \/ (extracted_termLength p = c + 1
      /\ (inject_Z c * extracted_amount p == num debt)%Q).
Proof.
  intros Hp Hno Hw Hn Hd c.
  destruct (extractPaymentPlan_cases text debt)
    as [(_ & _ & _ & p' & Hp' & Ht)|[_ E]];
    [|rewrite E in Hp; discriminate Hp].
  rewrite Hp in Hp'. injection Hp' as <-.
  assert (Hterm : matchAll termPattern text = []).
  { destruct (matchAll termPattern text) as [|t0 ts] eqn:E; [reflexivity|].
    exfalso. apply Hno, termMatches_found. rewrite E. discriminate. }
  rewrite (Ht Hterm). subst c. unfold Math_ceil, num.
  apply (ceil_double_quotient_cents debt n (extracted_amount p));
    [now apply whole_value|exact Hn|exact Hd].
Qed.

Lemma default_term_with_cents_witness :
  let p := mkExtractedPlan "monthly" (33 + 30 / 100)%Q 31 in
  let c := Math_ceil (num 999 / extracted_amount p) in
  extracted_termLength p = c
  \/ (extracted_termLength p = c + 1
      /\ (inject_Z c * extracted_amount p == num 999)%Q).
Proof.
  intros p.
  apply (default_term_with_cents "$33.30 monthly" 999 p 3330).
  - vm_compute. reflexivity.
  - intros H. apply termMatches_found in H. now apply H.
  - vm_compute. reflexivity.
  - split; reflexivity.
  - split; reflexivity.
Defined.

(** * The hardship counter-offer of [evaluateAndNegotiate] *)

Lemma evaluateAndNegotiate_hardship
    (p : Proposal) (debt : Z) (userSituation : string)
    (response : Response) (st : State) :
  array_includes allowedFrequencies (proposal_frequency p) = true ->
  debt <= proposal_amount p * proposal_termLength p ->
  proposal_amount p < getMinimumPayment (proposal_frequency p) debt ->
  evaluate_hardship userSituation = true ->
  evaluateAndNegotiate p debt userSituation response st
  = createCounterProposal
      "I understand your situation, but we need something a bit higher to make this work."
      (proposal_frequency p)
      (Math_ceil
         (num debt
          / num (Math_ceil
                   (double
                      (num (getMinimumPayment (proposal_frequency p) debt)
                       * double 1.1)))))
      debt "" st.
Proof.
  intros Hf Ht Ha Hh. unfold evaluateAndNegotiate. cbv zeta.
  rewrite Hf. cbn [negb].
  assert (E1 : (proposal_amount p * proposal_termLength p <? debt) = false)
    by (apply Z.ltb_ge; lia).
  apply Z.ltb_lt in Ha. rewrite E1, Ha.
  unfold evaluate_hardship in Hh. rewrite Hh. reflexivity.
Qed.

(** The double product with 1.1, rounded up, is the exact ceiling, or one
    more when the exact product is whole: the double of 1.1 lies above
    1.1. *)
Lemma ceil_double_product_hardship (m : Z) :
  0 < m < 2 ^ 48 ->
  let s := Math_ceil (double (num m * double 1.1)) in
  let k := Math_ceil (num m * 1.1) in
  s = k \/ (s = k + 1 /\ (10 | m)).
Proof.
  intros [Hm Hm48] s k. subst s. unfold Math_ceil, num.
  assert (Ea : (double 1.1 == 2476979795053773 # 2251799813685248)%Q)
    by (vm_compute; reflexivity).
  assert (EP : (inject_Z m * double 1.1
                == inject_Z m * (2476979795053773 # 2251799813685248))%Q)
    by now rewrite Ea.
  rewrite (double_comp _ _ EP).
  set (P := (inject_Z m * (2476979795053773 # 2251799813685248))%Q).
  assert (Hm' : (0 < inject_Z m)%Q) by now apply inject_Z_pos.
  assert (HP : (0 < P)%Q) by (unfold P; lra).
  destruct (double_spec P HP) as (Hy0 & Hy1 & Hy2).
  set (y := double P) in *.
  change (2 ^ 53)%Q with 9007199254740992%Q in *.
  assert (Hk : k = - ((- (m * 11)) / 10)) by (subst k; apply Math_ceil_scale).
  pose proof (cdiv_bounds (m * 11) 10 ltac:(lia)) as [Hlo Hhi].
  rewrite <- Hk in Hlo, Hhi.
  assert (Hm48' : (inject_Z m < 281474976710656)%Q).
  { change 281474976710656%Q with (inject_Z (2 ^ 48)).
    rewrite <- Zlt_Qlt. lia. }
  assert (Hlo' : (10 * inject_Z k - 10 + 1 <= 11 * inject_Z m)%Q).
  { change 10%Q with (inject_Z 10). change 11%Q with (inject_Z 11).
    change 1%Q with (inject_Z 1).
    rewrite <- !inject_Z_mult, <- inject_Z_minus, <- inject_Z_plus,
      <- Zle_Qle. lia. }
  assert (Hbelow : (inject_Z k - 1 < y)%Q) by (unfold P in *; lra).
  destruct (Z.eq_dec (m * 11) (k * 10)) as [Ewhole|Efrac].
  - assert (Hhi' : (11 * inject_Z m == 10 * inject_Z k)%Q).
    { change 10%Q with (inject_Z 10). change 11%Q with (inject_Z 11).
      rewrite <- !inject_Z_mult. apply inject_Z_injective. lia. }
    assert (Hup : (y <= inject_Z k + 1)%Q) by (unfold P in *; lra).
    destruct (Qlt_le_dec (inject_Z k) y) as [Hgt|Hle].
    + right. split.
      * apply Qceiling_unique.
        -- rewrite inject_Z_plus. change (inject_Z 1) with 1%Q. lra.
        -- rewrite inject_Z_plus. change (inject_Z 1) with 1%Q. lra.
      * exists (k - m). lia.
    + left. now apply Qceiling_unique.
  - left. apply Qceiling_unique; [exact Hbelow|].
    assert (Hhi2 : (11 * inject_Z m + 1 <= 10 * inject_Z k)%Q).
    { change 10%Q with (inject_Z 10). change 11%Q with (inject_Z 11).
      change 1%Q with (inject_Z 1).
      rewrite <- !inject_Z_mult, <- inject_Z_plus, <- Zle_Qle. lia. }
    unfold P in *. lra.
Qed.

(** X29.  With a hardship word in the situation text, an allowed frequency
    and a proposal that covers a positive debt with an amount below the
    minimum, [evaluateAndNegotiate] counters with the term
    [ceil (debt / s)] and the amount [floor (debt / term)], where [s] is
    [Math.ceil(minimum * 1.1)] in doubles: the exact ceiling of the product,
    or one more when the minimum is a multiple of ten (a minimum of 50
    gives 56, not 55). *)
Theorem evaluate_hardship_counter
    (p : Proposal) (debt : Z) (userSituation : string)
    (response : Response) (st : State) :
  array_includes allowedFrequencies (proposal_frequency p) = true ->
  0 < debt < 2 ^ 48 ->
  debt <= proposal_amount p * proposal_termLength p ->
  proposal_amount p < getMinimumPayment (proposal_frequency p) debt ->
  evaluate_hardship userSituation = true ->
  let m := getMinimumPayment (proposal_frequency p) debt in
  let k := Math_ceil (num m * 1.1) in
  exists s pl,
    (s = k \/ (s = k + 1 /\ (10 | m)))
    /\ displayData
         (fst (evaluateAndNegotiate p debt userSituation response st))
       = Plans [pl]
    /\ frequency pl = proposal_frequency p
    /\ totalAmount pl = debt
    /\ termLength pl = Math_ceil (num debt / num s)
    /\ amount pl = Math_floor (num debt / num (termLength pl))
    /\ amount pl <= s.
Proof.
  intros Hf [Hd Hd48] Hcover Ha Hh m k.
  assert (Hm : 0 < m) by (subst m; now apply getMinimumPayment_pos).
  assert (Hmd : m <= debt).
  { subst m. destruct (allowed_frequency_cases _ Hf) as [ -> | [ -> | -> ] ];
      destruct (getMinimumPayment_scaled debt) as (Em & Eb & Ew);
      [rewrite Ew; pose proof (cdiv_bounds (debt * 2) 100 ltac:(lia))
      |rewrite Eb; pose proof (cdiv_bounds (debt * 4) 100 ltac:(lia))
      |rewrite Em; pose proof (cdiv_bounds (debt * 8) 100 ltac:(lia))];
      lia. }
  set (s := Math_ceil (double (num m * double 1.1))).
  assert (Hs : 0 < s) by (subst s; now apply hardship_amount_pos).
  rewrite (evaluateAndNegotiate_hardship p debt userSituation response st
             Hf Hcover Ha Hh).
  fold m. fold s.
  destruct (counter_plan_for_amount
              "I understand your situation, but we need something a bit higher to make this work."
              (proposal_frequency p) debt s "" st Hd Hs)
    as (pl & Hdata & H1 & H2 & H3 & H4 & _ & _ & H5 & _).
  exists s, pl. split.
  - subst s k. apply ceil_double_product_hardship. lia.
  - repeat split; assumption.
Qed.

Lemma evaluate_hardship_counter_witness :
  let m := getMinimumPayment "weekly" 2500 in
  let k := Math_ceil (num m * 1.1) in
  exists s pl,
    (s = k \/ (s = k + 1 /\ (10 | m)))
    /\ displayData
         (fst (evaluateAndNegotiate (mkProposal 25 "weekly" 100) 2500
                 "I was laid off in March" (mkResponse "" true None)
                 initial_state))
       = Plans [pl]
    /\ frequency pl = "weekly"
    /\ totalAmount pl = 2500
    /\ termLength pl = Math_ceil (num 2500 / num s)
    /\ amount pl = Math_floor (num 2500 / num (termLength pl))
    /\ amount pl <= s.
Proof.
  apply (evaluate_hardship_counter (mkProposal 25 "weekly" 100) 2500
           "I was laid off in March" (mkResponse "" true None) initial_state).
  - reflexivity.
  - split; reflexivity.
  - vm_compute. discriminate.
  - reflexivity.
  - reflexivity.
Defined.

Example hardship_counter_at_fifty :
  getMinimumPayment "weekly" 2500 = 50
  /\ Math_ceil (num 50 * 1.1) = 55
  /\ Math_ceil (double (num 50 * double 1.1)) = 56
  /\ displayData
       (fst (evaluateAndNegotiate (mkProposal 25 "weekly" 100) 2500
               "I was laid off in March" (mkResponse "" true None)
               initial_state))
     = Plans [ {| frequency := "weekly"; amount := 55; termLength := 45;
                  totalAmount := 2500 |} ].
Proof.
  split; [reflexivity|]. split; [reflexivity|].
  split; vm_compute; reflexivity.
Qed.
